(** * The provider-routing gateway of emotional_chatbot

    A shallow embedding of
    - [backend/modules/llm/providers/base_provider.py] and the provider
      classes next to it,
    - [backend/modules/llm/llm_router.py] (class [LLMRouter]),
    - the tool-call handling of
      [backend/modules/llm/core/llm_with_plugins.py],
    followed by the properties of the specification that concern them.

    Python values are embedded as [PyVal]; a [str] is a Rocq [string]
    holding its UTF-8 encoding; a [dict] with string keys is a
    [gmap string PyVal].  Code that talks to the network is run against an
    abstract world [W]: every call of [is_available] and of a completion
    is answered by an oracle and recorded, with everything the code
    prints, in a log of events. *)

From Stdlib Require Import QArith_base.
Close Scope Q_scope.
From stdpp Require Import gmap strings list sorting pretty.
From Stdlib Require Import Ascii.

Local Set Warnings "-register-all".
Local Open Scope string_scope.
Local Open Scope list_scope.

(** ** Python values *)

(** [PFloat] carries the exact rational value of a finite float. *)
Inductive PyVal : Type :=
| PNone
| PBool (b : bool)
| PInt (z : Z)
| PFloat (q : Q)
| PStr (s : string)
| PList (l : list PyVal)
| PDict (d : gmap string PyVal).

(** Truth value of an object, as [if x:] and [not x] compute it. *)
Definition truthy (v : PyVal) : bool :=
  match v with
  | PNone => false
  | PBool b => b
  | PInt z => negb (z =? 0)%Z
  | PFloat q => negb (Qnum q =? 0)%Z
  | PStr s => negb (bool_decide (s = ""))
  | PList l => negb (bool_decide (length l = 0))
  | PDict d => negb (bool_decide (d = ∅))
  end.

(** [d.get(k, default)] on a dict. *)
Definition dict_get (d : gmap string PyVal) (k : string) (default : PyVal) : PyVal :=
  match d !! k with
  | Some v => v
  | None => default
  end.

(** The float literals of the source, by their exact binary value. *)
Definition float_0_7 : Q := Qmake 3152519739159347 4503599627370496.

(** ** Exceptions *)

Inductive ExnClass :=
| Exception | ValueError | TypeError | KeyError | IndexError
| AttributeError | JSONDecodeError | RequestException.

(** [exn_msg] is what [str(e)] and an f-string show. *)
Record Exn := mkExn { exn_cls : ExnClass; exn_msg : string }.

Global Instance ExnClass_eq_dec : EqDecision ExnClass.
Proof. solve_decision. Defined.

Global Instance Exn_eq_dec : EqDecision Exn.
Proof. solve_decision. Defined.

(** ** Comparison of Python values *)

(** The value of a number ([bool] is an [int] in Python). *)
Definition num_key (v : PyVal) : option Q :=
  match v with
  | PBool b => Some (inject_Z (Z.b2z b))
  | PInt z => Some (inject_Z z)
  | PFloat q => Some q
  | _ => None
  end.

(** [a == b]: numbers are equal by value, whatever their type; strings,
    lists and dicts are equal to values of their own type only, item by
    item. *)
Fixpoint py_eq (a b : PyVal) {struct a} : bool :=
  match a, b with
  | PNone, PNone => true
  | PStr s, PStr t => bool_decide (s = t)
  | PList l, PList m =>
      (fix items (l m : list PyVal) : bool :=
         match l, m with
         | [], [] => true
         | x :: l', y :: m' => py_eq x y && items l' m'
         | _, _ => false
         end) l m
  | PDict d, PDict e =>
      bool_decide (size d = size e) &&
      map_fold (λ k v acc,
                  acc && match e !! k with
                         | Some w => py_eq v w
                         | None => false
                         end) true d
  | _, _ =>
      match num_key a, num_key b with
      | Some x, Some y => Qeq_bool x y
      | _, _ => false
      end
  end.

(** The name of the type of a value. *)
Definition type_name (v : PyVal) : string :=
  match v with
  | PNone => "NoneType"
  | PBool _ => "bool"
  | PInt _ => "int"
  | PFloat _ => "float"
  | PStr _ => "str"
  | PList _ => "list"
  | PDict _ => "dict"
  end.

(** [a < b]: numbers are ordered by value, strings by their code points
    (which is the order of their UTF-8 bytes), lists by their first items
    that differ, the shorter list first when there is none.  Every other
    pair of values raises [TypeError]. *)
Fixpoint py_lt (a b : PyVal) {struct a} : Exn + bool :=
  match a, b with
  | PStr s, PStr t => inr (String.ltb s t)
  | PList l, PList m =>
      (fix items (l m : list PyVal) : Exn + bool :=
         match l, m with
         | [], [] => inr false
         | [], _ :: _ => inr true
         | _ :: _, [] => inr false
         | x :: l', y :: m' => if py_eq x y then items l' m' else py_lt x y
         end) l m
  | _, _ =>
      match num_key a, num_key b with
      | Some x, Some y => inr (negb (Qle_bool y x))
      | _, _ =>
          inl (mkExn TypeError
                 ("'<' not supported between instances of '" +:+ type_name a
                    +:+ "' and '" +:+ type_name b +:+ "'"))
      end
  end.

(** The number of constructors of a value. *)
Fixpoint py_size (v : PyVal) : nat :=
  match v with
  | PList l => S (foldr (λ x n, py_size x + n) 0 l)
  | PDict d => S (map_fold (λ _ x n, py_size x + n) 0 d)
  | _ => 1
  end.

(** ** base_provider.py *)

Record LLMMessage := mkMessage { role : string; content : string }.

Record LLMResponse := mkResponse {
  resp_content : string;
  resp_model : PyVal;
  usage : option (gmap string PyVal);
  finish_reason : PyVal
}.

Global Instance LLMMessage_eq_dec : EqDecision LLMMessage.
Proof. solve_decision. Defined.

(** The seven provider classes the router knows, in the order of its
    [provider_classes] table. *)
Inductive ProviderClass :=
| SiliconFlowProvider | DeepSeekProvider | ClaudeProvider | GeminiProvider
| OllamaProvider | DashScopeProvider | OpenAIProvider.

Global Instance ProviderClass_eq_dec : EqDecision ProviderClass.
Proof. solve_decision. Defined.

(** A provider object.  [cls] is its class; the other fields are the
    attributes set by [BaseLLMProvider.__init__] and by the constructor of
    the subclass ([api_key] stays [PNone] for Ollama, which has none). *)
Record Provider := mkProvider {
  cls : ProviderClass;
  config : gmap string PyVal;
  model : PyVal;
  temperature : PyVal;
  max_tokens : PyVal;
  api_key : PyVal;
  base_url : PyVal;
  timeout : PyVal
}.

(** No provider class defines [__eq__], so [provider == other] is object
    identity.  Provider objects are only created by
    [_initialize_providers], one per class of the table, hence the class
    is the identity token of the object. *)
Definition provider_eqb (p q : Provider) : bool :=
  bool_decide (cls p = cls q).

(** [format_messages] of the base class. *)
Definition format_messages (messages : list LLMMessage) : list PyVal :=
  map (fun msg => PDict (<["role" := PStr (role msg)]>
                          (<["content" := PStr (content msg)]> ∅))) messages.

(** *** Constructors *)

Definition default_model (c : ProviderClass) : string :=
  match c with
  | SiliconFlowProvider => "Qwen/Qwen2.5-7B-Instruct"
  | DeepSeekProvider => "deepseek-chat"
  | ClaudeProvider => "claude-3-haiku-20240307"
  | GeminiProvider => "gemini-pro"
  | OllamaProvider => "qwen2.5:8b"
  | DashScopeProvider => "qwen-plus"
  | OpenAIProvider => "default"
  end.

Definition default_base_url (c : ProviderClass) : string :=
  match c with
  | SiliconFlowProvider => "https://api.siliconflow.cn/v1"
  | DeepSeekProvider => "https://api.deepseek.com/v1"
  | ClaudeProvider => "https://api.anthropic.com"
  | GeminiProvider => "https://generativelanguage.googleapis.com"
  | OllamaProvider => "http://localhost:11434"
  | DashScopeProvider => "https://dashscope.aliyuncs.com/compatible-mode/v1"
  | OpenAIProvider => ""
  end.

Definition default_timeout (c : ProviderClass) : Z :=
  match c with
  | DashScopeProvider => 30
  | _ => 60
  end.

Definition missing_key_message (c : ProviderClass) : string :=
  match c with
  | SiliconFlowProvider => "SiliconFlow API key is required"
  | DeepSeekProvider => "DeepSeek API key is required"
  | ClaudeProvider => "Claude API key is required"
  | GeminiProvider => "Gemini API key is required"
  | DashScopeProvider => "DashScope API密钥未配置"
  | _ => ""
  end.

(** The [__init__] of the six provider classes whose source is at hand:
    the attributes are read from the config with their defaults, and every
    class but Ollama raises [ValueError] when [api_key] is falsy. *)
Definition provider_init (c : ProviderClass) (cfg : gmap string PyVal)
  : Exn + Provider :=
  let self :=
    {| cls := c;
       config := cfg;
       model := dict_get cfg "model" (PStr (default_model c));
       temperature := dict_get cfg "temperature" (PFloat float_0_7);
       max_tokens := dict_get cfg "max_tokens" (PInt 1000);
       api_key := match c with
                  | OllamaProvider => PNone
                  | _ => dict_get cfg "api_key" PNone
                  end;
       base_url := dict_get cfg "base_url" (PStr (default_base_url c));
       timeout := dict_get cfg "timeout" (PInt (default_timeout c)) |} in
  match c with
  | OllamaProvider => inr self
  | _ => if truthy (api_key self) then inr self
         else inl (mkExn ValueError (missing_key_message c))
  end.

(** ** llm_router.py *)

(** The router object: [self.config['providers']], [self.providers] and
    [self.current_provider]. *)
Record LLMRouter := mkRouter {
  router_config : gmap string (gmap string PyVal);
  providers : list Provider;
  current_provider : option Provider
}.

(** [self] after [self.current_provider = p]. *)
Definition with_current (self : LLMRouter) (p : option Provider) : LLMRouter :=
  mkRouter (router_config self) (providers self) p.

(** What a run leaves behind for an observer: the probes and completion
    calls made on providers, each with its answer, and the lines printed. *)
Inductive Event :=
| EvProbe (p : Provider) (r : Exn + bool)
| EvCall (p : Provider) (messages : list LLMMessage)
         (kwargs : gmap string PyVal) (r : Exn + LLMResponse)
| EvPrint (line : string).

(** The world outside the process.  A backend says how the world answers a
    provider's [is_available()] and its completion ([chat_completion_sync]
    when the class has it, otherwise [asyncio.run] of [chat_completion]),
    both abstract methods of [BaseLLMProvider].  [openai_provider.py] is
    not part of the sources at hand: the constructor and the name of that
    class are taken as given with the backend. *)
Class Backend (W : Type) := {
  is_available : Provider -> W -> (Exn + bool) * W;
  provider_chat_completion :
    Provider -> list LLMMessage -> gmap string PyVal -> W
    -> (Exn + LLMResponse) * W;
  OpenAIProvider_init : gmap string PyVal -> Exn + Provider;
  OpenAIProvider_name : string
}.

Section Router.

Context {W : Type} `{!Backend W}.

Definition get_provider_name (p : Provider) : string :=
  match cls p with
  | SiliconFlowProvider => "SiliconFlow"
  | DeepSeekProvider => "DeepSeek"
  | ClaudeProvider => "Claude"
  | GeminiProvider => "Gemini"
  | OllamaProvider => "Ollama"
  | DashScopeProvider => "DashScope"
  | OpenAIProvider => OpenAIProvider_name
  end.

(** [provider_class(config)]. *)
Definition construct (c : ProviderClass) (cfg : gmap string PyVal)
  : Exn + Provider :=
  match c with
  | OpenAIProvider =>
      match OpenAIProvider_init cfg with
      | inr p => inr (mkProvider OpenAIProvider (config p) (model p)
                        (temperature p) (max_tokens p) (api_key p)
                        (base_url p) (timeout p))
      | inl e => inl e
      end
  | _ => provider_init c cfg
  end.

(** *** The monad of router methods

    A method reads and writes [self], acts on the world, emits events,
    and returns a value or raises. *)
Record Outcome (A : Type) := mkOutcome {
  result : Exn + A;
  self_after : LLMRouter;
  world_after : W;
  emitted : list Event
}.
Arguments mkOutcome {A}.
Arguments result {A}.
Arguments self_after {A}.
Arguments world_after {A}.
Arguments emitted {A}.

Definition M (A : Type) : Type := LLMRouter -> W -> Outcome A.

Definition ret {A} (a : A) : M A :=
  fun self w => mkOutcome (inr a) self w [].

Definition raise {A} (e : Exn) : M A :=
  fun self w => mkOutcome (inl e) self w [].

Definition bind {A B} (m : M A) (k : A -> M B) : M B :=
  fun self w =>
    match m self w with
    | mkOutcome (inl e) self1 w1 evs1 => mkOutcome (inl e) self1 w1 evs1
    | mkOutcome (inr a) self1 w1 evs1 =>
        match k a self1 w1 with
        | mkOutcome r self2 w2 evs2 => mkOutcome r self2 w2 (evs1 ++ evs2)
        end
    end.

(** [try: m except Exception as e: h e]. *)
Definition try_except {A} (m : M A) (h : Exn -> M A) : M A :=
  fun self w =>
    match m self w with
    | mkOutcome (inr a) self1 w1 evs1 => mkOutcome (inr a) self1 w1 evs1
    | mkOutcome (inl e) self1 w1 evs1 =>
        match h e self1 w1 with
        | mkOutcome r self2 w2 evs2 => mkOutcome r self2 w2 (evs1 ++ evs2)
        end
    end.

Notation "x <~ m ; k" := (bind m (fun x => k))
  (at level 20, m at level 100, k at level 200, only parsing).
Notation "m ;; k" := (bind m (fun _ => k))
  (at level 100, k at level 200, only parsing, right associativity).

Definition print (line : string) : M unit :=
  fun self w => mkOutcome (inr tt) self w [EvPrint line].

Definition get_self : M LLMRouter :=
  fun self w => mkOutcome (inr self) self w [].

Definition set_current_provider (p : option Provider) : M unit :=
  fun self w => mkOutcome (inr tt) (with_current self p) w [].

Definition set_providers (ps : list Provider) : M unit :=
  fun self w =>
    mkOutcome (inr tt)
      (mkRouter (router_config self) ps (current_provider self)) w [].

(** [provider.is_available()]. *)
Definition call_is_available (p : Provider) : M bool :=
  fun self w =>
    let '(r, w') := is_available p w in
    mkOutcome r self w' [EvProbe p r].

(** The completion call on [p], by whichever of its two entry points. *)
Definition call_chat_completion (p : Provider) (messages : list LLMMessage)
    (kwargs : gmap string PyVal) : M LLMResponse :=
  fun self w =>
    let '(r, w') := provider_chat_completion p messages kwargs w in
    mkOutcome r self w' [EvCall p messages kwargs r].

(** [for x in l: body], where the body answers [Some v] to [return v]
    and [None] to go on with the next element. *)
Fixpoint for_each {A B} (l : list A) (body : A -> M (option B))
  : M (option B) :=
  match l with
  | [] => ret None
  | x :: l' =>
      r <~ body x;
      match r with
      | Some v => ret (Some v)
      | None => for_each l' body
      end
  end.

(** *** _initialize_providers *)

Definition provider_classes : list (string * ProviderClass) :=
  [ ("siliconflow", SiliconFlowProvider);
    ("deepseek", DeepSeekProvider);
    ("claude", ClaudeProvider);
    ("gemini", GeminiProvider);
    ("ollama", OllamaProvider);
    ("dashscope", DashScopeProvider);
    ("openai", OpenAIProvider) ].

(** The key of a class in [provider_classes] and in the configuration. *)
Definition class_key (c : ProviderClass) : string :=
  match c with
  | SiliconFlowProvider => "siliconflow"
  | DeepSeekProvider => "deepseek"
  | ClaudeProvider => "claude"
  | GeminiProvider => "gemini"
  | OllamaProvider => "ollama"
  | DashScopeProvider => "dashscope"
  | OpenAIProvider => "openai"
  end.

(** [x] is left before [y] by the sort when [y < x] is false. *)
Definition key_le (a b : PyVal) : bool :=
  match py_lt b a with
  | inr false => true
  | _ => false
  end.

(** [a < b] does not raise. *)
Definition comparable (a b : PyVal) : bool :=
  match py_lt a b with
  | inr _ => true
  | inl _ => false
  end.

(** The order of the sort on the entries, and the entries whose keys are
    numbers. *)
Definition entry_le (x y : PyVal * Provider) : Prop := key_le x.1 y.1 = true.

Definition numeric (x : PyVal * Provider) : Prop := is_Some (num_key x.1).

Fixpoint insert_by_key (x : PyVal * Provider) (l : list (PyVal * Provider))
  : list (PyVal * Provider) :=
  match l with
  | [] => [x]
  | y :: l' => if key_le x.1 y.1 then x :: l else y :: insert_by_key x l'
  end.

(** [provider_configs.sort(key=lambda x: x[0])]: a stable sort on the
    first component, which compares the keys by [<].  With fewer than two
    entries nothing is compared.  When some two keys cannot be compared
    the sort raises the [TypeError] of the comparison (its text goes on
    with the names of the two types that the sort came to compare).
    Otherwise the entries come in ascending order of their keys, those of
    equal keys in the order they had. *)
Definition sort_by_priority (l : list (PyVal * Provider))
  : Exn + list (PyVal * Provider) :=
  if bool_decide (length l < 2) then inr l
  else if forallb (fun x => forallb (fun y => comparable x.1 y.1) l) l
  then inr (foldr insert_by_key [] l)
  else inl (mkExn TypeError "'<' not supported between instances").

(** The keys of the entries can all be compared with each other. *)
Definition ordered (l : list (PyVal * Provider)) : Prop :=
  ∀ x y, x ∈ l → y ∈ l → comparable x.1 y.1 = true.

Fixpoint initialize_loop (cfgs : gmap string (gmap string PyVal))
    (classes : list (string * ProviderClass))
    (provider_configs : list (PyVal * Provider))
  : M (list (PyVal * Provider)) :=
  match classes with
  | [] => ret provider_configs
  | (name, provider_class) :: rest =>
      let config := default ∅ (cfgs !! name) in
      if negb (truthy (dict_get config "enabled" (PBool false))) then
        print ("[ROUTER] " +:+ name +:+ " 提供商未启用");;
        initialize_loop cfgs rest provider_configs
      else
        match construct provider_class config with
        | inr provider =>
            print ("[ROUTER] " +:+ name +:+ " 提供商初始化成功");;
            initialize_loop cfgs rest
              (provider_configs ++
                 [(dict_get config "priority" (PInt 999), provider)])
        | inl e =>
            print ("[ROUTER] " +:+ name +:+ " 提供商初始化失败: " +:+ exn_msg e);;
            initialize_loop cfgs rest provider_configs
        end
  end.

Definition _initialize_providers : M unit :=
  self <~ get_self;
  provider_configs <~ initialize_loop (router_config self) provider_classes [];
  match sort_by_priority provider_configs with
  | inl e => raise e
  | inr sorted => set_providers (map snd sorted)
  end.

(** *** _select_provider *)

(** The body of the loop for one [provider]. *)
Definition select_step (provider : Provider) : M (option unit) :=
  try_except
    (available <~ call_is_available provider;
     if available then
       set_current_provider (Some provider);;
       print ("[ROUTER] 选择提供商: " +:+ get_provider_name provider);;
       ret (Some tt)
     else
       print ("[ROUTER] " +:+ get_provider_name provider +:+ " 不可用");;
       ret None)
    (fun e =>
       print ("[ROUTER] 检查 " +:+ get_provider_name provider
                +:+ " 可用性失败: " +:+ exn_msg e);;
       ret None).

Definition _select_provider : M unit :=
  self <~ get_self;
  r <~ for_each (providers self) select_step;
  match r with
  | Some _ => ret tt
  | None =>
      self <~ get_self;
      match current_provider self with
      | None => print "[ROUTER] ⚠️  没有可用的LLM提供商，将使用fallback模式"
      | Some _ => ret tt
      end
  end.

(** [LLMRouter(config)], for the effective [self.config['providers']]. *)
Definition LLMRouter_init (cfg : gmap string (gmap string PyVal)) (w : W)
  : Outcome unit :=
  (_initialize_providers ;; _select_provider) (mkRouter cfg [] None) w.

(** *** chat_completion *)

Definition is_current (self : LLMRouter) (provider : Provider) : bool :=
  match current_provider self with
  | Some c => provider_eqb provider c
  | None => false
  end.

(** The body of the failover loop for one [provider]. *)
Definition failover_step (messages : list LLMMessage)
    (kwargs : gmap string PyVal) (provider : Provider)
  : M (option LLMResponse) :=
  self <~ get_self;
  if is_current self provider then ret None
  else
    try_except
      (available <~ call_is_available provider;
       if available then
         print ("[ROUTER] 故障转移到: " +:+ get_provider_name provider);;
         result <~ call_chat_completion provider messages kwargs;
         set_current_provider (Some provider);;
         ret (Some result)
       else ret None)
      (fun fallback_error =>
         print ("[ROUTER] 故障转移失败 " +:+ get_provider_name provider
                  +:+ ": " +:+ exn_msg fallback_error);;
         ret None).

Definition chat_completion (messages : list LLMMessage)
    (kwargs : gmap string PyVal) : M LLMResponse :=
  self <~ get_self;
  match current_provider self with
  | None => raise (mkExn Exception "没有可用的LLM提供商")
  | Some current =>
      try_except
        (call_chat_completion current messages kwargs)
        (fun e =>
           print ("[ROUTER] " +:+ get_provider_name current
                    +:+ " 调用失败: " +:+ exn_msg e);;
           self <~ get_self;
           r <~ for_each (providers self) (failover_step messages kwargs);
           match r with
           | Some result => ret result
           | None =>
               raise (mkExn Exception
                        ("所有LLM提供商都不可用，最后错误: " +:+ exn_msg e))
           end)
  end.

(** *** get_current_provider_info *)

Definition get_current_provider_info : M (gmap string PyVal) :=
  self <~ get_self;
  match current_provider self with
  | None =>
      ret (<["name" := PStr "None"]> (<["available" := PBool false]> ∅))
  | Some current =>
      ret (<["name" := PStr (get_provider_name current)]>
            (<["model" := model current]>
              (<["available" := PBool true]> ∅)))
  end.

End Router.

Arguments mkOutcome {W A}.
Arguments result {W A}.
Arguments self_after {W A}.
Arguments world_after {W A}.
Arguments emitted {W A}.

(** *** Reading a log of events *)

(** The providers probed, in order, each with the answer of its probe. *)
Definition probes (es : list Event) : list (Provider * (Exn + bool)) :=
  omap (fun ev => match ev with EvProbe p r => Some (p, r) | _ => None end) es.

(** The providers a completion was attempted on, in order, each with the
    response or the error it gave. *)
Definition attempts (es : list Event) : list (Provider * (Exn + LLMResponse)) :=
  omap (fun ev => match ev with EvCall p _ _ r => Some (p, r) | _ => None end) es.

(** The lines printed, in order. *)
Definition printed (es : list Event) : list string :=
  omap (fun ev => match ev with EvPrint line => Some line | _ => None end) es.

(** The errors raised by provider calls (probes and completions), in the
    order in which they were raised. *)
Definition underlying_errors (es : list Event) : list Exn :=
  omap (fun ev => match ev with
                  | EvProbe _ (inl e) => Some e
                  | EvCall _ _ _ (inl e) => Some e
                  | _ => None
                  end) es.

Arguments probes : simpl never.
Arguments attempts : simpl never.
Arguments printed : simpl never.
Arguments underlying_errors : simpl never.

Definition answered_true (pr : Provider * (Exn + bool)) : bool :=
  match pr.2 with
  | inr true => true
  | _ => false
  end.

Definition unavailable (pr : Provider * (Exn + bool)) : Prop :=
  answered_true pr = false.

Definition failed {A} (a : Provider * (Exn + A)) : Prop :=
  ∃ e, a.2 = inl e.

(** The providers left for failover when [current] has failed, in the
    order of the list. *)
Definition remaining (current : Provider) (l : list Provider) : list Provider :=
  filter (λ p, cls p ≠ cls current) l.

Arguments remaining : simpl never.

(** [config.get('priority', 999)] for the configuration that the provider
    [p] is built from, and the order of the sort on it: [p] may come
    before [q] when the priority of [q] is not less than that of [p]. *)
Definition configured_priority (cfgs : gmap string (gmap string PyVal))
    (p : Provider) : PyVal :=
  dict_get (default ∅ (cfgs !! class_key (cls p))) "priority" (PInt 999).

Definition priority_le (cfgs : gmap string (gmap string PyVal))
    (p q : Provider) : Prop :=
  py_lt (configured_priority cfgs q) (configured_priority cfgs p) = inr false.

(** *** The runs of the two loops

    [select_run] and [failover_run] describe, provider by provider, what
    the loop of [_select_provider] and the failover loop of
    [chat_completion] do against the world: the events they emit, where
    they stop and the world they leave. *)

Section Runs.

Context {W : Type} `{!Backend W}.

Inductive select_run : list Provider -> W -> list Event -> option Provider -> W -> Prop :=
| select_none w :
    select_run [] w [] None w
| select_found p l w w1 :
    is_available p w = (inr true, w1) ->
    select_run (p :: l) w
      [EvProbe p (inr true);
       EvPrint ("[ROUTER] 选择提供商: " +:+ get_provider_name p)]
      (Some p) w1
| select_unavailable p l w w1 evs found w' :
    is_available p w = (inr false, w1) ->
    select_run l w1 evs found w' ->
    select_run (p :: l) w
      (EvProbe p (inr false)
       :: EvPrint ("[ROUTER] " +:+ get_provider_name p +:+ " 不可用") :: evs)
      found w'
| select_probe_raises p l w e w1 evs found w' :
    is_available p w = (inl e, w1) ->
    select_run l w1 evs found w' ->
    select_run (p :: l) w
      (EvProbe p (inl e)
       :: EvPrint ("[ROUTER] 检查 " +:+ get_provider_name p
                     +:+ " 可用性失败: " +:+ exn_msg e) :: evs)
      found w'.

Inductive failover_run (current : Provider) (messages : list LLMMessage)
    (kwargs : gmap string PyVal)
  : list Provider -> W -> list Event -> option (Provider * LLMResponse) -> W -> Prop :=
| failover_exhausted w :
    failover_run current messages kwargs [] w [] None w
| failover_skip p l w evs res w' :
    provider_eqb p current = true ->
    failover_run current messages kwargs l w evs res w' ->
    failover_run current messages kwargs (p :: l) w evs res w'
| failover_probe_raises p l w e w1 evs res w' :
    provider_eqb p current = false ->
    is_available p w = (inl e, w1) ->
    failover_run current messages kwargs l w1 evs res w' ->
    failover_run current messages kwargs (p :: l) w
      (EvProbe p (inl e)
       :: EvPrint ("[ROUTER] 故障转移失败 " +:+ get_provider_name p
                     +:+ ": " +:+ exn_msg e) :: evs)
      res w'
| failover_unavailable p l w w1 evs res w' :
    provider_eqb p current = false ->
    is_available p w = (inr false, w1) ->
    failover_run current messages kwargs l w1 evs res w' ->
    failover_run current messages kwargs (p :: l) w
      (EvProbe p (inr false) :: evs) res w'
| failover_call_raises p l w w1 e w2 evs res w' :
    provider_eqb p current = false ->
    is_available p w = (inr true, w1) ->
    provider_chat_completion p messages kwargs w1 = (inl e, w2) ->
    failover_run current messages kwargs l w2 evs res w' ->
    failover_run current messages kwargs (p :: l) w
      (EvProbe p (inr true)
       :: EvPrint ("[ROUTER] 故障转移到: " +:+ get_provider_name p)
       :: EvCall p messages kwargs (inl e)
       :: EvPrint ("[ROUTER] 故障转移失败 " +:+ get_provider_name p
                     +:+ ": " +:+ exn_msg e) :: evs)
      res w'
| failover_success p l w w1 response w2 :
    provider_eqb p current = false ->
    is_available p w = (inr true, w1) ->
    provider_chat_completion p messages kwargs w1 = (inr response, w2) ->
    failover_run current messages kwargs (p :: l) w
      [EvProbe p (inr true);
       EvPrint ("[ROUTER] 故障转移到: " +:+ get_provider_name p);
       EvCall p messages kwargs (inr response)]
      (Some (p, response)) w2.

End Runs.

(** *** What the loops of the router amount to *)

Section Summaries.

Context {W : Type} `{!Backend W}.

(** The entry that the loop of [_initialize_providers] appends for one
    class of the table, if any. *)
Definition initialized_entry (cfgs : gmap string (gmap string PyVal))
    (entry : string * ProviderClass) : option (PyVal * Provider) :=
  let config := default ∅ (cfgs !! entry.1) in
  if truthy (dict_get config "enabled" (PBool false)) then
    match construct entry.2 config with
    | inr provider => Some (dict_get config "priority" (PInt 999), provider)
    | inl _ => None
    end
  else None.

(** The line that the loop of [_initialize_providers] prints for one class
    of the table. *)
Definition initialized_line (cfgs : gmap string (gmap string PyVal))
    (entry : string * ProviderClass) : Event :=
  let config := default ∅ (cfgs !! entry.1) in
  if truthy (dict_get config "enabled" (PBool false)) then
    match construct entry.2 config with
    | inr _ => EvPrint ("[ROUTER] " +:+ entry.1 +:+ " 提供商初始化成功")
    | inl e => EvPrint ("[ROUTER] " +:+ entry.1 +:+ " 提供商初始化失败: " +:+ exn_msg e)
    end
  else EvPrint ("[ROUTER] " +:+ entry.1 +:+ " 提供商未启用").

(** The lines that [chat_completion] prints about one provider call, when
    [current] is the provider selected at the start of the call. *)
Definition log_lines (current : Provider) (ev : Event) : list string :=
  match ev with
  | EvCall p _ _ (inl e) =>
      if provider_eqb p current
      then ["[ROUTER] " +:+ get_provider_name p +:+ " 调用失败: " +:+ exn_msg e]
      else ["[ROUTER] 故障转移失败 " +:+ get_provider_name p +:+ ": " +:+ exn_msg e]
  | EvProbe p (inl e) =>
      ["[ROUTER] 故障转移失败 " +:+ get_provider_name p +:+ ": " +:+ exn_msg e]
  | EvProbe p (inr true) =>
      ["[ROUTER] 故障转移到: " +:+ get_provider_name p]
  | _ => []
  end.

End Summaries.

(** ** The provider classes: probes and requests *)

Inductive HttpMethod := GET | POST.

(** An f-string: its literal text and the values it interpolates. *)
Inductive FPart := FLit (s : string) | FVal (v : PyVal).

(** The arguments of [requests.get] and [requests.post]. *)
Record Request := mkRequest {
  req_method : HttpMethod;
  req_url : list FPart;
  req_headers : list (string * list FPart);
  req_json : option PyVal;
  req_timeout : PyVal
}.

(** What a request comes to: an exception of [requests], or a response
    with its status code and body. *)
Inductive HttpOutcome :=
| HttpRaised (e : Exn)
| HttpResponse (status_code : Z) (text : string).

Class Requests (W : Type) := {
  requests_send : Request -> W -> HttpOutcome * W
}.

(** The body of the probe of the chat-style backends. *)
Definition test_data (self : Provider) : PyVal :=
  PDict (<["model" := model self]>
          (<["messages" :=
               PList [PDict (<["role" := PStr "user"]>
                              (<["content" := PStr "test"]> ∅))]]>
             (<["max_tokens" := PInt 1]> ∅))).

Definition bearer_headers (self : Provider) : list (string * list FPart) :=
  [ ("Authorization", [FLit "Bearer "; FVal (api_key self)]);
    ("Content-Type", [FLit "application/json"]) ].

Definition claude_headers (self : Provider) : list (string * list FPart) :=
  [ ("x-api-key", [FVal (api_key self)]);
    ("Content-Type", [FLit "application/json"]);
    ("anthropic-version", [FLit "2023-06-01"]) ].

(** The requests of the probes. *)
Definition chat_probe_request (self : Provider) (seconds : Z) : Request :=
  mkRequest POST [FVal (base_url self); FLit "/chat/completions"]
    (bearer_headers self) (Some (test_data self)) (PInt seconds).

Definition claude_probe_request (self : Provider) : Request :=
  mkRequest POST [FVal (base_url self); FLit "/v1/messages"]
    (claude_headers self) (Some (test_data self)) (PInt 10).

Definition gemini_probe_request (self : Provider) : Request :=
  mkRequest POST
    [FVal (base_url self); FLit "/v1beta/models/"; FVal (model self);
     FLit ":generateContent?key="; FVal (api_key self)]
    []
    (Some (PDict
       (<["contents" :=
            PList [PDict (<["role" := PStr "user"]>
                     (<["parts" :=
                          PList [PDict (<["text" := PStr "test"]> ∅)]]> ∅))]]>
          (<["generationConfig" :=
               PDict (<["maxOutputTokens" := PInt 1]> ∅)]> ∅))))
    (PInt 10).

Definition ollama_probe_request (self : Provider) : Request :=
  mkRequest GET [FVal (base_url self); FLit "/api/tags"] [] None (PInt 5).

(** The request that the probe of [p] sends, for the six classes at hand. *)
Definition probe_request (p : Provider) : Request :=
  match cls p with
  | SiliconFlowProvider | DeepSeekProvider | OpenAIProvider =>
      chat_probe_request p 10
  | DashScopeProvider => chat_probe_request p 5
  | ClaudeProvider => claude_probe_request p
  | GeminiProvider => gemini_probe_request p
  | OllamaProvider => ollama_probe_request p
  end.

Section Probes.

Context {W : Type} `{!Requests W}.

(** [try: response = <request>; return ok(response.status_code)
     except: return False]. *)
Definition probe_with (req : Request) (ok : Z -> bool) (w : W) : bool * W :=
  match requests_send req w with
  | (HttpResponse status_code _, w') => (ok status_code, w')
  | (HttpRaised _, w') => (false, w')
  end.

(** [response.status_code in [200, 400]]. *)
Definition in_200_400 (status_code : Z) : bool :=
  bool_decide (status_code ∈ [200; 400]%Z).

Definition ClaudeProvider_is_available (self : Provider) : W -> bool * W :=
  probe_with (claude_probe_request self) in_200_400.

Definition SiliconFlowProvider_is_available (self : Provider) : W -> bool * W :=
  probe_with (chat_probe_request self 10) in_200_400.

Definition DeepSeekProvider_is_available (self : Provider) : W -> bool * W :=
  probe_with (chat_probe_request self 10) in_200_400.

Definition GeminiProvider_is_available (self : Provider) : W -> bool * W :=
  probe_with (gemini_probe_request self) in_200_400.

Definition DashScopeProvider_is_available (self : Provider) : W -> bool * W :=
  probe_with (chat_probe_request self 5)
    (fun status_code => (status_code =? 200)%Z).

Definition OllamaProvider_is_available (self : Provider) : W -> bool * W :=
  probe_with (ollama_probe_request self)
    (fun status_code => (status_code =? 200)%Z).

(** [provider.is_available()] by the class of the provider, for the six
    classes at hand; a provider of the seventh class is handed to
    [otherwise]. *)
Definition provider_is_available
    (otherwise : Provider -> W -> (Exn + bool) * W) (p : Provider) (w : W)
  : (Exn + bool) * W :=
  let returns (r : bool * W) : (Exn + bool) * W := (inr r.1, r.2) in
  match cls p with
  | SiliconFlowProvider => returns (SiliconFlowProvider_is_available p w)
  | DeepSeekProvider => returns (DeepSeekProvider_is_available p w)
  | ClaudeProvider => returns (ClaudeProvider_is_available p w)
  | GeminiProvider => returns (GeminiProvider_is_available p w)
  | OllamaProvider => returns (OllamaProvider_is_available p w)
  | DashScopeProvider => returns (DashScopeProvider_is_available p w)
  | OpenAIProvider => otherwise p w
  end.

End Probes.

(** *** ClaudeProvider.chat_completion_sync: the request *)

(** The line feed of ["\n"]. *)
Definition newline : string := String (Ascii.ascii_of_nat 10) "".

Definition utf8 (bytes : list nat) : string :=
  foldr (fun n s => String (Ascii.ascii_of_nat n) s) "" bytes.

(** The characters that [str.strip()] removes, those for which
    [str.isspace()] holds, in their UTF-8 encoding: U+0009..U+000D,
    U+001C..U+0020, U+0085, U+00A0, U+1680, U+2000..U+200A, U+2028,
    U+2029, U+202F, U+205F, U+3000. *)
Definition whitespace : list string :=
  map utf8
    [ [9]; [10]; [11]; [12]; [13]; [28]; [29]; [30]; [31]; [32];
      [194; 133]; [194; 160]; [225; 154; 128];
      [226; 128; 128]; [226; 128; 129]; [226; 128; 130]; [226; 128; 131];
      [226; 128; 132]; [226; 128; 133]; [226; 128; 134]; [226; 128; 135];
      [226; 128; 136]; [226; 128; 137]; [226; 128; 138];
      [226; 128; 168]; [226; 128; 169]; [226; 128; 175];
      [226; 129; 159]; [227; 128; 128] ].

(** [s] without the prefix [p], when it starts with it. *)
Fixpoint without_prefix (p s : string) : option string :=
  match p, s with
  | "", _ => Some s
  | String a p', String b s' =>
      if Ascii.eqb a b then without_prefix p' s' else None
  | String _ _, "" => None
  end.

(** [s] without one leading character out of [spaces], if it has one. *)
Definition drop_one (spaces : list string) (s : string) : option string :=
  list_find is_Some ((fun sp => without_prefix sp s) <$> spaces)
    ≫= fun found => found.2.

Fixpoint lstrip_upto (n : nat) (spaces : list string) (s : string) : string :=
  match n with
  | O => s
  | S n' =>
      match drop_one spaces s with
      | Some s' => lstrip_upto n' spaces s'
      | None => s
      end
  end.

Definition lstrip (s : string) : string :=
  lstrip_upto (String.length s) whitespace s.

(** The trailing characters are removed on the reversed bytes. *)
Definition rstrip (s : string) : string :=
  String.rev
    (lstrip_upto (String.length s) (String.rev <$> whitespace) (String.rev s)).

(** [s.strip()]. *)
Definition strip (s : string) : string := rstrip (lstrip s).

(** The loop of [chat_completion_sync] over the messages: the messages
    with role "system" go to [system_message], each followed by a line
    feed; the others are appended to [api_messages]. *)
Fixpoint claude_split (messages : list LLMMessage) (api_messages : list PyVal)
    (system_message : string) : list PyVal * string :=
  match messages with
  | [] => (api_messages, system_message)
  | msg :: rest =>
      if bool_decide (role msg = "system") then
        claude_split rest api_messages (system_message +:+ content msg +:+ newline)
      else
        claude_split rest
          (api_messages ++
             [PDict (<["role" := PStr (role msg)]>
                      (<["content" := PStr (content msg)]> ∅))])
          system_message
  end.

(** The [data] that [ClaudeProvider.chat_completion_sync] posts. *)
Definition ClaudeProvider_data (self : Provider) (messages : list LLMMessage)
    (kwargs : gmap string PyVal) : gmap string PyVal :=
  let '(api_messages, system_message) := claude_split messages [] "" in
  let data :=
    <["model" := model self]>
      (<["messages" := PList api_messages]>
         (<["max_tokens" := dict_get kwargs "max_tokens" (max_tokens self)]>
            (<["temperature" := dict_get kwargs "temperature" (temperature self)]>
               ∅))) in
  if truthy (PStr (strip system_message))
  then <["system" := PStr (strip system_message)]> data
  else data.

(** The request of [ClaudeProvider.chat_completion_sync]. *)
Definition ClaudeProvider_request (self : Provider) (messages : list LLMMessage)
    (kwargs : gmap string PyVal) : Request :=
  mkRequest POST [FVal (base_url self); FLit "/v1/messages"]
    (claude_headers self)
    (Some (PDict (ClaudeProvider_data self messages kwargs)))
    (timeout self).

(** ** llm_with_plugins.py: tool calls *)

(** [json.loads] and [json.dumps], taken as given: [json_loads s] is
    [None] when [json.loads(s)] raises, as it does on malformed JSON. *)
Class Json := {
  json_loads : string -> option PyVal;
  json_dumps : PyVal -> string
}.

(** The plugin manager and the formatting of its results, which live
    outside the code modelled here. *)
Class Plugins (W : Type) := {
  execute_plugin : PyVal -> gmap string PyVal -> W -> (Exn + PyVal) * W;
  _format_plugin_result : PyVal -> PyVal -> Exn + string
}.

(** Sequencing of operations that may raise. *)
Definition and_then {A B} (m : Exn + A) (k : A -> Exn + B) : Exn + B :=
  match m with
  | inl e => inl e
  | inr a => k a
  end.

Notation "'let*' x := m 'in' k" := (and_then m (fun x => k))
  (at level 10, x name, m at level 100, k at level 200, only parsing).

(** [k in d] on a dict. *)
Definition dict_has (d : gmap string PyVal) (k : string) : bool :=
  bool_decide (is_Some (d !! k)).

(** [v.get(k, default)]: of the values of JSON only a dict has [get]. *)
Definition py_get (v : PyVal) (k : string) (default : PyVal) : Exn + PyVal :=
  match v with
  | PDict d => inr (dict_get d k default)
  | _ => inl (mkExn AttributeError
                ("'" +:+ type_name v +:+ "' object has no attribute 'get'"))
  end.

(** The first character of a string, in its UTF-8 encoding: the first
    byte and the continuation bytes that follow it. *)
Fixpoint continuation_bytes (s : string) : string :=
  match s with
  | String c r =>
      if ((128 <=? Ascii.nat_of_ascii c) && (Ascii.nat_of_ascii c <? 192))%nat
      then String c (continuation_bytes r) else ""
  | "" => ""
  end.

(** [v[0]]. *)
Definition py_first (v : PyVal) : Exn + PyVal :=
  match v with
  | PList (x :: _) => inr x
  | PList [] => inl (mkExn IndexError "list index out of range")
  | PStr (String c r) => inr (PStr (String c (continuation_bytes r)))
  | PStr "" => inl (mkExn IndexError "string index out of range")
  | PDict _ => inl (mkExn KeyError "0")
  | _ => inl (mkExn TypeError
                ("'" +:+ type_name v +:+ "' object is not subscriptable"))
  end.

(** [k in v] for a string [k]. *)
Definition py_contains (k : string) (v : PyVal) : Exn + bool :=
  match v with
  | PDict d => inr (dict_has d k)
  | PList l =>
      inr (existsb (fun x => match x with
                             | PStr s => bool_decide (s = k)
                             | _ => false
                             end) l)
  | PStr s => inr (bool_decide (is_Some (String.index 0 k s)))
  | _ => inl (mkExn TypeError
                ("argument of type '" +:+ type_name v +:+ "' is not iterable"))
  end.

(** [v[k] = x] for a string [k]: the value after the assignment. *)
Definition py_setitem (v : PyVal) (k : string) (x : PyVal) : Exn + PyVal :=
  match v with
  | PDict d => inr (PDict (<[k := x]> d))
  | PList _ =>
      inl (mkExn TypeError "list indices must be integers or slices, not str")
  | _ => inl (mkExn TypeError
                ("'" +:+ type_name v +:+ "' object does not support item assignment"))
  end.

(** [v == k] for a string [k]. *)
Definition py_is_str (v : PyVal) (k : string) : bool :=
  match v with
  | PStr s => bool_decide (s = k)
  | _ => false
  end.

(** What the inspection of the assistant message finds. *)
Record ToolCall := mkToolCall {
  function_call : PyVal;
  func_name : PyVal;
  func_args : PyVal
}.

Section ToolCalls.

Context `{!Json}.

(** [try: func_args = json.loads(s) if isinstance(s, str) else s
     except: func_args = {}]. *)
Definition load_arguments (func_args_str : PyVal) : PyVal :=
  match func_args_str with
  | PStr s =>
      match json_loads s with
      | Some v => v
      | None => PDict ∅
      end
  | v => v
  end.

(** Lines 467-494 of [_generate_response_with_plugins]: the tool call of
    the assistant message, in the format [tool_calls] or in the format
    [function_call]; the three variables stay [None] when there is none. *)
Definition detect_tool_call (assistant_message : gmap string PyVal)
  : Exn + ToolCall :=
  if dict_has assistant_message "tool_calls"
     && truthy (dict_get assistant_message "tool_calls" PNone)
  then
    let* tool_call := py_first (dict_get assistant_message "tool_calls" PNone) in
    let* function_call := py_get tool_call "function" (PDict ∅) in
    let* func_name := py_get function_call "name" PNone in
    let* func_args_str := py_get function_call "arguments" (PStr "{}") in
    inr (mkToolCall function_call func_name (load_arguments func_args_str))
  else if dict_has assistant_message "function_call" then
    let function_call := dict_get assistant_message "function_call" PNone in
    let* func_name := py_get function_call "name" PNone in
    let* func_args_str := py_get function_call "arguments" (PStr "{}") in
    inr (mkToolCall function_call func_name (load_arguments func_args_str))
  else inr (mkToolCall PNone PNone PNone).

(** Lines 497-515: arguments that the model left out are taken from the
    input of the user. *)
Definition assist_arguments (func_name func_args : PyVal)
    (weather_location : option string)
    (holiday_info : option (gmap string PyVal)) : Exn + PyVal :=
  let* func_args :=
    if py_is_str func_name "get_weather" then
      let* has_location := py_contains "location" func_args in
      if negb has_location then
        let location := default PNone (PStr <$> weather_location) in
        if truthy location && negb (py_is_str location "当前城市") then
          py_setitem func_args "location" location
        else if py_is_str location "当前城市" || negb (truthy location) then
          py_setitem func_args "location" (PStr "深圳")
        else inr func_args
      else inr func_args
    else inr func_args in
  if py_is_str func_name "get_holiday_info" then
    match holiday_info with
    | Some info =>
        if truthy (PDict info) then
          let* date_missing :=
            if truthy (dict_get info "date" PNone)
            then (let* has := py_contains "date" func_args in inr (negb has))
            else inr false in
          if date_missing then
            py_setitem func_args "date" (dict_get info "date" PNone)
          else
            let* year_missing :=
              if truthy (dict_get info "year" PNone)
              then (let* has := py_contains "year" func_args in inr (negb has))
              else inr false in
            if year_missing then
              py_setitem func_args "year" (dict_get info "year" PNone)
            else inr func_args
        else inr func_args
    | None => inr func_args
    end
  else inr func_args.

(** Lines 534-551: the assistant message and the result of the tool are
    appended to [messages], the result in the format of the call. *)
Definition append_tool_result (messages : list PyVal)
    (assistant_message : gmap string PyVal) (func_name plugin_result : PyVal)
  : Exn + list PyVal :=
  let messages := messages ++ [PDict assistant_message] in
  if dict_has assistant_message "tool_calls" then
    let* tool_call := py_first (dict_get assistant_message "tool_calls" PNone) in
    let* id := py_get tool_call "id" PNone in
    inr (messages ++
           [PDict (<["role" := PStr "tool"]>
                    (<["tool_call_id" := id]>
                       (<["name" := func_name]>
                          (<["content" := PStr (json_dumps plugin_result)]> ∅))))])
  else
    inr (messages ++
           [PDict (<["role" := PStr "function"]>
                    (<["name" := func_name]>
                       (<["content" := PStr (json_dumps plugin_result)]> ∅)))]).

End ToolCalls.

(** What the handling of a tool call leaves for the second request. *)
Record ToolTurn := mkToolTurn {
  turn_messages : list PyVal;
  plugin_used : PyVal;
  plugin_result : PyVal;
  plugin_result_text : string
}.

Section ToolTurns.

Context {W : Type} `{!Json} `{!Plugins W}.

(** When the [arguments] of the call are not a string, [func_args] is the
    very object held by the assistant message, and the item assignments
    of [assist_arguments] show in the message too: this is the assistant
    message once [func_args] has become [args]. *)
Definition with_arguments (assistant_message : gmap string PyVal)
    (args : PyVal) : gmap string PyVal :=
  let store (fn : gmap string PyVal) : option (gmap string PyVal) :=
    match fn !! "arguments" with
    | Some (PStr _) | None => None
    | Some _ => Some (<["arguments" := args]> fn)
    end in
  if dict_has assistant_message "tool_calls"
     && truthy (dict_get assistant_message "tool_calls" PNone)
  then
    match assistant_message !! "tool_calls" with
    | Some (PList (PDict tool_call :: others)) =>
        match tool_call !! "function" with
        | Some (PDict fn) =>
            match store fn with
            | Some fn' =>
                <["tool_calls" :=
                    PList (PDict (<["function" := PDict fn']> tool_call)
                           :: others)]> assistant_message
            | None => assistant_message
            end
        | _ => assistant_message
        end
    | _ => assistant_message
    end
  else
    match assistant_message !! "function_call" with
    | Some (PDict fn) =>
        match store fn with
        | Some fn' => <["function_call" := PDict fn']> assistant_message
        | None => assistant_message
        end
    | _ => assistant_message
    end.

(** Lines 467-551 in sequence: the call is detected, its arguments are
    completed, the plugin is executed ([**func_args] asks for a dict), its
    result is formatted and the two messages are appended.  [None] is the
    case where the model has called no tool.  An exception leaves the
    function through its outer [except], which answers with the fallback
    response. *)
Definition tool_call_turn (messages : list PyVal)
    (assistant_message : gmap string PyVal) (weather_location : option string)
    (holiday_info : option (gmap string PyVal)) (w : W)
  : (Exn + option ToolTurn) * W :=
  match detect_tool_call assistant_message with
  | inl e => (inl e, w)
  | inr call =>
      if truthy (func_name call) then
        match assist_arguments (func_name call) (func_args call)
                weather_location holiday_info with
        | inl e => (inl e, w)
        | inr (PDict kwargs) =>
            match execute_plugin (func_name call) kwargs w with
            | (inl e, w') => (inl e, w')
            | (inr plugin_result, w') =>
                match _format_plugin_result (func_name call) plugin_result with
                | inl e => (inl e, w')
                | inr text =>
                    match append_tool_result messages
                            (with_arguments assistant_message (PDict kwargs))
                            (func_name call) plugin_result with
                    | inl e => (inl e, w')
                    | inr messages' =>
                        (inr (Some (mkToolTurn messages' (func_name call)
                                      plugin_result text)), w')
                    end
                end
            end
        | inr _ =>
            (inl (mkExn TypeError "argument after ** must be a mapping"), w)
        end
      else (inr None, w)
  end.

End ToolTurns.

(** ** A reader of JSON for the examples

    The examples below need some [json.loads]: this one reads the JSON
    texts made of objects, arrays, strings without escapes, integers,
    [true], [false] and [null], and rejects everything else. *)

Definition double_quote : Ascii.ascii := Ascii.ascii_of_nat 34.
Definition backslash : Ascii.ascii := Ascii.ascii_of_nat 92.

Definition is_json_space (c : Ascii.ascii) : bool :=
  bool_decide (Ascii.nat_of_ascii c ∈ [32; 9; 10; 13]).

Fixpoint skip_spaces (s : string) : string :=
  match s with
  | String c r => if is_json_space c then skip_spaces r else s
  | "" => ""
  end.

(** The characters of a string up to its closing quote. *)
Fixpoint read_string (s : string) : option (string * string) :=
  match s with
  | "" => None
  | String c r =>
      if Ascii.eqb c double_quote then Some ("", r)
      else if Ascii.eqb c backslash then None
      else match read_string r with
           | Some (body, rest) => Some (String c body, rest)
           | None => None
           end
  end.

Definition digit_of (c : Ascii.ascii) : option Z :=
  let n := Ascii.nat_of_ascii c in
  if ((48 <=? n) && (n <=? 57))%nat then Some (Z.of_nat n - 48)%Z else None.

Fixpoint read_digits (acc : Z) (s : string) : Z * string :=
  match s with
  | String c r =>
      match digit_of c with
      | Some d => read_digits (10 * acc + d)%Z r
      | None => (acc, s)
      end
  | "" => (acc, "")
  end.

Definition read_int (s : string) : option (Z * string) :=
  match s with
  | String c r =>
      if Ascii.eqb c "-"%char then
        match r with
        | String d _ =>
            match digit_of d with
            | Some _ => let '(n, rest) := read_digits 0 r in Some ((- n)%Z, rest)
            | None => None
            end
        | "" => None
        end
      else match digit_of c with
           | Some _ => Some (read_digits 0 s)
           | None => None
           end
  | "" => None
  end.

(** The items that follow the first one, up to the closing bracket. *)
Fixpoint read_more {A} (fuel : nat) (item : string -> option (A * string))
    (close : Ascii.ascii) (acc : list A) (s : string) : option (list A * string) :=
  match fuel with
  | O => None
  | S fuel' =>
      match skip_spaces s with
      | String c r =>
          if Ascii.eqb c close then Some (acc, r)
          else if Ascii.eqb c ","%char then
            match item r with
            | Some (x, rest) => read_more fuel' item close (acc ++ [x]) rest
            | None => None
            end
          else None
      | "" => None
      end
  end.

Definition read_member (value : string -> option (PyVal * string)) (s : string)
  : option ((string * PyVal) * string) :=
  match skip_spaces s with
  | String c r =>
      if Ascii.eqb c double_quote then
        match read_string r with
        | Some (key, rest) =>
            match skip_spaces rest with
            | String colon rest' =>
                if Ascii.eqb colon ":"%char then
                  match value rest' with
                  | Some (v, rest'') => Some ((key, v), rest'')
                  | None => None
                  end
                else None
            | "" => None
            end
        | None => None
        end
      else None
  | "" => None
  end.

Fixpoint read_value (fuel : nat) (s : string) : option (PyVal * string) :=
  match fuel with
  | O => None
  | S fuel' =>
      match skip_spaces s with
      | "" => None
      | String c r as s' =>
          if Ascii.eqb c double_quote then
            match read_string r with
            | Some (body, rest) => Some (PStr body, rest)
            | None => None
            end
          else if Ascii.eqb c "["%char then
            match skip_spaces r with
            | String c' r' =>
                if Ascii.eqb c' "]"%char then Some (PList [], r')
                else
                  match read_value fuel' r with
                  | Some (x, rest) =>
                      match read_more fuel' (read_value fuel') "]"%char [x] rest with
                      | Some (items, rest') => Some (PList items, rest')
                      | None => None
                      end
                  | None => None
                  end
            | "" => None
            end
          else if Ascii.eqb c "{"%char then
            match skip_spaces r with
            | String c' r' =>
                if Ascii.eqb c' "}"%char then Some (PDict ∅, r')
                else
                  match read_member (read_value fuel') r with
                  | Some (m, rest) =>
                      match read_more fuel' (read_member (read_value fuel'))
                              "}"%char [m] rest with
                      | Some (members, rest') =>
                          Some (PDict (foldl (fun d m => <[m.1 := m.2]> d) ∅ members),
                                rest')
                      | None => None
                      end
                  | None => None
                  end
            | "" => None
            end
          else
            match without_prefix "true" s', without_prefix "false" s',
                  without_prefix "null" s' with
            | Some rest, _, _ => Some (PBool true, rest)
            | _, Some rest, _ => Some (PBool false, rest)
            | _, _, Some rest => Some (PNone, rest)
            | None, None, None =>
                match read_int s' with
                | Some (n, rest) => Some (PInt n, rest)
                | None => None
                end
            end
      end
  end.

Definition read_json (s : string) : option PyVal :=
  match read_value (S (String.length s)) s with
  | Some (v, rest) => if bool_decide (skip_spaces rest = "") then Some v else None
  | None => None
  end.

(** A printer of JSON for the examples; the members of an object come in
    the order of the keys of the map. *)
Fixpoint write_json (fuel : nat) (v : PyVal) : string :=
  match fuel with
  | O => ""
  | S fuel' =>
      match v with
      | PNone => "null"
      | PBool true => "true"
      | PBool false => "false"
      | PInt z => pretty z
      | PFloat q => pretty (Qnum q) +:+ "/" +:+ pretty (Z.pos (Qden q))
      | PStr s => String double_quote (s +:+ String double_quote "")
      | PList l => "[" +:+ String.concat ", " (write_json fuel' <$> l) +:+ "]"
      | PDict d =>
          "{" +:+ String.concat ", "
                    ((fun kv => String double_quote
                                  (kv.1 +:+ String double_quote ": ")
                                +:+ write_json fuel' kv.2)
                       <$> map_to_list d) +:+ "}"
      end
  end.

(** ** A world for the examples

    A world that does not change: it answers every request, every
    completion and every plugin in a fixed way. *)
Record Scenario := mkScenario {
  http : Request -> HttpOutcome;
  completion : ProviderClass -> Exn + LLMResponse;
  plugin : PyVal -> gmap string PyVal -> Exn + PyVal
}.

Global Instance scenario_requests : Requests Scenario :=
  {| requests_send req w := (http w req, w) |}.

Global Instance scenario_backend : Backend Scenario :=
  {| is_available :=
       provider_is_available (fun _ w => (inr false, w));
     provider_chat_completion p _ _ w := (completion w (cls p), w);
     OpenAIProvider_init _ :=
       inl (mkExn ValueError "OpenAI API key is required");
     OpenAIProvider_name := "OpenAI" |}.

Global Instance scenario_json : Json :=
  {| json_loads := read_json; json_dumps := write_json 64 |}.

Global Instance scenario_plugins : Plugins Scenario :=
  {| execute_plugin name kwargs w := (plugin w name kwargs, w);
     _format_plugin_result name plugin_result :=
       inr (write_json 64 plugin_result) |}.

(** The configuration of one provider. *)
Definition provider_config (key : option string) (priority : Z)
  : gmap string PyVal :=
  let base := <["enabled" := PBool true]> (<["priority" := PInt priority]> ∅) in
  match key with
  | Some k => <["api_key" := PStr k]> base
  | None => base
  end.

(** Three providers A, B and C with the priorities 1, 2 and 3. *)
Definition config_ABC : gmap string (gmap string PyVal) :=
  <["siliconflow" := provider_config (Some "key-a") 1]>
    (<["claude" := provider_config (Some "key-b") 2]>
       (<["ollama" := provider_config None 3]> ∅)).

(** The class that a request is addressed to, by its URL. *)
Definition addressee (req : Request) : option ProviderClass :=
  match req_url req with
  | FVal (PStr base) :: _ =>
      if bool_decide (base = default_base_url SiliconFlowProvider)
      then Some SiliconFlowProvider
      else if bool_decide (base = default_base_url ClaudeProvider)
      then Some ClaudeProvider
      else if bool_decide (base = default_base_url OllamaProvider)
      then Some OllamaProvider
      else None
  | _ => None
  end.

(** A world where the providers of the classes in [up] answer their
    probe with status 200 and the others cannot be reached, and where the
    completions of the classes in [answering] return. *)
Definition world (up answering : list ProviderClass) : Scenario :=
  mkScenario
    (fun req =>
       match addressee req with
       | Some c =>
           if bool_decide (c ∈ up) then HttpResponse 200 "{}"
           else HttpRaised (mkExn RequestException
                              ("connection refused: " +:+ class_key c))
       | None => HttpRaised (mkExn RequestException "unknown host")
       end)
    (fun c =>
       if bool_decide (c ∈ answering)
       then inr (mkResponse ("reply of " +:+ class_key c)
                   (PStr (default_model c)) None (PStr "stop"))
       else inl (mkExn Exception ("error of " +:+ class_key c)))
    (fun _ _ => inr (PDict ∅)).

(** A world that answers every request with the same status code. *)
Definition world_status (status_code : Z) : Scenario :=
  mkScenario (fun _ => HttpResponse status_code "{}")
    (fun _ => inl (mkExn Exception "no completion"))
    (fun _ _ => inr (PDict ∅)).

(** The router built from [config_ABC] in a world. *)
Definition router_ABC (w : Scenario) : LLMRouter :=
  self_after (LLMRouter_init config_ABC w).

(** ** Notions used by the properties *)

(** The text that [chat_completion_sync] gathers from the messages with
    role "system": their contents in order, each followed by a line feed. *)
Definition system_text (messages : list LLMMessage) : string :=
  foldr (fun msg s => content msg +:+ newline +:+ s) ""
    (filter (λ msg, role msg = "system") messages).


(** An assistant message that carries the call [function_call] in one of
    the two formats: as the first element of a list [tool_calls], or as
    its [function_call] when it holds no usable [tool_calls]. *)
Inductive carries_call (assistant_message function_call : gmap string PyVal)
  : Prop :=
| in_tool_calls tool_call others :
    assistant_message !! "tool_calls"
      = Some (PList (PDict tool_call :: others)) ->
    tool_call !! "function" = Some (PDict function_call) ->
    carries_call assistant_message function_call
| in_function_call :
    truthy (dict_get assistant_message "tool_calls" PNone) = false ->
    assistant_message !! "function_call" = Some (PDict function_call) ->
    carries_call assistant_message function_call.

(** The status codes on which the probe of a class answers true. *)
Definition accepted_status (c : ProviderClass) (status_code : Z) : Prop :=
  status_code = 200%Z ∨
  (status_code = 400%Z ∧
   c ∈ [SiliconFlowProvider; DeepSeekProvider; ClaudeProvider; GeminiProvider]).

Global Instance accepted_status_dec c status_code :
  Decision (accepted_status c status_code).
Proof. unfold accepted_status. apply _. Defined.

(** An assistant message in the format [function_call] that also holds an
    empty list [tool_calls]. *)
Definition news_call : gmap string PyVal :=
  <["name" := PStr "get_latest_news"]> (<["arguments" := PStr "{}"]> ∅).

Definition message_with_both_keys : gmap string PyVal :=
  <["role" := PStr "assistant"]>
    (<["content" := PNone]>
       (<["tool_calls" := PList []]>
          (<["function_call" := PDict news_call]> ∅))).

(** The same, with [None] under the key [tool_calls]. *)
Definition message_with_null_tool_calls : gmap string PyVal :=
  <["role" := PStr "assistant"]>
    (<["content" := PNone]>
       (<["tool_calls" := PNone]>
          (<["function_call" := PDict news_call]> ∅))).

(** The same call with no key [tool_calls], and in the format [tool_calls]
    with the identifier "call_1". *)
Definition message_function_call : gmap string PyVal :=
  <["role" := PStr "assistant"]>
    (<["content" := PNone]> (<["function_call" := PDict news_call]> ∅)).

Definition message_tool_calls : gmap string PyVal :=
  <["role" := PStr "assistant"]>
    (<["content" := PNone]>
       (<["tool_calls" :=
            PList [PDict (<["id" := PStr "call_1"]>
                           (<["type" := PStr "function"]>
                              (<["function" := PDict news_call]> ∅)))]]> ∅)).

(** The provider objects that [config_ABC] gives. *)
Definition provider_of (c : ProviderClass) (key : option string)
    (priority : Z) : Provider :=
  mkProvider c (provider_config key priority) (PStr (default_model c))
    (PFloat float_0_7) (PInt 1000) (default PNone (PStr <$> key))
    (PStr (default_base_url c)) (PInt (default_timeout c)).

Definition provider_A : Provider :=
  provider_of SiliconFlowProvider (Some "key-a") 1.
Definition provider_B : Provider :=
  provider_of ClaudeProvider (Some "key-b") 2.
Definition provider_C : Provider :=
  provider_of OllamaProvider None 3.

Definition all_three : list ProviderClass :=
  [SiliconFlowProvider; ClaudeProvider; OllamaProvider].

(** A configuration that enables Claude with no [api_key], next to
    Ollama. *)
Definition config_missing_key : gmap string (gmap string PyVal) :=
  <["claude" := provider_config None 1]>
    (<["ollama" := provider_config None 2]> ∅).

(** Priorities that are strings: "2" for Claude and "10" for Ollama. *)
Definition config_strings : gmap string (gmap string PyVal) :=
  <["claude" := <["priority" := PStr "2"]> (provider_config (Some "key-b") 0)]>
    (<["ollama" := <["priority" := PStr "10"]> (provider_config None 0)]> ∅).

(** A priority that is a number next to one that is a string. *)
Definition config_mixed : gmap string (gmap string PyVal) :=
  <["claude" := provider_config (Some "key-b") 1]>
    (<["ollama" := <["priority" := PStr "2"]> (provider_config None 0)]> ∅).

(** A call in the format [function_call] whose arguments are not JSON. *)
Definition weather_call_malformed : gmap string PyVal :=
  <["name" := PStr "get_weather"]>
    (<["arguments" := PStr "{location: Paris"]> ∅).

Definition message_malformed : gmap string PyVal :=
  <["role" := PStr "assistant"]>
    (<["content" := PNone]>
       (<["function_call" := PDict weather_call_malformed]> ∅)).

(** A conversation for the examples. *)
Definition conversation : list LLMMessage :=
  [ mkMessage "system" "You are kind.";
    mkMessage "system" "Answer briefly.";
    mkMessage "user" "Hello";
    mkMessage "assistant" "Hi";
    mkMessage "system" "Stay calm.";
    mkMessage "user" "How are you?" ].

(** ** The rest of the router, of the providers and of the plugin engine *)

(** Builtins of Python that the code below calls on values from outside,
    taken as given: [s.lower()]; [int(s)] and [float(s)], which answer
    with the number or with the [ValueError] they raise; and [a + b]. *)
Class Builtins := {
  str_lower : string -> string;
  py_int : string -> Exn + Z;
  py_float : string -> Exn + PyVal;
  py_add : PyVal -> PyVal -> Exn + PyVal
}.

(** [response.json()] on a response with the body [text], taken as given:
    the value, or the exception raised on a body that is not JSON. *)
Class ResponseJson := {
  response_json : string -> Exn + PyVal
}.

(** [re.search(pattern, s)], taken as given: [None] when the pattern
    matches nowhere, else [match.group(1)] (every pattern of the code has
    a group 1 that takes part in each of its matches). *)
Class Regex := {
  re_search_group1 : string -> string -> option string
}.

(** *** llm_router.py: list_available_providers and switch_provider *)

Section RouterMethods.

Context {W : Type} `{!Backend W} `{!Builtins}.

Notation "x <~ m ; k" := (bind m (fun x => k))
  (at level 20, m at level 100, k at level 200, only parsing).
Notation "m ;; k" := (bind m (fun _ => k))
  (at level 100, k at level 200, only parsing, right associativity).

(** The loop of [list_available_providers], with the [result] list that
    it appends to. *)
Fixpoint list_loop (l : list Provider) (result : list (gmap string PyVal))
  : M (list (gmap string PyVal)) :=
  match l with
  | [] => ret result
  | provider :: rest =>
      entry <~ try_except
        (available <~ call_is_available provider;
         ret (<["name" := PStr (get_provider_name provider)]>
               (<["model" := model provider]>
                 (<["available" := PBool available]> ∅))))
        (fun e =>
           ret (<["name" := PStr (get_provider_name provider)]>
                 (<["model" := model provider]>
                   (<["available" := PBool false]>
                     (<["error" := PStr (exn_msg e)]> ∅)))));
      list_loop rest (result ++ [entry])
  end.

Definition list_available_providers : M (list (gmap string PyVal)) :=
  self <~ get_self;
  list_loop (providers self) [].

(** The body of the loop of [switch_provider] for one [provider]. *)
Definition switch_step (provider_name : string) (provider : Provider)
  : M (option bool) :=
  if bool_decide (str_lower (get_provider_name provider) = str_lower provider_name)
  then
    try_except
      (available <~ call_is_available provider;
       if available then
         set_current_provider (Some provider);;
         print ("[ROUTER] 手动切换到: " +:+ get_provider_name provider);;
         ret (Some true)
       else
         print ("[ROUTER] " +:+ provider_name +:+ " 不可用");;
         ret (Some false))
      (fun e =>
         print ("[ROUTER] 切换到 " +:+ provider_name +:+ " 失败: " +:+ exn_msg e);;
         ret (Some false))
  else ret None.

Definition switch_provider (provider_name : string) : M bool :=
  self <~ get_self;
  r <~ for_each (providers self) (switch_step provider_name);
  match r with
  | Some switched => ret switched
  | None =>
      print ("[ROUTER] 未找到提供商: " +:+ provider_name);;
      ret false
  end.

End RouterMethods.

(** *** llm_router.py: the configuration of the environment *)

Section Environment.

Context `{!Builtins}.

(** [os.getenv(name)] and [os.getenv(name, default)]. *)
Definition getenv (environ : gmap string string) (name : string) : PyVal :=
  match environ !! name with
  | Some s => PStr s
  | None => PNone
  end.

Definition getenv_default (environ : gmap string string) (name default : string)
  : string :=
  match environ !! name with
  | Some s => s
  | None => default
  end.

(** [a or b]. *)
Definition py_or (a b : PyVal) : PyVal := if truthy a then a else b.

(** One entry of the dict of providers: the three numbers are converted
    in the order in which the dict display lists them; [api_key] is left
    out of the entry of Ollama. *)
Definition provider_entry (enabled : PyVal) (api_key : option PyVal)
    (base_url model temperature max_tokens priority : string)
  : Exn + gmap string PyVal :=
  let* temperature := py_float temperature in
  let* max_tokens := py_int max_tokens in
  let* priority := py_int priority in
  let entry :=
    <["enabled" := enabled]>
      (<["base_url" := PStr base_url]>
        (<["model" := PStr model]>
          (<["temperature" := temperature]>
            (<["max_tokens" := PInt max_tokens]>
              (<["priority" := PInt priority]> ∅))))) in
  inr (match api_key with
       | Some key => <["api_key" := key]> entry
       | None => entry
       end).

(** [_load_config_from_env()]['providers']. *)
Definition _load_config_from_env (environ : gmap string string)
  : Exn + gmap string (gmap string PyVal) :=
  let* siliconflow :=
    provider_entry
      (PBool (truthy (getenv environ "SILICONFLOW_API_KEY")))
      (Some (getenv environ "SILICONFLOW_API_KEY"))
      (getenv_default environ "SILICONFLOW_BASE_URL" "https://api.siliconflow.cn/v1")
      (getenv_default environ "SILICONFLOW_MODEL" "Qwen/Qwen2.5-7B-Instruct")
      (getenv_default environ "SILICONFLOW_TEMPERATURE" "0.7")
      (getenv_default environ "SILICONFLOW_MAX_TOKENS" "2000")
      (getenv_default environ "SILICONFLOW_PRIORITY" "1") in
  let* deepseek :=
    provider_entry
      (PBool (truthy (getenv environ "DEEPSEEK_API_KEY")))
      (Some (getenv environ "DEEPSEEK_API_KEY"))
      (getenv_default environ "DEEPSEEK_BASE_URL" "https://api.deepseek.com/v1")
      (getenv_default environ "DEEPSEEK_MODEL" "deepseek-chat")
      (getenv_default environ "DEEPSEEK_TEMPERATURE" "0.7")
      (getenv_default environ "DEEPSEEK_MAX_TOKENS" "2000")
      (getenv_default environ "DEEPSEEK_PRIORITY" "2") in
  let* claude :=
    provider_entry
      (PBool (truthy (getenv environ "CLAUDE_API_KEY")))
      (Some (getenv environ "CLAUDE_API_KEY"))
      (getenv_default environ "CLAUDE_BASE_URL" "https://api.anthropic.com")
      (getenv_default environ "CLAUDE_MODEL" "claude-3-haiku-20240307")
      (getenv_default environ "CLAUDE_TEMPERATURE" "0.7")
      (getenv_default environ "CLAUDE_MAX_TOKENS" "2000")
      (getenv_default environ "CLAUDE_PRIORITY" "3") in
  let* gemini :=
    provider_entry
      (PBool (truthy (getenv environ "GEMINI_API_KEY")))
      (Some (getenv environ "GEMINI_API_KEY"))
      (getenv_default environ "GEMINI_BASE_URL"
         "https://generativelanguage.googleapis.com")
      (getenv_default environ "GEMINI_MODEL" "gemini-pro")
      (getenv_default environ "GEMINI_TEMPERATURE" "0.7")
      (getenv_default environ "GEMINI_MAX_TOKENS" "2000")
      (getenv_default environ "GEMINI_PRIORITY" "4") in
  let* ollama :=
    provider_entry
      (PBool (bool_decide
                (str_lower (getenv_default environ "OLLAMA_ENABLED" "true")
                 = "true")))
      None
      (getenv_default environ "OLLAMA_BASE_URL" "http://localhost:11434")
      (getenv_default environ "OLLAMA_MODEL" "qwen2.5:8b")
      (getenv_default environ "OLLAMA_TEMPERATURE" "0.7")
      (getenv_default environ "OLLAMA_MAX_TOKENS" "2000")
      (getenv_default environ "OLLAMA_PRIORITY" "5") in
  let* dashscope :=
    provider_entry
      (PBool (truthy (py_or (getenv environ "LLM_API_KEY")
                        (getenv environ "DASHSCOPE_API_KEY"))))
      (Some (py_or (getenv environ "LLM_API_KEY")
               (getenv environ "DASHSCOPE_API_KEY")))
      (getenv_default environ "LLM_BASE_URL"
         "https://dashscope.aliyuncs.com/compatible-mode/v1")
      (getenv_default environ "DEFAULT_MODEL" "qwen-plus")
      (getenv_default environ "LLM_TEMPERATURE" "0.7")
      (getenv_default environ "LLM_MAX_TOKENS" "2000")
      (getenv_default environ "DASHSCOPE_PRIORITY" "6") in
  let* openai :=
    provider_entry
      (PBool (truthy (getenv environ "OPENAI_API_KEY")))
      (Some (getenv environ "OPENAI_API_KEY"))
      (getenv_default environ "OPENAI_BASE_URL" "https://api.openai.com/v1")
      (getenv_default environ "OPENAI_MODEL" "gpt-3.5-turbo")
      (getenv_default environ "OPENAI_TEMPERATURE" "0.7")
      (getenv_default environ "OPENAI_MAX_TOKENS" "2000")
      (getenv_default environ "OPENAI_PRIORITY" "7") in
  inr (<["siliconflow" := siliconflow]>
        (<["deepseek" := deepseek]>
          (<["claude" := claude]>
            (<["gemini" := gemini]>
              (<["ollama" := ollama]>
                (<["dashscope" := dashscope]>
                  (<["openai" := openai]> ∅))))))).

(** [LLMRouter()]: with no [config], the router is built from the
    configuration of the environment; an exception of the loader leaves
    the constructor before anything else is done. *)
Definition LLMRouter_default {W : Type} `{!Backend W}
    (environ : gmap string string) (w : W) : Outcome unit :=
  match _load_config_from_env environ with
  | inl e => mkOutcome (inl e) (mkRouter ∅ [] None) w []
  | inr cfg => LLMRouter_init cfg w
  end.

End Environment.

(** *** gemini_provider.py: the request of chat_completion_sync *)

(** The loop of [chat_completion_sync] over the messages: the messages
    with role "system" go to [system_instruction], each followed by a line
    feed; the others are appended to [contents], under the role "user"
    when that is their role and under the role "model" otherwise. *)
Fixpoint gemini_split (messages : list LLMMessage) (contents : list PyVal)
    (system_instruction : string) : list PyVal * string :=
  match messages with
  | [] => (contents, system_instruction)
  | msg :: rest =>
      if bool_decide (role msg = "system") then
        gemini_split rest contents (system_instruction +:+ content msg +:+ newline)
      else
        let role := if bool_decide (role msg = "user") then "user" else "model" in
        gemini_split rest
          (contents ++
             [PDict (<["role" := PStr role]>
                      (<["parts" :=
                           PList [PDict (<["text" := PStr (content msg)]> ∅)]]> ∅))])
          system_instruction
  end.

(** The [data] that [GeminiProvider.chat_completion_sync] posts. *)
Definition GeminiProvider_data (self : Provider) (messages : list LLMMessage)
    (kwargs : gmap string PyVal) : gmap string PyVal :=
  let '(contents, system_instruction) := gemini_split messages [] "" in
  let data :=
    <["contents" := PList contents]>
      (<["generationConfig" :=
           PDict (<["temperature" := dict_get kwargs "temperature" (temperature self)]>
                   (<["maxOutputTokens" :=
                        dict_get kwargs "max_tokens" (max_tokens self)]> ∅))]> ∅) in
  if truthy (PStr (strip system_instruction))
  then <["systemInstruction" :=
           PDict (<["parts" :=
                      PList [PDict (<["text" := PStr (strip system_instruction)]> ∅)]]>
                    ∅)]> data
  else data.

(** The request of [GeminiProvider.chat_completion_sync]. *)
Definition GeminiProvider_request (self : Provider) (messages : list LLMMessage)
    (kwargs : gmap string PyVal) : Request :=
  mkRequest POST
    [FVal (base_url self); FLit "/v1beta/models/"; FVal (model self);
     FLit ":generateContent?key="; FVal (api_key self)]
    []
    (Some (PDict (GeminiProvider_data self messages kwargs)))
    (timeout self).

(** *** claude_provider.py: chat_completion_sync *)

(** [v[k]] for a string [k].  The text of a [KeyError] is the [repr] of
    the key: for the keys of the source, the key between quotes. *)
Definition py_getitem (v : PyVal) (k : string) : Exn + PyVal :=
  match v with
  | PDict d =>
      match d !! k with
      | Some x => inr x
      | None => inl (mkExn KeyError ("'" +:+ k +:+ "'"))
      end
  | PList _ => inl (mkExn TypeError "list indices must be integers or slices, not str")
  | PStr _ => inl (mkExn TypeError "string indices must be integers, not 'str'")
  | _ => inl (mkExn TypeError
                ("'" +:+ type_name v +:+ "' object is not subscriptable"))
  end.

(** The characters of a string, each in its UTF-8 encoding. *)
Fixpoint characters (s : string) : list string :=
  match s with
  | "" => []
  | String c r =>
      match characters r with
      | next :: others =>
          if String.eqb (continuation_bytes r) "" then String c "" :: next :: others
          else String c next :: others
      | [] => [String c ""]
      end
  end.

(** The items that [for item in v] goes through.  The keys of a dict come
    in the order of the keys of the map. *)
Definition py_iter (v : PyVal) : Exn + list PyVal :=
  match v with
  | PList l => inr l
  | PStr s => inr (PStr <$> characters s)
  | PDict d => inr (PStr <$> (map_to_list d).*1)
  | _ => inl (mkExn TypeError ("'" +:+ type_name v +:+ "' object is not iterable"))
  end.

(** The loop over the blocks of the response: the texts of the blocks of
    type "text" are appended to [content]; [content += x] asks for a
    string. *)
Fixpoint claude_text (items : list PyVal) (content : string) : Exn + string :=
  match items with
  | [] => inr content
  | item :: rest =>
      let* type := py_get item "type" PNone in
      if py_is_str type "text" then
        let* text := py_get item "text" (PStr "") in
        match text with
        | PStr s => claude_text rest (content +:+ s)
        | _ => inl (mkExn TypeError "can only concatenate str to str")
        end
      else claude_text rest content
  end.

(** What a method of a provider comes to: the value it returns or the
    exception it raises, the lines it prints, and the world after. *)
Record Completed (A W : Type) := mkCompleted {
  completed : Exn + A;
  completion_lines : list (list FPart);
  completion_world : W
}.
Arguments mkCompleted {A W}.
Arguments completed {A W}.
Arguments completion_lines {A W}.
Arguments completion_world {A W}.

(** The [LLMResponse] that SiliconFlow builds: its [content] is whatever
    the body holds under that key, a string or not. *)
Record Reply := mkReply {
  reply_content : PyVal;
  reply_model : PyVal;
  reply_usage : gmap string PyVal;
  reply_finish_reason : PyVal
}.

Section Completions.

Context {W : Type} `{!Requests W} `{!ResponseJson} `{!Builtins}.

(** The response that [chat_completion_sync] makes of the decoded body. *)
Definition claude_parse (self : Provider) (result : PyVal) : Exn + LLMResponse :=
  let* has_content := py_contains "content" result in
  let* blocks := if has_content then py_getitem result "content" else inr PNone in
  let* content :=
    if has_content && truthy blocks then
      let* items := py_iter blocks in claude_text items ""
    else inr "" in
  let* usage := py_get result "usage" (PDict ∅) in
  let* prompt_tokens := py_get usage "input_tokens" (PInt 0) in
  let* completion_tokens := py_get usage "output_tokens" (PInt 0) in
  let* total_tokens := py_add prompt_tokens completion_tokens in
  let* stop_reason := py_get result "stop_reason" (PStr "stop") in
  inr (mkResponse content (model self)
         (Some (<["prompt_tokens" := prompt_tokens]>
                 (<["completion_tokens" := completion_tokens]>
                   (<["total_tokens" := total_tokens]> ∅))))
         stop_reason).

Definition ClaudeProvider_chat_completion_sync (self : Provider)
    (messages : list LLMMessage) (kwargs : gmap string PyVal) (w : W)
  : Completed LLMResponse W :=
  let api_messages := (claude_split messages [] "").1 in
  let lines :=
    [ [FLit "[CLAUDE] 调用模型: "; FVal (model self)];
      [FLit "[CLAUDE] 消息数量: "; FVal (PInt (Z.of_nat (length api_messages)))] ] in
  let '(sent, w') := requests_send (ClaudeProvider_request self messages kwargs) w in
  let outcome :=
    match sent with
    | HttpRaised e => inl e
    | HttpResponse status_code text =>
        if negb (status_code =? 200)%Z then
          inl (mkExn Exception
                 ("Claude API错误: " +:+ pretty status_code +:+ " - " +:+ text))
        else
          let* result := response_json text in
          claude_parse self result
    end in
  match outcome with
  | inr response => mkCompleted (inr response) lines w'
  | inl e =>
      if bool_decide (exn_cls e = RequestException) then
        mkCompleted (inl (mkExn Exception ("Claude连接失败: " +:+ exn_msg e)))
          (lines ++ [[FLit ("[CLAUDE] 网络请求失败: " +:+ exn_msg e)]]) w'
      else
        mkCompleted (inl e)
          (lines ++ [[FLit ("[CLAUDE] 调用失败: " +:+ exn_msg e)]]) w'
  end.

(** *** siliconflow_provider.py: chat_completion_sync and get_embedding *)

(** The [data] that [SiliconFlowProvider.chat_completion_sync] posts. *)
Definition SiliconFlowProvider_data (self : Provider) (messages : list LLMMessage)
    (kwargs : gmap string PyVal) : gmap string PyVal :=
  <["model" := model self]>
    (<["messages" := PList (format_messages messages)]>
       (<["temperature" := dict_get kwargs "temperature" (temperature self)]>
          (<["max_tokens" := dict_get kwargs "max_tokens" (max_tokens self)]>
             (<["stream" := PBool false]> ∅)))).

Definition SiliconFlowProvider_request (self : Provider)
    (messages : list LLMMessage) (kwargs : gmap string PyVal) : Request :=
  mkRequest POST [FVal (base_url self); FLit "/chat/completions"]
    (bearer_headers self)
    (Some (PDict (SiliconFlowProvider_data self messages kwargs)))
    (timeout self).

(** The response that [chat_completion_sync] makes of the decoded body. *)
Definition siliconflow_parse (self : Provider) (result : PyVal) : Exn + Reply :=
  let* choices := py_get result "choices" (PList [PDict ∅]) in
  let* choice := py_first choices in
  let* message := py_get choice "message" (PDict ∅) in
  let* content := py_get message "content" (PStr "") in
  let* usage := py_get result "usage" (PDict ∅) in
  let* prompt_tokens := py_get usage "prompt_tokens" (PInt 0) in
  let* completion_tokens := py_get usage "completion_tokens" (PInt 0) in
  let* total_tokens := py_get usage "total_tokens" (PInt 0) in
  let* finish_reason := py_get choice "finish_reason" (PStr "stop") in
  inr (mkReply content (model self)
         (<["prompt_tokens" := prompt_tokens]>
           (<["completion_tokens" := completion_tokens]>
             (<["total_tokens" := total_tokens]> ∅)))
         finish_reason).

Definition SiliconFlowProvider_chat_completion_sync (self : Provider)
    (messages : list LLMMessage) (kwargs : gmap string PyVal) (w : W)
  : Completed Reply W :=
  let api_messages := format_messages messages in
  let lines :=
    [ [FLit "[SILICONFLOW] 调用模型: "; FVal (model self)];
      [FLit "[SILICONFLOW] 消息数量: ";
       FVal (PInt (Z.of_nat (length api_messages)))] ] in
  let '(sent, w') :=
    requests_send (SiliconFlowProvider_request self messages kwargs) w in
  let outcome :=
    match sent with
    | HttpRaised e => inl e
    | HttpResponse status_code text =>
        if negb (status_code =? 200)%Z then
          inl (mkExn Exception
                 ("SiliconFlow API错误: " +:+ pretty status_code +:+ " - " +:+ text))
        else
          let* result := response_json text in
          siliconflow_parse self result
    end in
  match outcome with
  | inr response => mkCompleted (inr response) lines w'
  | inl e =>
      if bool_decide (exn_cls e = RequestException) then
        mkCompleted (inl (mkExn Exception ("SiliconFlow连接失败: " +:+ exn_msg e)))
          (lines ++ [[FLit ("[SILICONFLOW] 网络请求失败: " +:+ exn_msg e)]]) w'
      else
        mkCompleted (inl e)
          (lines ++ [[FLit ("[SILICONFLOW] 调用失败: " +:+ exn_msg e)]]) w'
  end.

(** The loop of [get_embedding] over the items of the body. *)
Fixpoint embeddings_of (items : list PyVal) (embeddings : list PyVal)
  : Exn + list PyVal :=
  match items with
  | [] => inr embeddings
  | item :: rest =>
      let* embedding := py_get item "embedding" (PList []) in
      embeddings_of rest (embeddings ++ [embedding])
  end.

Definition SiliconFlowProvider_get_embedding (self : Provider)
    (texts : list string) (model : option string) (w : W)
  : Completed (list PyVal) W :=
  let model := default "BAAI/bge-m3" model in
  let data :=
    <["model" := PStr model]>
      (<["input" := PList (PStr <$> texts)]>
         (<["encoding_format" := PStr "float"]> ∅)) in
  let lines :=
    [ [FLit "[SILICONFLOW] 获取embedding，模型: "; FLit model;
       FLit ", 文本数量: "; FVal (PInt (Z.of_nat (length texts)))] ] in
  let '(sent, w') :=
    requests_send
      (mkRequest POST [FVal (base_url self); FLit "/embeddings"]
         (bearer_headers self) (Some (PDict data)) (timeout self)) w in
  let outcome :=
    match sent with
    | HttpRaised e => inl e
    | HttpResponse status_code text =>
        if negb (status_code =? 200)%Z then
          inl (mkExn Exception
                 ("SiliconFlow Embedding API错误: " +:+ pretty status_code
                    +:+ " - " +:+ text))
        else
          let* result := response_json text in
          let* data := py_get result "data" (PList []) in
          let* items := py_iter data in
          embeddings_of items []
    end in
  match outcome with
  | inr embeddings => mkCompleted (inr embeddings) lines w'
  | inl e =>
      if bool_decide (exn_cls e = RequestException) then
        mkCompleted
          (inl (mkExn Exception ("SiliconFlow Embedding连接失败: " +:+ exn_msg e)))
          (lines ++ [[FLit ("[SILICONFLOW] Embedding网络请求失败: " +:+ exn_msg e)]]) w'
      else
        mkCompleted (inl e)
          (lines ++ [[FLit ("[SILICONFLOW] Embedding调用失败: " +:+ exn_msg e)]]) w'
  end.

(** *** ollama_provider.py: list_models *)

(** The list [[model['name'] for model in models]]. *)
Fixpoint names_of (models : list PyVal) : Exn + list PyVal :=
  match models with
  | [] => inr []
  | model :: rest =>
      let* name := py_getitem model "name" in
      let* names := names_of rest in
      inr (name :: names)
  end.

(** [try: ... except: return []]: every exception gives the empty list. *)
Definition OllamaProvider_list_models (self : Provider) (w : W)
  : list PyVal * W :=
  match requests_send
          (mkRequest GET [FVal (base_url self); FLit "/api/tags"] [] None (PInt 10))
          w with
  | (HttpResponse status_code text, w') =>
      if (status_code =? 200)%Z then
        match (let* data := response_json text in
               let* models := py_get data "models" (PList []) in
               let* items := py_iter models in
               names_of items) with
        | inr names => (names, w')
        | inl _ => ([], w')
        end
      else ([], w')
  | (HttpRaised _, w') => ([], w')
  end.

End Completions.

(** *** llm_with_plugins.py: _detect_weather_intent *)

Definition weather_keywords : list string :=
  ["天气"; "温度"; "下雨"; "晴天"; "阴天"; "weather"; "温度"; "气温"; "降雨"; "下雪"].

Definition location_keywords : list string :=
  ["北京"; "上海"; "广州"; "深圳"; "杭州"; "成都"; "武汉"; "西安"; "南京"; "重庆"].

(** The patterns, as the raw strings of the source. *)
Definition weather_patterns : list string :=
  [ "([\u4e00-\u9fa5]+)的?天气";
    "([\u4e00-\u9fa5]+)天气";
    "天气.*?([\u4e00-\u9fa5]+)" ].

(** [sub in s] on two strings. *)
Definition str_contains (sub s : string) : bool :=
  bool_decide (is_Some (String.index 0 sub s)).

(** [len(s)]: the number of characters. *)
Definition str_len (s : string) : nat := length (characters s).

Section Intent.

Context `{!Regex}.

(** The loop over the patterns: the first match whose group 1 has four
    characters at most. *)
Fixpoint first_short_match (patterns : list string) (user_input : string)
  : option string :=
  match patterns with
  | [] => None
  | pattern :: rest =>
      match re_search_group1 pattern user_input with
      | Some city =>
          if bool_decide (str_len city <= 4) then Some city
          else first_short_match rest user_input
      | None => first_short_match rest user_input
      end
  end.

Definition _detect_weather_intent (user_input : string) : option string :=
  let has_weather_keyword :=
    existsb (fun keyword => str_contains keyword user_input) weather_keywords in
  if negb has_weather_keyword then None
  else
    match find (fun city => str_contains city user_input) location_keywords with
    | Some city => Some city
    | None =>
        match first_short_match weather_patterns user_input with
        | Some city => Some city
        | None =>
            if str_contains "当前" user_input || str_contains "这里" user_input
            then Some "当前城市" else None
        end
    end.

End Intent.

(** *** llm_with_plugins.py: _analyze_emotion_simple *)

(** The dict [emotion_keywords], in the order of its keys. *)
Definition emotion_keywords : list (string * list string) :=
  [ ("happy", ["开心"; "高兴"; "快乐"; "兴奋"; "满意"; "幸福"]);
    ("sad", ["难过"; "伤心"; "沮丧"; "失落"; "痛苦"; "抑郁"]);
    ("angry", ["愤怒"; "生气"; "恼火"; "暴躁"]);
    ("anxious", ["焦虑"; "担心"; "紧张"; "不安"; "恐惧"]);
    ("excited", ["兴奋"; "激动"; "期待"; "迫不及待"]);
    ("confused", ["困惑"; "迷茫"; "不明白"; "不懂"; "疑惑"]);
    ("frustrated", ["沮丧"; "挫败"; "失望"; "无奈"]);
    ("lonely", ["孤独"; "寂寞"; "孤单"]);
    ("grateful", ["感谢"; "感激"; "谢谢"]) ].

Definition neutral_suggestions : list string :=
  ["今天感觉怎么样？"; "我在这里倾听。"].

Definition suggestions_map : list (string * list string) :=
  [ ("happy", ["很高兴看到你这么开心！"; "你的快乐感染了我！"; "太棒了！"]);
    ("sad", ["我理解你现在的心情。"; "可以告诉我发生了什么吗？"; "你并不孤单。"]);
    ("anxious", ["让我们先深呼吸一下。"; "可以跟我说说你担心的事情吗？"]);
    ("neutral", neutral_suggestions) ].

(** [table.get(key)] on a dict written out with distinct keys. *)
Fixpoint table_get {A} (table : list (string * A)) (key : string) : option A :=
  match table with
  | [] => None
  | (k, v) :: rest => if bool_decide (k = key) then Some v else table_get rest key
  end.

(** [sum(1 for keyword in keywords if keyword in message_lower)]. *)
Definition keyword_score (message_lower : string) (keywords : list string) : Z :=
  Z.of_nat (length (List.filter (fun keyword => str_contains keyword message_lower)
                      keywords)).

(** The loop that fills [emotion_scores]: the emotions of a positive
    score with their scores, in the order of the table. *)
Fixpoint score_entries (table : list (string * list string))
    (message_lower : string) : list (string * Z) :=
  match table with
  | [] => []
  | (emotion, keywords) :: rest =>
      let score := keyword_score message_lower keywords in
      if (0 <? score)%Z then (emotion, score) :: score_entries rest message_lower
      else score_entries rest message_lower
  end.

(** [max(emotion_scores, key=emotion_scores.get)] with the score it has:
    the first of the keys whose score no other exceeds. *)
Fixpoint first_max (best : string * Z) (rest : list (string * Z)) : string * Z :=
  match rest with
  | [] => best
  | entry :: rest' =>
      if (best.2 <? entry.2)%Z then first_max entry rest' else first_max best rest'
  end.

(** [suggestions_map.get(emotion, suggestions_map["neutral"])]. *)
Definition _get_emotion_suggestions (emotion : string) : list string :=
  default neutral_suggestions (table_get suggestions_map emotion).

Section Emotion.

Context `{!Builtins}.

(** The dominant emotion of a message and its intensity. *)
Definition dominant_emotion (message : string) : string * Z :=
  let message_lower := str_lower message in
  match score_entries emotion_keywords message_lower with
  | first :: rest =>
      let best := first_max first rest in (best.1, Z.min (best.2 * 2) 10)
  | [] => ("neutral", 5%Z)
  end.

Definition _analyze_emotion_simple (message : string) : gmap string PyVal :=
  let '(emotion, intensity) := dominant_emotion message in
  let suggestions := _get_emotion_suggestions emotion in
  <["emotion" := PStr emotion]>
    (<["intensity" := PInt intensity]>
       (<["keywords" :=
            PList (PStr <$> default [] (table_get emotion_keywords emotion))]>
          (<["suggestions" := PList (PStr <$> suggestions)]> ∅))).

Definition _get_fallback_response (user_input : string) : Exn + PyVal :=
  let emotion_data := _analyze_emotion_simple user_input in
  let suggestions := dict_get emotion_data "suggestions" (PList []) in
  if truthy suggestions then py_first suggestions
  else inr (PStr "我在这里倾听你的心声。").

End Emotion.

(** ** Builtins for the examples

    The examples below need some [lower], [int], [float], [+],
    [response.json()] and [re.search]: these ones answer on the values
    that the examples use. *)

(** [s.lower()] on the letters A to Z. *)
Fixpoint lower_ascii (s : string) : string :=
  match s with
  | "" => ""
  | String c r =>
      let n := Ascii.nat_of_ascii c in
      String (if ((65 <=? n) && (n <=? 90))%nat then Ascii.ascii_of_nat (n + 32) else c)
        (lower_ascii r)
  end.

(** [int(s)] on the texts made of digits, with a minus sign or without;
    every other text is rejected. *)
Definition int_of_digits (s : string) : Exn + Z :=
  match read_int s with
  | Some (n, "") => inr n
  | _ => inl (mkExn ValueError ("invalid literal for int() with base 10: '"
                                 +:+ s +:+ "'"))
  end.

(** [float(s)] on the text of the default temperature; every other text is
    rejected. *)
Definition float_of_default (s : string) : Exn + PyVal :=
  if bool_decide (s = "0.7") then inr (PFloat float_0_7)
  else inl (mkExn ValueError ("could not convert string to float: '" +:+ s +:+ "'")).

(** [a + b] on two integers; every other pair is rejected. *)
Definition add_integers (a b : PyVal) : Exn + PyVal :=
  match a, b with
  | PInt x, PInt y => inr (PInt (x + y))
  | _, _ => inl (mkExn TypeError "unsupported operand type(s) for +")
  end.

Global Instance example_builtins : Builtins :=
  {| str_lower := lower_ascii;
     py_int := int_of_digits;
     py_float := float_of_default;
     py_add := add_integers |}.

(** [response.json()] by the reader of JSON above; the exception that
    [requests] raises on another body is one of its own. *)
Global Instance example_response_json : ResponseJson :=
  {| response_json text :=
       match read_json text with
       | Some v => inr v
       | None => inl (mkExn RequestException "Expecting value")
       end |}.

(** A [re.search] that finds nothing, for inputs that name a city of
    [location_keywords] or that no pattern of [weather_patterns] matches. *)
Global Instance example_regex : Regex :=
  {| re_search_group1 _ _ := None |}.

(** ** More notions used by the properties *)

(** The entry of [list_available_providers] for a provider whose probe
    gave [pr.2]. *)
Definition reported `{!Backend W} (pr : Provider * (Exn + bool))
  : gmap string PyVal :=
  match pr.2 with
  | inr available =>
      <["name" := PStr (get_provider_name pr.1)]>
        (<["model" := model pr.1]> (<["available" := PBool available]> ∅))
  | inl e =>
      <["name" := PStr (get_provider_name pr.1)]>
        (<["model" := model pr.1]>
          (<["available" := PBool false]>
            (<["error" := PStr (exn_msg e)]> ∅)))
  end.

(** The providers of a list that answer to a name, case set aside. *)
Definition named `{!Backend W} `{!Builtins} (provider_name : string)
    (l : list Provider) : list Provider :=
  filter (λ p, str_lower (get_provider_name p) = str_lower provider_name) l.

(** The selected provider is one of the list. *)
Definition selected_from_list (self : LLMRouter) : Prop :=
  ∀ p, current_provider self = Some p → p ∈ providers self.

(** The arguments of the completion calls of a log. *)
Definition call_arguments (es : list Event)
  : list (list LLMMessage * gmap string PyVal) :=
  omap (fun ev => match ev with EvCall _ m k _ => Some (m, k) | _ => None end) es.

(** The position of a class in the table [provider_classes]. *)
Definition table_position (c : ProviderClass) : nat :=
  default 0 (fst <$> list_find (λ entry, entry.2 = c) provider_classes).

(** The order of [self.providers]: by configured priority, and by the
    position in the table for equal priorities. *)
Definition comes_before (cfgs : gmap string (gmap string PyVal))
    (p q : Provider) : Prop :=
  py_lt (configured_priority cfgs p) (configured_priority cfgs q) = inr true ∨
  (py_eq (configured_priority cfgs p) (configured_priority cfgs q) = true ∧
   table_position (cls p) < table_position (cls q)).

(** The same order on the entries [(priority, provider)] that are sorted. *)
Definition entry_before (x y : PyVal * Provider) : Prop :=
  py_lt x.1 y.1 = inr true ∨
  (py_eq x.1 y.1 = true ∧ table_position (cls x.2) < table_position (cls y.2)).

(** Whether a configuration enables the class [c]. *)
Definition enabled (cfgs : gmap string (gmap string PyVal))
    (c : ProviderClass) : bool :=
  truthy (dict_get (default ∅ (cfgs !! class_key c)) "enabled" (PBool false)).

(** The value that the configuration of the environment gives to the
    [api_key] of a class. *)
Definition environment_key (environ : gmap string string) (c : ProviderClass)
  : option PyVal :=
  match c with
  | SiliconFlowProvider => Some (getenv environ "SILICONFLOW_API_KEY")
  | DeepSeekProvider => Some (getenv environ "DEEPSEEK_API_KEY")
  | ClaudeProvider => Some (getenv environ "CLAUDE_API_KEY")
  | GeminiProvider => Some (getenv environ "GEMINI_API_KEY")
  | OllamaProvider => None
  | DashScopeProvider =>
      Some (py_or (getenv environ "LLM_API_KEY") (getenv environ "DASHSCOPE_API_KEY"))
  | OpenAIProvider => Some (getenv environ "OPENAI_API_KEY")
  end.

(** The variables of the environment that are read as numbers, each with
    the text that stands for it when it is not set. *)
Definition float_variables : list (string * string) :=
  [ ("SILICONFLOW_TEMPERATURE", "0.7"); ("DEEPSEEK_TEMPERATURE", "0.7");
    ("CLAUDE_TEMPERATURE", "0.7"); ("GEMINI_TEMPERATURE", "0.7");
    ("OLLAMA_TEMPERATURE", "0.7"); ("LLM_TEMPERATURE", "0.7");
    ("OPENAI_TEMPERATURE", "0.7") ].

Definition int_variables : list (string * string) :=
  [ ("SILICONFLOW_MAX_TOKENS", "2000"); ("SILICONFLOW_PRIORITY", "1");
    ("DEEPSEEK_MAX_TOKENS", "2000"); ("DEEPSEEK_PRIORITY", "2");
    ("CLAUDE_MAX_TOKENS", "2000"); ("CLAUDE_PRIORITY", "3");
    ("GEMINI_MAX_TOKENS", "2000"); ("GEMINI_PRIORITY", "4");
    ("OLLAMA_MAX_TOKENS", "2000"); ("OLLAMA_PRIORITY", "5");
    ("LLM_MAX_TOKENS", "2000"); ("DASHSCOPE_PRIORITY", "6");
    ("OPENAI_MAX_TOKENS", "2000"); ("OPENAI_PRIORITY", "7") ].

(** An operation that may raise returns. *)
Definition returns {A} (r : Exn + A) : Prop := ∃ a, r = inr a.

(** An environment with a key for Claude only, where Ollama is switched
    off and SiliconFlow is given a priority that is no number. *)
Definition environ_claude : gmap string string :=
  <["CLAUDE_API_KEY" := "key-b"]> (<["OLLAMA_ENABLED" := "False"]> ∅).

Definition environ_malformed : gmap string string :=
  <["SILICONFLOW_PRIORITY" := "high"]> environ_claude.

(** Three providers with the same priority, given out of the order of the
    table. *)
Definition config_tie : gmap string (gmap string PyVal) :=
  <["ollama" := provider_config None 5]>
    (<["claude" := provider_config (Some "key-b") 5]>
       (<["siliconflow" := provider_config (Some "key-a") 5]> ∅)).

(** The entry of [contents] that Gemini is sent for a message. *)
Definition gemini_content (msg : LLMMessage) : PyVal :=
  PDict (<["role" := PStr (if bool_decide (role msg = "user") then "user" else "model")]>
          (<["parts" := PList [PDict (<["text" := PStr (content msg)]> ∅)]]> ∅)).

(** The text that a block of a response of Claude adds to the reply. *)
Definition block_text (block : gmap string PyVal) : string :=
  if py_is_str (dict_get block "type" PNone) "text" then
    match dict_get block "text" (PStr "") with
    | PStr s => s
    | _ => ""
    end
  else "".

(** A block of type "text" holds a string, if it holds a text at all. *)
Definition well_formed_block (block : gmap string PyVal) : Prop :=
  py_is_str (dict_get block "type" PNone) "text" = true →
  ∃ s, dict_get block "text" (PStr "") = PStr s.

(** A decoded response of Claude: two blocks of text around the call of a
    tool, and the count of the tokens. *)
Definition claude_blocks : list (gmap string PyVal) :=
  [ <["type" := PStr "text"]> (<["text" := PStr "Hello"]> ∅);
    <["type" := PStr "tool_use"]> (<["id" := PStr "toolu_1"]> ∅);
    <["type" := PStr "text"]> (<["text" := PStr " there"]> ∅) ].

Definition claude_usage : gmap string PyVal :=
  <["input_tokens" := PInt 12]> (<["output_tokens" := PInt 5]> ∅).

Definition claude_reply : gmap string PyVal :=
  <["content" := PList (PDict <$> claude_blocks)]>
    (<["usage" := PDict claude_usage]>
       (<["stop_reason" := PStr "end_turn"]> ∅)).

(** An assistant message that calls no tool. *)
Definition message_plain : gmap string PyVal :=
  <["role" := PStr "assistant"]> (<["content" := PStr "Hello"]> ∅).

(** The usage that SiliconFlow reports, zero standing for a count that
    the body leaves out. *)
Definition siliconflow_usage (usage : gmap string PyVal) : gmap string PyVal :=
  <["prompt_tokens" := dict_get usage "prompt_tokens" (PInt 0)]>
    (<["completion_tokens" := dict_get usage "completion_tokens" (PInt 0)]>
       (<["total_tokens" := dict_get usage "total_tokens" (PInt 0)]> ∅)).

(** A decoded response of SiliconFlow with two choices, and one whose list
    of choices is empty. *)
Definition siliconflow_reply : gmap string PyVal :=
  <["choices" :=
      PList [PDict (<["message" := PDict (<["role" := PStr "assistant"]>
                                          (<["content" := PStr "first"]> ∅))]>
                      (<["finish_reason" := PStr "length"]> ∅));
             PDict (<["message" := PDict (<["content" := PStr "second"]> ∅)]> ∅)]]>
    (<["usage" := PDict (<["total_tokens" := PInt 9]> ∅)]> ∅).

Definition siliconflow_no_choice : gmap string PyVal :=
  <["choices" := PList []]> ∅.

(** The models that Ollama lists, the second one with no name. *)
Definition ollama_models : list (gmap string PyVal) :=
  [ <["name" := PStr "qwen2.5:8b"]> ∅;
    <["size" := PInt 4]> ∅ ].

(** Two models that have their names. *)
Definition ollama_named : list (gmap string PyVal) :=
  [ <["name" := PStr "qwen2.5:8b"]> (<["size" := PInt 4]> ∅);
    <["name" := PStr "llama3"]> ∅ ].

(** The items of a body of embeddings, the second one with no vector. *)
Definition embedding_items : list (gmap string PyVal) :=
  [ <["index" := PInt 0]> (<["embedding" := PList [PInt 1; PInt 2]]> ∅);
    <["index" := PInt 1]> ∅ ].

Definition embedding_reply : gmap string PyVal :=
  <["data" := PList (PDict <$> embedding_items)]> ∅.

(** A world that answers every request with status 200 and the JSON text
    of [body]. *)
Definition world_body (body : PyVal) : Scenario :=
  mkScenario (fun _ => HttpResponse 200 (write_json 64 body))
    (fun _ => inl (mkExn Exception "no completion"))
    (fun _ _ => inr (PDict ∅)).

(** The first suggestion for an emotion: its own for three of them, that
    of "neutral" for every other one. *)
Definition first_suggestion (emotion : string) : string :=
  if bool_decide (emotion = "happy") then "很高兴看到你这么开心！"
  else if bool_decide (emotion = "sad") then "我理解你现在的心情。"
  else if bool_decide (emotion = "anxious") then "让我们先深呼吸一下。"
  else "今天感觉怎么样？".

(** The location that a call of [get_weather] is given when the model
    names none, by what was detected in the input of the user. *)
Definition effective_location (weather_location : option string) : string :=
  match weather_location with
  | Some city =>
      if bool_decide (city = "" ∨ city = "当前城市") then "深圳" else city
  | None => "深圳"
  end.

(** The keys that the completion of the arguments can add. *)
Definition assisted_keys : list string := ["location"; "date"; "year"].

(** The configuration that the loader returns on an environment (the
    empty one when it raises). *)
Definition loaded `{!Builtins} (environ : gmap string string)
  : gmap string (gmap string PyVal) :=
  match _load_config_from_env environ with
  | inr cfg => cfg
  | inl _ => ∅
  end.

(** * Properties *)

(** ** The router *)

(** One step of symbolic execution of a method of the router. *)
Ltac run_M :=
  cbn;
  unfold try_except, bind, get_self, print, ret, raise, set_current_provider,
    set_providers, call_is_available, call_chat_completion, is_current;
  cbn.

(** Reading the head of a log. *)
Lemma probes_probe p r es : probes (EvProbe p r :: es) = (p, r) :: probes es.
Proof. done. Qed.
Lemma probes_call p m k r es : probes (EvCall p m k r :: es) = probes es.
Proof. done. Qed.
Lemma probes_print s es : probes (EvPrint s :: es) = probes es.
Proof. done. Qed.
Lemma attempts_probe p r es : attempts (EvProbe p r :: es) = attempts es.
Proof. done. Qed.
Lemma attempts_call p m k r es :
  attempts (EvCall p m k r :: es) = (p, r) :: attempts es.
Proof. done. Qed.
Lemma attempts_print s es : attempts (EvPrint s :: es) = attempts es.
Proof. done. Qed.
Lemma printed_probe p r es : printed (EvProbe p r :: es) = printed es.
Proof. done. Qed.
Lemma printed_call p m k r es : printed (EvCall p m k r :: es) = printed es.
Proof. done. Qed.
Lemma printed_print s es : printed (EvPrint s :: es) = s :: printed es.
Proof. done. Qed.
Lemma probes_app es1 es2 : probes (es1 ++ es2) = probes es1 ++ probes es2.
Proof. apply omap_app. Qed.
Lemma attempts_app es1 es2 : attempts (es1 ++ es2) = attempts es1 ++ attempts es2.
Proof. apply omap_app. Qed.

Create Rewrite HintDb events.
#[global] Hint Rewrite probes_probe probes_call probes_print attempts_probe
  attempts_call attempts_print printed_probe printed_call printed_print
  probes_app attempts_app : events.

Ltac read_log :=
  autorewrite with events;
  change (probes []) with (@nil (Provider * (Exn + bool)));
  change (attempts []) with (@nil (Provider * (Exn + LLMResponse)));
  change (printed []) with (@nil string).

Section RouterFacts.

Context {W : Type} `{!Backend W}.

Lemma with_current_same self : with_current self (current_provider self) = self.
Proof. by destruct self. Qed.

(** One turn of a [for] loop. *)
Lemma for_each_cons {A B} (x : A) (l : list A) (body : A → M (option B))
    (self : LLMRouter) (w : W) :
  for_each (x :: l) body self w =
    match body x self w with
    | mkOutcome (inl e) self1 w1 evs1 => mkOutcome (inl e) self1 w1 evs1
    | mkOutcome (inr (Some v)) self1 w1 evs1 =>
        mkOutcome (inr (Some v)) self1 w1 evs1
    | mkOutcome (inr None) self1 w1 evs1 =>
        match for_each l body self1 w1 with
        | mkOutcome r self2 w2 evs2 => mkOutcome r self2 w2 (evs1 ++ evs2)
        end
    end.
Proof.
  cbn [for_each]. unfold bind.
  destruct (body x self w) as [[e|[v|]] self1 w1 evs1]; [done| |done].
  cbn. by rewrite app_nil_r.
Qed.

(** The body of the loop of [_select_provider], by the answer of the probe. *)
Lemma select_step_outcome (p : Provider) (self : LLMRouter) (w : W) :
  select_step p self w =
    match is_available p w with
    | (inr true, w1) =>
        mkOutcome (inr (Some tt)) (with_current self (Some p)) w1
          [EvProbe p (inr true);
           EvPrint ("[ROUTER] 选择提供商: " +:+ get_provider_name p)]
    | (inr false, w1) =>
        mkOutcome (inr None) self w1
          [EvProbe p (inr false);
           EvPrint ("[ROUTER] " +:+ get_provider_name p +:+ " 不可用")]
    | (inl e, w1) =>
        mkOutcome (inr None) self w1
          [EvProbe p (inl e);
           EvPrint ("[ROUTER] 检查 " +:+ get_provider_name p
                      +:+ " 可用性失败: " +:+ exn_msg e)]
    end.
Proof.
  unfold select_step. run_M. by destruct (is_available p w) as [[e|[|]] w1].
Qed.

(** The body of the failover loop, by the answers of the provider. *)
Lemma failover_step_outcome messages kwargs (current p : Provider)
    (self : LLMRouter) (w : W) :
  current_provider self = Some current →
  failover_step messages kwargs p self w =
    if provider_eqb p current then mkOutcome (inr None) self w []
    else
      match is_available p w with
      | (inl e, w1) =>
          mkOutcome (inr None) self w1
            [EvProbe p (inl e);
             EvPrint ("[ROUTER] 故障转移失败 " +:+ get_provider_name p
                        +:+ ": " +:+ exn_msg e)]
      | (inr false, w1) => mkOutcome (inr None) self w1 [EvProbe p (inr false)]
      | (inr true, w1) =>
          match provider_chat_completion p messages kwargs w1 with
          | (inr response, w2) =>
              mkOutcome (inr (Some response)) (with_current self (Some p)) w2
                [EvProbe p (inr true);
                 EvPrint ("[ROUTER] 故障转移到: " +:+ get_provider_name p);
                 EvCall p messages kwargs (inr response)]
          | (inl e, w2) =>
              mkOutcome (inr None) self w2
                [EvProbe p (inr true);
                 EvPrint ("[ROUTER] 故障转移到: " +:+ get_provider_name p);
                 EvCall p messages kwargs (inl e);
                 EvPrint ("[ROUTER] 故障转移失败 " +:+ get_provider_name p
                            +:+ ": " +:+ exn_msg e)]
          end
      end.
Proof.
  intros Hcur. unfold failover_step. run_M. rewrite Hcur.
  destruct (provider_eqb p current); [done|]. run_M.
  destruct (is_available p w) as [[e|[|]] w1]; [done| |done]. run_M.
  by destruct (provider_chat_completion p messages kwargs w1) as [[e|r] w2].
Qed.

(** The loop of [_select_provider] performs a [select_run]. *)
Lemma select_loop_run (l : list Provider) (self : LLMRouter) (w : W) :
  ∃ evs found w',
    select_run l w evs found w' ∧
    for_each l select_step self w =
      mkOutcome (inr (match found with Some _ => Some tt | None => None end))
        (match found with
         | Some p => with_current self (Some p)
         | None => self
         end) w' evs.
Proof.
  revert w. induction l as [|p l IH]; intros w.
  - exists [], None, w. split; [constructor | done].
  - rewrite for_each_cons, select_step_outcome.
    destruct (is_available p w) as [[e|[|]] w1] eqn:Hp.
    + destruct (IH w1) as (evs & found & w' & Hrun & ->).
      eexists _, found, w'. split; [by eapply select_probe_raises | done].
    + eexists _, (Some p), w1. split; [by eapply select_found | done].
    + destruct (IH w1) as (evs & found & w' & Hrun & ->).
      eexists _, found, w'. split; [by eapply select_unavailable | done].
Qed.

(** The failover loop of [chat_completion] performs a [failover_run]. *)
Lemma failover_loop_run messages kwargs (current : Provider) (l : list Provider)
    (self : LLMRouter) (w : W) :
  current_provider self = Some current →
  ∃ evs res w',
    failover_run current messages kwargs l w evs res w' ∧
    for_each l (failover_step messages kwargs) self w =
      mkOutcome (inr (snd <$> res))
        (match res with
         | Some (p, _) => with_current self (Some p)
         | None => self
         end) w' evs.
Proof.
  intros Hcur. revert w. induction l as [|p l IH]; intros w.
  - exists [], None, w. split; [constructor | done].
  - rewrite for_each_cons, (failover_step_outcome _ _ current) by done.
    destruct (provider_eqb p current) eqn:Hpc.
    { destruct (IH w) as (evs & res & w' & Hrun & ->).
      exists evs, res, w'. split; [by eapply failover_skip | done]. }
    destruct (is_available p w) as [[e|[|]] w1] eqn:Hp.
    + destruct (IH w1) as (evs & res & w' & Hrun & ->).
      eexists _, res, w'. split; [by eapply failover_probe_raises | done].
    + destruct (provider_chat_completion p messages kwargs w1)
        as [[e|response] w2] eqn:Hc.
      * destruct (IH w2) as (evs & res & w' & Hrun & ->).
        eexists _, res, w'. split; [by eapply failover_call_raises | done].
      * eexists _, (Some (p, response)), w2.
        split; [by eapply failover_success | done].
    + destruct (IH w1) as (evs & res & w' & Hrun & ->).
      eexists _, res, w'. split; [by eapply failover_unavailable | done].
Qed.

Lemma remaining_skip current p l :
  provider_eqb p current = true → remaining current (p :: l) = remaining current l.
Proof.
  intros Heq. apply bool_decide_eq_true in Heq.
  unfold remaining. rewrite filter_cons_False; [done | by intros ?].
Qed.

Lemma remaining_keep current p l :
  provider_eqb p current = false →
  remaining current (p :: l) = p :: remaining current l.
Proof.
  intros Hne. apply bool_decide_eq_false in Hne.
  unfold remaining. by rewrite filter_cons_True.
Qed.

Section FailoverRun.

Context (current : Provider) (messages : list LLMMessage)
        (kwargs : gmap string PyVal).

(** The probes go down the remaining providers in order; they reach the
    end of the list when no fallback succeeds. *)
Lemma failover_run_probes l w evs res w' :
  failover_run current messages kwargs l w evs res w' →
  ∃ rest, remaining current l = (fst <$> probes evs) ++ rest ∧
          (res = None → rest = []).
Proof.
  induction 1 as [w|p l w evs res w' Hpc _ IH|p l w e w1 evs res w' Hpc Hp _ IH
                 |p l w w1 evs res w' Hpc Hp _ IH
                 |p l w w1 e w2 evs res w' Hpc Hp Hc _ IH
                 |p l w w1 response w2 Hpc Hp Hc];
    rewrite ?remaining_skip, ?remaining_keep by done; read_log.
  - by exists [].
  - exact IH.
  - destruct IH as (rest & -> & Hnone). by exists rest.
  - destruct IH as (rest & -> & Hnone). by exists rest.
  - destruct IH as (rest & -> & Hnone). by exists rest.
  - by exists (remaining current l).
Qed.

(** A completion is attempted on exactly the probed providers that
    answered available. *)
Lemma failover_run_attempts l w evs res w' :
  failover_run current messages kwargs l w evs res w' →
  fst <$> attempts evs = fst <$> filter (λ pr, answered_true pr = true) (probes evs).
Proof.
  induction 1; read_log; try done;
    rewrite filter_cons_True by done; cbn; by f_equal.
Qed.

(** Where the run ends: on the first fallback whose completion succeeds,
    every earlier attempt having failed; or with every attempt failed. *)
Lemma failover_run_result l w evs res w' :
  failover_run current messages kwargs l w evs res w' →
  match res with
  | Some (p, response) =>
      ∃ pre, attempts evs = pre ++ [(p, inr response)] ∧ Forall failed pre ∧
             p ∈ remaining current l
  | None => Forall failed (attempts evs)
  end.
Proof.
  induction 1 as [w|p l w evs res w' Hpc _ IH|p l w e w1 evs res w' Hpc Hp _ IH
                 |p l w w1 evs res w' Hpc Hp _ IH
                 |p l w w1 e w2 evs res w' Hpc Hp Hc _ IH
                 |p l w w1 response w2 Hpc Hp Hc];
    rewrite ?remaining_skip, ?remaining_keep by done; read_log.
  - constructor.
  - exact IH.
  - destruct res as [[q r]|]; [|done].
    destruct IH as (pre & ? & ? & ?). exists pre. set_solver.
  - destruct res as [[q r]|]; [|done].
    destruct IH as (pre & ? & ? & ?). exists pre. set_solver.
  - destruct res as [[q r]|].
    + destruct IH as (pre & -> & ? & ?). exists ((p, inl e) :: pre).
      split_and!; [done| |set_solver].
      constructor; [by exists e | done].
    + constructor; [by exists e | done].
  - exists []. split_and!; [done|constructor|set_solver].
Qed.

(** The providers attempted are among the remaining ones, in their order. *)
Lemma failover_run_attempts_sublist l w evs res w' :
  failover_run current messages kwargs l w evs res w' →
  (fst <$> attempts evs) `sublist_of` remaining current l.
Proof.
  induction 1; rewrite ?remaining_skip, ?remaining_keep by done; read_log; cbn.
  - constructor.
  - done.
  - by constructor.
  - by constructor.
  - by constructor.
  - constructor. apply sublist_nil_l.
Qed.

(** Everything the run prints is said about a provider call just made. *)
Lemma failover_run_printed l w evs res w' :
  failover_run current messages kwargs l w evs res w' →
  printed evs = evs ≫= log_lines current.
Proof.
  induction 1 as [w|p l w evs res w' Hpc _ IH|p l w e w1 evs res w' Hpc Hp _ IH
                 |p l w w1 evs res w' Hpc Hp _ IH
                 |p l w w1 e w2 evs res w' Hpc Hp Hc _ IH
                 |p l w w1 response w2 Hpc Hp Hc]; read_log; cbn; try done.
  - by rewrite IH.
  - by rewrite Hpc, IH.
Qed.

End FailoverRun.

(** What [chat_completion] does when the current provider answers. *)
Lemma chat_completion_steady self current messages kwargs w response w1 :
  current_provider self = Some current →
  provider_chat_completion current messages kwargs w = (inr response, w1) →
  chat_completion messages kwargs self w =
    mkOutcome (inr response) self w1
      [EvCall current messages kwargs (inr response)].
Proof.
  intros Hcur Hc.
  unfold chat_completion. run_M. rewrite Hcur. run_M. rewrite Hc. done.
Qed.

(** What [chat_completion] does when the current provider raises: the
    failover loop runs over [self.providers]. *)
Lemma chat_completion_failover_run self current messages kwargs w e w1 :
  current_provider self = Some current →
  provider_chat_completion current messages kwargs w = (inl e, w1) →
  ∃ evs res w',
    failover_run current messages kwargs (providers self) w1 evs res w' ∧
    chat_completion messages kwargs self w =
      mkOutcome
        (match res with
         | Some (_, response) => inr response
         | None => inl (mkExn Exception
                          ("所有LLM提供商都不可用，最后错误: " +:+ exn_msg e))
         end)
        (match res with
         | Some (p, _) => with_current self (Some p)
         | None => self
         end) w'
        (EvCall current messages kwargs (inl e)
         :: EvPrint ("[ROUTER] " +:+ get_provider_name current
                       +:+ " 调用失败: " +:+ exn_msg e) :: evs).
Proof.
  intros Hcur Hc.
  destruct (failover_loop_run messages kwargs current (providers self) self w1 Hcur)
    as (evs & res & w' & Hrun & Heq).
  exists evs, res, w'. split; [done|].
  unfold chat_completion. run_M. rewrite Hcur. run_M. rewrite Hc. run_M.
  rewrite Heq. destruct res as [[p r]|]; cbn; by rewrite app_nil_r.
Qed.

Lemma remaining_classes current l :
  NoDup (cls <$> l) →
  NoDup (cls <$> remaining current l) ∧ cls current ∉ cls <$> remaining current l.
Proof.
  intros Hnd. split.
  - eapply sublist_NoDup; [exact Hnd|].
    apply fmap_sublist, sublist_filter.
  - intros (p & Hp & Hin)%list_elem_of_fmap_1.
    apply list_elem_of_filter in Hin as [Hne _]. congruence.
Qed.

(** [chat_completion] never changes [self.providers]. *)
Lemma chat_completion_keeps_providers self messages kwargs w :
  providers (self_after (chat_completion messages kwargs self w)) = providers self.
Proof.
  destruct (current_provider self) as [current|] eqn:Hcur.
  - destruct (provider_chat_completion current messages kwargs w)
      as [[e|response] w1] eqn:Hc.
    + destruct (chat_completion_failover_run self current messages kwargs w e w1)
        as (evs & res & w' & _ & ->); [done..|].
      by destruct res as [[p r]|].
    + by erewrite chat_completion_steady.
  - unfold chat_completion. run_M. by rewrite Hcur.
Qed.

(** A call of [chat_completion] on a router with a selected provider
    starts with a completion on that provider. *)
Lemma chat_completion_starts_at_current self current messages kwargs w :
  current_provider self = Some current →
  head (emitted (chat_completion messages kwargs self w)) =
    Some (EvCall current messages kwargs
            (provider_chat_completion current messages kwargs w).1).
Proof.
  intros Hcur.
  destruct (provider_chat_completion current messages kwargs w)
    as [[e|response] w1] eqn:Hc.
  - destruct (chat_completion_failover_run self current messages kwargs w e w1)
      as (evs & res & w' & _ & ->); done.
  - by erewrite chat_completion_steady.
Qed.

(** C1. When the completion of the current provider raises, the router
    probes the remaining providers in the order of [self.providers]
    (priority order), the failed one left out, and calls the completion of
    each one that answers available until one succeeds; when a fallback
    succeeds it becomes [current_provider], so that the next call starts
    with it; and no provider is attempted twice within the call. *)
Theorem chat_completion_fails_over
    (self : LLMRouter) (current : Provider) (messages : list LLMMessage)
    (kwargs : gmap string PyVal) (w : W) (e : Exn) (w1 : W) :
  NoDup (cls <$> providers self) →
  current_provider self = Some current →
  provider_chat_completion current messages kwargs w = (inl e, w1) →
  let o := chat_completion messages kwargs self w in
  let probed := probes (emitted o) in
  let tried := attempts (emitted o) in
  (fst <$> probed) `prefix_of` remaining current (providers self) ∧
  fst <$> tried
    = current :: (fst <$> filter (λ pr, answered_true pr = true) probed) ∧
  (∀ response, result o = inr response →
     ∃ fallback pre,
       tried = (current, inl e) :: pre ++ [(fallback, inr response)] ∧
       Forall failed pre ∧
       fallback ∈ remaining current (providers self) ∧
       current_provider (self_after o) = Some fallback ∧
       ∀ messages' kwargs' w2,
         head (emitted (chat_completion messages' kwargs' (self_after o) w2)) =
           Some (EvCall fallback messages' kwargs'
                   (provider_chat_completion fallback messages' kwargs' w2).1)) ∧
  (∀ err, result o = inl err →
     fst <$> probed = remaining current (providers self) ∧ Forall failed tried) ∧
  NoDup (cls <$> (fst <$> tried)).
Proof.
  intros Hnd Hcur Hc o probed tried.
  destruct (chat_completion_failover_run self current messages kwargs w e w1 Hcur Hc)
    as (evs & res & w' & Hrun & Ho).
  subst probed tried o. rewrite Ho. cbn. read_log. cbn.
  destruct (failover_run_probes _ _ _ _ _ _ _ _ Hrun) as (rest & Hrem & Hnone).
  pose proof (failover_run_attempts _ _ _ _ _ _ _ _ Hrun) as Hatt.
  pose proof (failover_run_result _ _ _ _ _ _ _ _ Hrun) as Hres.
  pose proof (failover_run_attempts_sublist _ _ _ _ _ _ _ _ Hrun) as Hsub.
  destruct (remaining_classes current (providers self) Hnd) as [Hnd' Hnotin].
  split_and!.
  - rewrite Hrem. by apply prefix_app_r.
  - by rewrite Hatt.
  - intros response Hresp. destruct res as [[p r]|]; [|done].
    injection Hresp as ->.
    destruct Hres as (pre & Hpre & Hfailed & Hin).
    exists p, pre. split_and!; try done.
    + by rewrite Hpre.
    + intros messages' kwargs' w2.
      by apply chat_completion_starts_at_current.
  - intros err Herr. destruct res as [[p r]|]; [done|].
    rewrite (Hnone eq_refl), app_nil_r in Hrem. split; [done|].
    constructor; [by exists e | done].
  - apply NoDup_cons. split.
    + intros Hin. apply Hnotin.
      eapply elem_of_sublist; [exact Hin|]. by apply fmap_sublist.
    + eapply sublist_NoDup; [exact Hnd'|]. by apply fmap_sublist.
Qed.

(** What [chat_completion] comes to when it raises on a router with a
    selected provider: every attempt has failed, the first of them on the
    current provider, whose error [e] ends up in the message. *)
Lemma chat_completion_all_failed_outcome
    (self : LLMRouter) (current : Provider) (messages : list LLMMessage)
    (kwargs : gmap string PyVal) (w : W) (err : Exn) :
  current_provider self = Some current →
  result (chat_completion messages kwargs self w) = inl err →
  let o := chat_completion messages kwargs self w in
  ∃ e others,
    attempts (emitted o) = (current, inl e) :: others ∧
    Forall failed others ∧
    head (underlying_errors (emitted o)) = Some e ∧
    err = mkExn Exception ("所有LLM提供商都不可用，最后错误: " +:+ exn_msg e) ∧
    printed (emitted o) = emitted o ≫= log_lines current ∧
    self_after o = self.
Proof.
  intros Hcur Herr o. subst o.
  destruct (provider_chat_completion current messages kwargs w)
    as [[e|response] w1] eqn:Hc.
  2: { rewrite (chat_completion_steady _ _ _ _ _ _ _ Hcur Hc) in Herr. done. }
  destruct (chat_completion_failover_run self current messages kwargs w e w1 Hcur Hc)
    as (evs & res & w' & Hrun & Ho).
  rewrite Ho in Herr |- *. cbn in Herr |- *. read_log.
  destruct res as [[p r]|]; [done|]. injection Herr as <-.
  exists e, (attempts evs). split_and!; try done.
  - exact (failover_run_result _ _ _ _ _ _ _ _ Hrun).
  - unfold provider_eqb. rewrite bool_decide_eq_true_2 by done. cbn.
    by rewrite (failover_run_printed _ _ _ _ _ _ _ _ Hrun).
Qed.

(** C2, as the code has it.  When the current provider and every fallback
    fail, [chat_completion] raises one plain [Exception] whose message
    carries the text of a single one of the underlying errors.  The other
    errors are not part of it: the errors are only printed, each in a line
    of its own, in the order in which the providers were attempted.  The
    router keeps its current provider. *)
Theorem chat_completion_all_failed
    (self : LLMRouter) (current : Provider) (messages : list LLMMessage)
    (kwargs : gmap string PyVal) (w : W) (err : Exn) :
  current_provider self = Some current →
  result (chat_completion messages kwargs self w) = inl err →
  let o := chat_completion messages kwargs self w in
  Forall failed (attempts (emitted o)) ∧
  (∃ e, e ∈ underlying_errors (emitted o) ∧
        err = mkExn Exception ("所有LLM提供商都不可用，最后错误: " +:+ exn_msg e)) ∧
  printed (emitted o) = emitted o ≫= log_lines current ∧
  self_after o = self.
Proof.
  intros Hcur Herr o.
  destruct (chat_completion_all_failed_outcome self current messages kwargs w err
              Hcur Herr)
    as (e & others & Hatt & Hfailed & Hhead & -> & Hlog & Hself).
  fold o in Hatt, Hhead, Hlog, Hself.
  split_and!; [|exists e|done|done].
  - rewrite Hatt. constructor; [by exists e | done].
  - split; [|done]. by apply head_Some_elem_of.
Qed.

(** C10. [get_current_provider_info] reads [self] only: it makes no probe
    and no call whatever the state of the world, so that [available] is
    [True] as soon as a provider is selected, even in a world where the
    probe of that provider would answer otherwise; and with no provider
    selected the answer is exactly {"name": "None", "available": False}. *)
Theorem get_current_provider_info_reads_selection (self : LLMRouter) (w : W) :
  let o := get_current_provider_info self w in
  emitted o = [] ∧ world_after o = w ∧ self_after o = self ∧
  result o =
    inr (match current_provider self with
         | Some current =>
             <["name" := PStr (get_provider_name current)]>
               (<["model" := model current]>
                  (<["available" := PBool true]> ∅))
         | None =>
             <["name" := PStr "None"]> (<["available" := PBool false]> ∅)
         end).
Proof.
  unfold get_current_provider_info. run_M.
  destruct (current_provider self); done.
Qed.

End RouterFacts.

(** ** The sort of [_initialize_providers] *)

Lemma py_size_pos v : 0 < py_size v.
Proof. destruct v; cbn; lia. Qed.

Lemma py_size_lookup (d : gmap string PyVal) k v :
  d !! k = Some v → py_size v < py_size (PDict d).
Proof.
  intros Hk. cbn. rewrite map_fold_foldr.
  apply elem_of_map_to_list in Hk.
  induction (map_to_list d) as [|[k' v'] l IH]; [by apply elem_of_nil in Hk|].
  cbn. apply elem_of_cons in Hk as [[= <- <-]|Hk]; [lia|].
  specialize (IH Hk). lia.
Qed.

(** Induction on a value: a list is its first item and the list of the
    others. *)
Lemma PyVal_rect_items (P : PyVal → Prop) :
  (∀ v, (∀ l, v ≠ PList l) → (∀ d, v ≠ PDict d) → P v) →
  P (PList []) →
  (∀ x l, P x → P (PList l) → P (PList (x :: l))) →
  (∀ d : gmap string PyVal, (∀ k v, d !! k = Some v → P v) → P (PDict d)) →
  ∀ v, P v.
Proof.
  intros Hatom Hnil Hcons Hdict v.
  remember (py_size v) as n eqn:Hn. revert v Hn.
  induction (lt_wf n) as [n _ IH]. intros v ->.
  destruct v as [| | | | |[|x l]|d]; try (by apply Hatom).
  - done.
  - apply Hcons; (eapply IH; [|reflexivity]); cbn.
    + lia.
    + pose proof (py_size_pos x). lia.
  - apply Hdict. intros k v Hk. eapply IH; [|reflexivity].
    by eapply py_size_lookup.
Qed.

(** *** Equality of values *)

Lemma map_fold_all {A} (f : string → A → bool) (d : gmap string A) :
  map_fold (λ k v acc, acc && f k v) true d = true ↔
  ∀ k v, d !! k = Some v → f k v = true.
Proof.
  rewrite map_fold_foldr. setoid_rewrite <- elem_of_map_to_list.
  induction (map_to_list d) as [|[k v] l IH]; cbn.
  - split; [by intros _ ? ? ?%elem_of_nil|done].
  - rewrite andb_true_iff, IH. split.
    + intros [H1 H2] k' v' [[= -> ->]|?]%elem_of_cons; auto.
    + intros H. split; [intros; apply H; by right|apply H; by left].
Qed.

Lemma py_eq_dict (d e : gmap string PyVal) :
  py_eq (PDict d) (PDict e) = true ↔
  size d = size e ∧
  ∀ k v, d !! k = Some v → ∃ w, e !! k = Some w ∧ py_eq v w = true.
Proof.
  cbn [py_eq]. rewrite andb_true_iff, bool_decide_eq_true.
  rewrite (map_fold_all (λ k v, match e !! k with
                                | Some w => py_eq v w
                                | None => false
                                end)).
  split; intros [Hsize Hall]; (split; [done|]); intros k v Hk.
  - specialize (Hall k v Hk). destruct (e !! k); [by eauto|done].
  - by destruct (Hall k v Hk) as (w & -> & ?).
Qed.

(** Two equal dicts have the same keys. *)
Lemma py_eq_dict_keys (d e : gmap string PyVal) k w :
  py_eq (PDict d) (PDict e) = true → e !! k = Some w →
  ∃ v, d !! k = Some v ∧ py_eq v w = true.
Proof.
  intros [Hsize Hall]%py_eq_dict Hk.
  assert (dom d = dom e) as Hdom.
  { apply set_subseteq_size_eq.
    - intros k' [v Hv]%elem_of_dom. destruct (Hall _ _ Hv) as (? & ? & _).
      by apply elem_of_dom.
    - rewrite !size_dom. lia. }
  assert (k ∈ dom d) as [v Hv]%elem_of_dom
    by (rewrite Hdom; by apply elem_of_dom).
  exists v. split; [done|].
  destruct (Hall _ _ Hv) as (w' & Hw' & Heq). by simplify_eq.
Qed.

Lemma py_eq_num a b x y :
  num_key a = Some x → num_key b = Some y → py_eq a b = Qeq_bool x y.
Proof. by destruct a, b; cbn; intros; simplify_eq. Qed.

(** The values that can be equal are of the same kind. *)
Lemma py_eq_inv a b :
  py_eq a b = true →
  (∃ x y, num_key a = Some x ∧ num_key b = Some y ∧ Qeq_bool x y = true) ∨
  (a = PNone ∧ b = PNone) ∨
  (∃ s, a = PStr s ∧ b = PStr s) ∨
  (∃ l m, a = PList l ∧ b = PList m) ∨
  (∃ d e, a = PDict d ∧ b = PDict e).
Proof.
  destruct a, b; cbn [py_eq num_key]; intros H; try done;
    try (left; by eauto);
    try (do 2 right; left; apply bool_decide_eq_true in H as ->; by eauto);
    eauto 10.
Qed.

Lemma py_eq_str s b : py_eq (PStr s) b = true → b = PStr s.
Proof. destruct b; cbn; try done. by intros ->%bool_decide_eq_true. Qed.

Lemma py_eq_cons x l y m :
  py_eq (PList (x :: l)) (PList (y :: m)) = py_eq x y && py_eq (PList l) (PList m).
Proof. done. Qed.

Lemma py_eq_refl a : py_eq a a = true.
Proof.
  induction a as [v Hl Hd| |x l IHx IHl|d IH] using PyVal_rect_items.
  - destruct v; cbn; try done.
    + apply Qeq_bool_refl.
    + apply Qeq_bool_refl.
    + apply Qeq_bool_refl.
    + by apply bool_decide_eq_true.
    + by destruct (Hl l).
    + by destruct (Hd d).
  - done.
  - by rewrite py_eq_cons, IHx, IHl.
  - apply py_eq_dict. split; [done|]. intros k v Hk. by eauto.
Qed.

Lemma py_eq_sym a b : py_eq a b = true → py_eq b a = true.
Proof.
  revert b.
  induction a as [v Hl Hd| |x l IHx IHl|d IH] using PyVal_rect_items; intros b Hab.
  - destruct (py_eq_inv _ _ Hab)
      as [(x & y & Hx & Hy & Hxy)|[[-> ->]|[(s & -> & ->)|[(l & m & -> & ->)|(d & e & -> & ->)]]]].
    + rewrite (py_eq_num _ _ _ _ Hy Hx). by apply Qeq_bool_sym.
    + done.
    + apply py_eq_refl.
    + by destruct (Hl l).
    + by destruct (Hd d).
  - by destruct b as [| | | | |[|??]|].
  - destruct b as [| | | | |[|y m]|]; try done.
    rewrite py_eq_cons in Hab |- *. apply andb_true_iff in Hab as [Hxy Hlm].
    by rewrite (IHx _ Hxy), (IHl _ Hlm).
  - destruct b as [| | | | | |e]; try done.
    apply py_eq_dict. split; [by apply py_eq_dict in Hab as [-> _]|].
    intros k w Hk. destruct (py_eq_dict_keys _ _ _ _ Hab Hk) as (v & Hv & Hvw).
    exists v. split; [done|]. by eapply IH.
Qed.

Lemma py_eq_trans a b c :
  py_eq a b = true → py_eq b c = true → py_eq a c = true.
Proof.
  revert b c.
  induction a as [v Hl Hd| |x l IHx IHl|d IH] using PyVal_rect_items;
    intros b c Hab Hbc.
  - destruct (py_eq_inv _ _ Hab)
      as [(x & y & Hx & Hy & Hxy)|[[-> ->]|[(s & -> & ->)|[(l & m & -> & ->)|(d & e & -> & ->)]]]].
    + destruct (py_eq_inv _ _ Hbc)
        as [(y' & z & Hy' & Hz & Hyz)|[[-> ->]|[(s & -> & ->)|[(l & m & -> & ->)|(d & e & -> & ->)]]]];
        try done.
      rewrite (py_eq_num _ _ _ _ Hx Hz). simplify_eq.
      by eapply Qeq_bool_trans.
    + done.
    + done.
    + by destruct (Hl l).
    + by destruct (Hd d).
  - destruct b as [| | | | |[|??]|]; try done.
  - destruct b as [| | | | |[|y m]|]; try done.
    destruct c as [| | | | |[|z n]|]; try done.
    rewrite py_eq_cons in Hab, Hbc |- *.
    apply andb_true_iff in Hab as [Hxy Hlm].
    apply andb_true_iff in Hbc as [Hyz Hmn].
    by rewrite (IHx _ _ Hxy Hyz), (IHl _ _ Hlm Hmn).
  - destruct b as [| | | | | |e]; try done.
    destruct c as [| | | | | |f]; try done.
    apply py_eq_dict in Hab as [Hde Hab]. apply py_eq_dict in Hbc as [Hef Hbc].
    apply py_eq_dict. split; [congruence|].
    intros k v Hk. destruct (Hab _ _ Hk) as (w & Hw & Hvw).
    destruct (Hbc _ _ Hw) as (u & Hu & Hwu). exists u. split; [done|].
    by eapply IH.
Qed.

(** *** The order of strings *)

Lemma string_compare_refl s : String.compare s s = Eq.
Proof.
  induction s as [|c s IH]; cbn; [done|].
  unfold Ascii.compare. by rewrite N.compare_refl.
Qed.

Lemma string_compare_trans s t u :
  String.compare s t = Lt → String.compare t u = Lt → String.compare s u = Lt.
Proof.
  revert t u. induction s as [|a s IH]; intros [|b t] [|c u]; cbn; try done.
  destruct (Ascii.compare a b) eqn:Hab; try done;
    destruct (Ascii.compare b c) eqn:Hbc; try done.
  - apply Ascii.compare_eq_iff in Hab as ->, Hbc as ->.
    unfold Ascii.compare. rewrite N.compare_refl. apply IH.
  - apply Ascii.compare_eq_iff in Hab as ->. by rewrite Hbc.
  - apply Ascii.compare_eq_iff in Hbc as <-. by rewrite Hab.
  - intros _ _. unfold Ascii.compare in *.
    apply N.compare_lt_iff in Hab. apply N.compare_lt_iff in Hbc.
    by rewrite (proj2 (N.compare_lt_iff _ _) (N.lt_trans _ _ _ Hab Hbc)).
Qed.

Lemma string_ltb_asym s t : String.ltb s t = true → String.ltb t s = false.
Proof.
  unfold String.ltb. rewrite (String.compare_antisym s t).
  by destruct (String.compare t s).
Qed.

Lemma string_ltb_connected s t :
  String.ltb s t = false → String.ltb t s = false → s = t.
Proof.
  unfold String.ltb. rewrite (String.compare_antisym s t).
  destruct (String.compare t s) eqn:Hts; try done.
  intros _ _. symmetry. by apply String.compare_eq_iff.
Qed.

Lemma string_ltb_trans s t u :
  String.ltb s t = true → String.ltb t u = true → String.ltb s u = true.
Proof.
  unfold String.ltb.
  destruct (String.compare s t) eqn:Hst; try done.
  destruct (String.compare t u) eqn:Htu; try done.
  by rewrite (string_compare_trans _ _ _ Hst Htu).
Qed.

Lemma string_ltb_irrefl s : String.ltb s s = false.
Proof. unfold String.ltb. by rewrite string_compare_refl. Qed.

(** *** The order of values *)

Lemma py_lt_num a b x y :
  num_key a = Some x → num_key b = Some y →
  py_lt a b = inr (negb (Qle_bool y x)).
Proof. by destruct a, b; cbn; intros; simplify_eq. Qed.

(** The values that can be compared are of the same kind. *)
Lemma py_lt_inv a b r :
  py_lt a b = inr r →
  (∃ x y, num_key a = Some x ∧ num_key b = Some y ∧ r = negb (Qle_bool y x)) ∨
  (∃ s t, a = PStr s ∧ b = PStr t ∧ r = String.ltb s t) ∨
  (∃ l m, a = PList l ∧ b = PList m).
Proof.
  destruct a, b; cbn [py_lt num_key]; intros H; simplify_eq; eauto 10.
Qed.

Lemma py_lt_cons x l y m :
  py_lt (PList (x :: l)) (PList (y :: m))
    = if py_eq x y then py_lt (PList l) (PList m) else py_lt x y.
Proof. done. Qed.

(** Two values one of which is less than the other are not equal. *)
Lemma py_lt_not_eq a b : py_lt a b = inr true → py_eq a b = false.
Proof.
  revert b.
  induction a as [v Hl Hd| |x l IHx IHl|d IH] using PyVal_rect_items; intros b Hab.
  - destruct (py_lt_inv _ _ _ Hab)
      as [(x & y & Hx & Hy & Hr)|[(s & t & -> & -> & Hr)|(l & m & -> & ->)]].
    + rewrite (py_eq_num _ _ _ _ Hx Hy).
      destruct (Qeq_bool x y) eqn:Hxy; [|done].
      apply Qeq_bool_iff in Hxy. symmetry in Hr. apply negb_true_iff in Hr.
      assert (Qle_bool y x = true) as Hle; [|congruence].
      apply Qle_bool_iff. rewrite Hxy. apply Qle_refl.
    + cbn. apply bool_decide_eq_false. intros ->.
      by rewrite string_ltb_irrefl in Hr.
    + by destruct (Hl l).
  - by destruct b as [| | | | |[|??]|].
  - destruct b as [| | | | |[|y m]|]; try done.
    rewrite py_lt_cons in Hab. rewrite py_eq_cons.
    destruct (py_eq x y) eqn:Hxy; cbn [andb]; [by apply IHl|done].
  - by destruct b.
Qed.

(** Equal values compare in the same way with every value. *)
Lemma py_lt_eq_l a a' b r :
  py_eq a a' = true → py_lt a b = inr r → py_lt a' b = inr r.
Proof.
  revert a' b.
  induction a as [v Hl Hd| |x l IHx IHl|d IH] using PyVal_rect_items;
    intros a' b Haa Hab.
  - destruct (py_lt_inv _ _ _ Hab)
      as [(x & y & Hx & Hy & ->)|[(s & t & -> & -> & ->)|(l & m & -> & ->)]].
    + destruct (py_eq_inv _ _ Haa)
        as [(x1 & x' & Hx1 & Hx' & Hxx)|[[-> ->]|[(s & -> & ->)|[(l & m & -> & ->)|(d & e & -> & ->)]]]];
        try done.
      simplify_eq. rewrite (py_lt_num _ _ _ _ Hx' Hy). f_equal. f_equal.
      apply Qeq_bool_iff in Hxx. by rewrite Hxx.
    + by apply py_eq_str in Haa as ->.
    + by destruct (Hl l).
  - destruct a' as [| | | | |[|??]|]; try done.
  - destruct a' as [| | | | |[|x' l']|]; try done.
    rewrite py_eq_cons in Haa. apply andb_true_iff in Haa as [Hxx Hll].
    destruct b as [| | | | |[|y m]|]; try done.
    rewrite py_lt_cons in Hab |- *.
    destruct (py_eq x y) eqn:Hxy.
    + rewrite (py_eq_trans _ _ _ (py_eq_sym _ _ Hxx) Hxy). by apply IHl.
    + destruct (py_eq x' y) eqn:Hx'y.
      * by rewrite (py_eq_trans _ _ _ Hxx Hx'y) in Hxy.
      * by apply IHx.
  - by destruct b.
Qed.

Lemma py_lt_eq_r a b b' r :
  py_eq b b' = true → py_lt a b = inr r → py_lt a b' = inr r.
Proof.
  revert b b'.
  induction a as [v Hl Hd| |x l IHx IHl|d IH] using PyVal_rect_items;
    intros b b' Hbb Hab.
  - destruct (py_lt_inv _ _ _ Hab)
      as [(x & y & Hx & Hy & ->)|[(s & t & -> & -> & ->)|(l & m & -> & ->)]].
    + destruct (py_eq_inv _ _ Hbb)
        as [(y1 & y' & Hy1 & Hy' & Hyy)|[[-> ->]|[(s & -> & ->)|[(l & m & -> & ->)|(d & e & -> & ->)]]]];
        try done.
      simplify_eq. rewrite (py_lt_num _ _ _ _ Hx Hy'). f_equal. f_equal.
      apply Qeq_bool_iff in Hyy. by rewrite Hyy.
    + by apply py_eq_str in Hbb as ->.
    + by destruct (Hl l).
  - destruct b as [| | | | |[|??]|]; try done;
      by destruct b' as [| | | | |[|??]|].
  - destruct b as [| | | | |[|y m]|]; try done.
    + by destruct b' as [| | | | |[|??]|].
    + destruct b' as [| | | | |[|y' m']|]; try done.
      rewrite py_eq_cons in Hbb. apply andb_true_iff in Hbb as [Hyy Hmm].
      rewrite py_lt_cons in Hab |- *.
      destruct (py_eq x y) eqn:Hxy.
      * rewrite (py_eq_trans _ _ _ Hxy Hyy). by eapply IHl.
      * destruct (py_eq x y') eqn:Hxy'.
        -- by rewrite (py_eq_trans _ _ _ Hxy' (py_eq_sym _ _ Hyy)) in Hxy.
        -- by eapply IHx.
  - by destruct b.
Qed.

Lemma py_lt_asym a b : py_lt a b = inr true → py_lt b a = inr false.
Proof.
  revert b.
  induction a as [v Hl Hd| |x l IHx IHl|d IH] using PyVal_rect_items; intros b Hab.
  - destruct (py_lt_inv _ _ _ Hab)
      as [(x & y & Hx & Hy & Hr)|[(s & t & -> & -> & Hr)|(l & m & -> & ->)]].
    + rewrite (py_lt_num _ _ _ _ Hy Hx). f_equal. apply negb_false_iff.
      symmetry in Hr. apply negb_true_iff in Hr.
      apply Qle_bool_iff, Qlt_le_weak, Qnot_le_lt.
      intros Hle%Qle_bool_iff. congruence.
    + cbn. f_equal. by apply string_ltb_asym.
    + by destruct (Hl l).
  - by destruct b as [| | | | |[|??]|].
  - destruct b as [| | | | |[|y m]|]; try done.
    rewrite py_lt_cons in Hab |- *.
    destruct (py_eq x y) eqn:Hxy.
    + rewrite (py_eq_sym _ _ Hxy). by apply IHl.
    + destruct (py_eq y x) eqn:Hyx.
      * by rewrite (py_eq_sym _ _ Hyx) in Hxy.
      * by apply IHx.
  - by destruct b.
Qed.

(** Two values that can be compared can be compared the other way. *)
Lemma py_lt_flip a b r : py_lt a b = inr r → ∃ r', py_lt b a = inr r'.
Proof.
  revert b r.
  induction a as [v Hl Hd| |x l IHx IHl|d IH] using PyVal_rect_items; intros b r Hab.
  - destruct (py_lt_inv _ _ _ Hab)
      as [(x & y & Hx & Hy & Hr)|[(s & t & -> & -> & Hr)|(l & m & -> & ->)]].
    + rewrite (py_lt_num _ _ _ _ Hy Hx). by eauto.
    + cbn. by eauto.
    + by destruct (Hl l).
  - destruct b as [| | | | |[|??]|]; try done; cbn; by eauto.
  - destruct b as [| | | | |[|y m]|]; try done; [cbn; by eauto|].
    rewrite py_lt_cons in Hab |- *.
    destruct (py_eq x y) eqn:Hxy.
    + rewrite (py_eq_sym _ _ Hxy). by eapply IHl.
    + destruct (py_eq y x) eqn:Hyx.
      * by rewrite (py_eq_sym _ _ Hyx) in Hxy.
      * by eapply IHx.
  - by destruct b.
Qed.

(** Two values neither of which is less than the other are equal. *)
Lemma py_lt_connected a b :
  py_lt a b = inr false → py_lt b a = inr false → py_eq a b = true.
Proof.
  revert b.
  induction a as [v Hl Hd| |x l IHx IHl|d IH] using PyVal_rect_items;
    intros b Hab Hba.
  - destruct (py_lt_inv _ _ _ Hab)
      as [(x & y & Hx & Hy & Hr)|[(s & t & -> & -> & Hr)|(l & m & -> & ->)]].
    + rewrite (py_lt_num _ _ _ _ Hy Hx) in Hba. injection Hba as Hr'.
      symmetry in Hr. apply negb_false_iff, Qle_bool_iff in Hr, Hr'.
      rewrite (py_eq_num _ _ _ _ Hx Hy). apply Qeq_bool_iff.
      by apply Qle_antisym.
    + cbn in Hba. injection Hba as Hr'. cbn. apply bool_decide_eq_true.
      by apply string_ltb_connected.
    + by destruct (Hl l).
  - by destruct b as [| | | | |[|??]|].
  - destruct b as [| | | | |[|y m]|]; try done.
    rewrite py_lt_cons in Hab, Hba. rewrite py_eq_cons.
    destruct (py_eq x y) eqn:Hxy.
    + rewrite (py_eq_sym _ _ Hxy) in Hba. cbn [andb]. by apply IHl.
    + destruct (py_eq y x) eqn:Hyx.
      * by rewrite (py_eq_sym _ _ Hyx) in Hxy.
      * by rewrite (IHx _ Hab Hba) in Hxy.
  - by destruct b.
Qed.

(** A value that is not less than another, which is not less than a
    third, is not less than the third. *)
Lemma py_lt_trans a b c r :
  py_lt b a = inr false → py_lt c b = inr false → py_lt c a = inr r → r = false.
Proof.
  revert b c r.
  induction a as [v Hl Hd| |x l IHx IHl|d IH] using PyVal_rect_items;
    intros b c r Hba Hcb Hca.
  - destruct (py_lt_inv _ _ _ Hba)
      as [(y & x & Hy & Hx & Hr)|[(t & s & -> & -> & Hr)|(m & l & -> & ->)]].
    + destruct (py_lt_inv _ _ _ Hcb)
        as [(z & y' & Hz & Hy' & Hr')|[(? & ? & -> & -> & _)|(? & ? & -> & ->)]];
        try done.
      simplify_eq. rewrite (py_lt_num _ _ _ _ Hz Hx) in Hca.
      injection Hca as <-.
      symmetry in Hr, Hr'. apply negb_false_iff, Qle_bool_iff in Hr, Hr'.
      apply negb_false_iff, Qle_bool_iff. by eapply Qle_trans.
    + destruct c as [| | | |u| |]; try done.
      cbn in Hcb, Hca. injection Hcb as Hut. injection Hca as <-.
      symmetry in Hr.
      destruct (String.ltb u s) eqn:Hus; [|done].
      destruct (String.ltb s t) eqn:Hst.
      * by rewrite (string_ltb_trans _ _ _ Hus Hst) in Hut.
      * rewrite (string_ltb_connected _ _ Hst Hr) in Hus. congruence.
    + by destruct (Hl l).
  - destruct c as [| | | | |[|??]|]; try done; cbn in Hca; congruence.
  - destruct b as [| | | | |[|y m]|]; try done.
    destruct c as [| | | | |[|z n]|]; try done.
    rewrite py_lt_cons in Hba, Hcb, Hca.
    destruct (py_eq y x) eqn:Hyx, (py_eq z y) eqn:Hzy.
    + rewrite (py_eq_trans _ _ _ Hzy Hyx) in Hca. by eapply IHl.
    + destruct (py_eq z x) eqn:Hzx.
      * by rewrite (py_eq_trans _ _ _ Hzx (py_eq_sym _ _ Hyx)) in Hzy.
      * rewrite (py_lt_eq_r _ _ _ _ Hyx Hcb) in Hca. congruence.
    + destruct (py_eq z x) eqn:Hzx.
      * by rewrite (py_eq_trans _ _ _ (py_eq_sym _ _ Hzy) Hzx) in Hyx.
      * rewrite (py_lt_eq_l _ _ _ _ (py_eq_sym _ _ Hzy) Hba) in Hca. congruence.
    + destruct (py_eq z x) eqn:Hzx.
      * exfalso.
        pose proof (py_lt_eq_l _ _ _ _ Hzx Hcb) as Hxy.
        by rewrite (py_eq_sym _ _ (py_lt_connected _ _ Hxy Hba)) in Hyx.
      * by eapply IHx.
  - by destruct c.
Qed.

(** *** The sort *)

Lemma key_le_true a b : key_le a b = true ↔ py_lt b a = inr false.
Proof. unfold key_le. destruct (py_lt b a) as [e|[]]; naive_solver. Qed.

Lemma comparable_true a b : comparable a b = true ↔ ∃ r, py_lt a b = inr r.
Proof.
  unfold comparable. destruct (py_lt a b) as [e|r]; split; try done.
  - by intros [r ?].
  - by eauto.
Qed.

Lemma entry_le_total x y :
  comparable y.1 x.1 = true → entry_le x y ∨ entry_le y x.
Proof.
  unfold entry_le. rewrite !key_le_true. intros [[] Hyx]%comparable_true.
  - right. by apply py_lt_asym.
  - by left.
Qed.

Lemma entry_le_trans x y z :
  comparable z.1 x.1 = true → entry_le x y → entry_le y z → entry_le x z.
Proof.
  unfold entry_le. rewrite !key_le_true. intros [r Hzx]%comparable_true Hyx Hzy.
  by rewrite Hzx, (py_lt_trans _ _ _ _ Hyx Hzy Hzx).
Qed.

Lemma insert_by_key_Permutation x l : insert_by_key x l ≡ₚ x :: l.
Proof.
  induction l as [|y l IH]; cbn; [done|].
  destruct (key_le x.1 y.1); [done|].
  by rewrite IH, Permutation_swap.
Qed.

Lemma foldr_insert_Permutation l : foldr insert_by_key [] l ≡ₚ l.
Proof.
  induction l as [|x l IH]; cbn; [done|].
  by rewrite insert_by_key_Permutation, IH.
Qed.

Lemma ordered_cons x l : ordered (x :: l) → ordered l.
Proof. intros H y z Hy Hz. apply H; by right. Qed.

Lemma ordered_Permutation l l' : l ≡ₚ l' → ordered l → ordered l'.
Proof. intros Hl H y z Hy Hz. apply H; by rewrite Hl. Qed.

Lemma insert_by_key_sorted x l :
  ordered (x :: l) →
  StronglySorted entry_le l → StronglySorted entry_le (insert_by_key x l).
Proof.
  intros Hl Hs. induction Hs as [|y l Hs IH Hy]; cbn.
  - repeat constructor.
  - destruct (key_le x.1 y.1) eqn:Hxy.
    + constructor; [by constructor|].
      constructor; [done|].
      rewrite Forall_forall in Hy |- *. intros z Hz.
      eapply entry_le_trans; [|exact Hxy|by apply Hy].
      apply Hl; [by do 2 right|by left].
    + constructor.
      * apply IH. intros u v Hu Hv. apply Hl.
        -- apply elem_of_cons in Hu as [->|Hu]; [by left|by do 2 right].
        -- apply elem_of_cons in Hv as [->|Hv]; [by left|by do 2 right].
      * rewrite insert_by_key_Permutation. constructor; [|done].
        destruct (entry_le_total x y) as [Hle|Hle]; [|by rewrite Hle in Hxy|done].
        apply Hl; [by right; left|by left].
Qed.

Lemma foldr_insert_sorted l :
  ordered l → StronglySorted entry_le (foldr insert_by_key [] l).
Proof.
  induction l as [|x l IH]; intros Hl; cbn; [constructor|].
  apply insert_by_key_sorted; [|by eapply IH, ordered_cons].
  eapply ordered_Permutation; [|exact Hl].
  by rewrite foldr_insert_Permutation.
Qed.

(** What the sort does: nothing on fewer than two entries, and else an
    insertion of each entry when the keys can all be compared. *)
Lemma sort_by_priority_inr l sorted :
  sort_by_priority l = inr sorted →
  (length l < 2 ∧ sorted = l) ∨
  (ordered l ∧ sorted = foldr insert_by_key [] l).
Proof.
  unfold sort_by_priority. case_bool_decide as Hlen.
  - intros [= <-]. by left.
  - destruct (forallb _ l) eqn:Hall; [|done]. intros [= <-]. right.
    split; [|done]. intros x y Hx Hy.
    rewrite forallb_forall in Hall. apply list_elem_of_In in Hx, Hy.
    specialize (Hall x Hx). rewrite forallb_forall in Hall. by apply Hall.
Qed.

Lemma sort_by_priority_ordered l :
  ordered l →
  sort_by_priority l
    = inr (if bool_decide (length l < 2) then l else foldr insert_by_key [] l).
Proof.
  intros Hl. unfold sort_by_priority. case_bool_decide; [done|].
  replace (forallb _ l) with true; [done|]. symmetry.
  apply forallb_forall. intros x Hx. apply forallb_forall. intros y Hy.
  apply Hl; by apply list_elem_of_In.
Qed.

(** Numbers can be compared with each other. *)
Lemma numeric_ordered l : Forall numeric l → ordered l.
Proof.
  rewrite Forall_forall. intros Hl x y [a Ha]%Hl [b Hb]%Hl.
  apply comparable_true. rewrite (py_lt_num _ _ _ _ Ha Hb). by eauto.
Qed.

(** The sort gives a permutation of its input, in ascending order of the
    keys. *)
Lemma sort_by_priority_sorted l sorted :
  sort_by_priority l = inr sorted →
  sorted ≡ₚ l ∧ StronglySorted entry_le sorted.
Proof.
  intros [[Hlen ->]|[Hl ->]]%sort_by_priority_inr.
  - split; [done|].
    destruct l as [|x [|y l]]; cbn in Hlen; [| |lia]; repeat constructor.
  - split; [apply foldr_insert_Permutation|by apply foldr_insert_sorted].
Qed.

Lemma StronglySorted_fmap_Forall {A B} (R1 : relation A) (R2 : relation B)
    (P : A → Prop) (f : A → B) (l : list A) :
  (∀ x y, P x → P y → R1 x y → R2 (f x) (f y)) →
  Forall P l → StronglySorted R1 l → StronglySorted R2 (f <$> l).
Proof.
  intros HR HP Hs. induction Hs as [|x l Hs IH Hx]; cbn; [constructor|].
  apply Forall_cons in HP as [HPx HP].
  constructor; [by apply IH|].
  apply Forall_fmap. rewrite Forall_forall in Hx, HP |- *.
  intros y Hy. apply HR; auto.
Qed.

Lemma omap_sublist {A B C} (f : A → option B) (g : B → C) (h : A → C)
    (l : list A) :
  (∀ x y, f x = Some y → g y = h x) →
  (g <$> omap f l) `sublist_of` (h <$> l).
Proof.
  intros Hf. induction l as [|x l IH]; cbn; [constructor|].
  destruct (f x) as [y|] eqn:Hx; cbn.
  - rewrite (Hf x y Hx). by constructor.
  - by constructor.
Qed.

Lemma provider_classes_keys name c :
  (name, c) ∈ provider_classes → name = class_key c.
Proof.
  unfold provider_classes. rewrite !elem_of_cons, elem_of_nil.
  intros H. repeat destruct H as [[= -> ->]|H]; done.
Qed.

Lemma provider_classes_NoDup : NoDup (snd <$> provider_classes).
Proof. cbn. apply NoDup_ListNoDup. repeat constructor; cbn; intuition congruence. Qed.

Section InitFacts.

Context {W : Type} `{!Backend W}.

Lemma construct_cls c cfg p : construct c cfg = inr p → cls p = c.
Proof.
  destruct c; cbn; unfold provider_init; cbn;
    repeat case_match; intros [= <-]; done.
Qed.

(** The loop of [_initialize_providers] goes once through the table of
    classes: it appends the entries of the enabled classes whose
    constructor returns, and prints one line per class. *)
Lemma initialize_loop_summary cfgs classes acc (self : LLMRouter) (w : W) :
  initialize_loop cfgs classes acc self w =
    mkOutcome (inr (acc ++ omap (initialized_entry cfgs) classes)) self w
      (initialized_line cfgs <$> classes).
Proof.
  revert acc. induction classes as [|[name c] classes IH]; intros acc; cbn.
  - by rewrite app_nil_r.
  - unfold initialized_entry, initialized_line. cbn.
    destruct (truthy _); cbn.
    + destruct (construct c _) as [e|p]; cbn;
        unfold bind, print; cbn; rewrite IH; cbn; [done|].
      by rewrite <- app_assoc.
    + unfold bind, print; cbn. by rewrite IH.
Qed.

Lemma initialized_entry_priority cfgs entry k p :
  entry ∈ provider_classes →
  initialized_entry cfgs entry = Some (k, p) →
  cls p = entry.2 ∧ k = configured_priority cfgs p ∧
  construct entry.2 (default ∅ (cfgs !! entry.1)) = inr p.
Proof.
  destruct entry as [name c]. intros Hin%provider_classes_keys.
  unfold initialized_entry. cbn.
  destruct (truthy _); [|done].
  destruct (construct c _) as [e|q] eqn:Hc; [done|]. intros [= <- <-].
  pose proof (construct_cls _ _ _ Hc) as Hcls.
  unfold configured_priority. rewrite Hcls, <- Hin. done.
Qed.

Lemma initialize_providers_outcome (self : LLMRouter) (w : W) :
  _initialize_providers self w =
    let lines := initialized_line (router_config self) <$> provider_classes in
    match sort_by_priority
            (omap (initialized_entry (router_config self)) provider_classes) with
    | inl e => mkOutcome (inl e) self w lines
    | inr sorted =>
        mkOutcome (inr tt)
          (mkRouter (router_config self) (snd <$> sorted) (current_provider self))
          w lines
    end.
Proof.
  unfold _initialize_providers, bind, get_self. cbn -[provider_classes].
  rewrite initialize_loop_summary. cbn -[provider_classes].
  destruct (sort_by_priority _); cbn -[provider_classes]; by rewrite ?app_nil_r.
Qed.

(** The probes of [_select_provider] go down the list in order and stop at
    the first provider that answers available. *)
Lemma select_run_probes l (w : W) evs found w' :
  select_run l w evs found w' →
  (fst <$> probes evs) `prefix_of` l ∧
  attempts evs = [] ∧
  match found with
  | Some p => ∃ pre, probes evs = pre ++ [(p, inr true)] ∧ Forall unavailable pre
  | None => fst <$> probes evs = l ∧ Forall unavailable (probes evs)
  end.
Proof.
  induction 1 as [w|p l w w1 Hp|p l w w1 evs found w' Hp _ IH
                 |p l w e w1 evs found w' Hp _ IH]; read_log.
  - split_and!; [done|done|done|constructor].
  - split_and!; [apply prefix_cons, prefix_nil|done|].
    exists []. split; [done|constructor].
  - destruct IH as (Hpre & Hatt & Hfound).
    split_and!; [by apply prefix_cons|done|].
    destruct found as [q|].
    + destruct Hfound as (pre & -> & Hun).
      exists ((p, inr false) :: pre). split; [done|]. by constructor.
    + destruct Hfound as [Hall Hun]. split; [cbn; by rewrite Hall|].
      by constructor.
  - destruct IH as (Hpre & Hatt & Hfound).
    split_and!; [by apply prefix_cons|done|].
    destruct found as [q|].
    + destruct Hfound as (pre & -> & Hun).
      exists ((p, inl e) :: pre). split; [done|]. by constructor.
    + destruct Hfound as [Hall Hun]. split; [cbn; by rewrite Hall|].
      by constructor.
Qed.

(** [_select_provider] on a router with no provider selected yet. *)
Lemma select_provider_outcome (self : LLMRouter) (w : W) :
  current_provider self = None →
  ∃ evs found w',
    select_run (providers self) w evs found w' ∧
    _select_provider self w =
      mkOutcome (inr tt) (with_current self found) w'
        (evs ++ match found with
                | Some _ => []
                | None => [EvPrint "[ROUTER] ⚠️  没有可用的LLM提供商，将使用fallback模式"]
                end).
Proof.
  intros Hcur.
  destruct (select_loop_run (providers self) self w)
    as (evs & found & w' & Hrun & Heq).
  exists evs, found, w'. split; [done|].
  unfold _select_provider, bind, get_self. cbn. rewrite Heq. cbn.
  destruct found as [p|]; cbn; [done|].
  rewrite Hcur. cbn. by destruct self; cbn in *; subst.
Qed.

(** What the construction of a router amounts to when it returns. *)
Lemma LLMRouter_init_outcome cfg (w : W) :
  result (LLMRouter_init cfg w) = inr tt →
  ∃ sorted evs found w',
    sort_by_priority (omap (initialized_entry cfg) provider_classes) = inr sorted ∧
    select_run (snd <$> sorted) w evs found w' ∧
    LLMRouter_init cfg w =
      mkOutcome (inr tt) (mkRouter cfg (snd <$> sorted) found) w'
        ((initialized_line cfg <$> provider_classes) ++ evs ++
           match found with
           | Some _ => []
           | None => [EvPrint "[ROUTER] ⚠️  没有可用的LLM提供商，将使用fallback模式"]
           end).
Proof.
  unfold LLMRouter_init, bind. rewrite initialize_providers_outcome.
  cbv zeta. cbn [router_config current_provider].
  destruct (sort_by_priority _) as [e|sorted] eqn:Hsort; [done|].
  intros _.
  destruct (select_provider_outcome (mkRouter cfg (snd <$> sorted) None) w eq_refl)
    as (evs & found & w' & Hrun & Heq).
  exists sorted, evs, found, w'. split_and!; [done|done|].
  by rewrite Heq.
Qed.

Lemma initialized_line_probes cfg classes :
  probes (initialized_line cfg <$> classes) = [].
Proof.
  induction classes as [|entry classes IH]; [done|]. cbn.
  unfold initialized_line at 1.
  destruct (truthy _); [destruct (construct _ _)|]; by read_log.
Qed.

Lemma initialized_line_attempts cfg classes :
  attempts (initialized_line cfg <$> classes) = [].
Proof.
  induction classes as [|entry classes IH]; [done|]. cbn.
  unfold initialized_line at 1.
  destruct (truthy _); [destruct (construct _ _)|]; by read_log.
Qed.

(** The providers of a freshly built router: in ascending order of their
    configured priority, one per class at most, each built from the
    configuration of its class. *)
Lemma LLMRouter_init_providers cfg (w : W) :
  result (LLMRouter_init cfg w) = inr tt →
  let ps := providers (self_after (LLMRouter_init cfg w)) in
  StronglySorted (priority_le cfg) ps ∧
  NoDup (cls <$> ps) ∧
  ∀ p, p ∈ ps →
    truthy (dict_get (default ∅ (cfg !! class_key (cls p))) "enabled" (PBool false))
      = true ∧
    construct (cls p) (default ∅ (cfg !! class_key (cls p))) = inr p.
Proof.
  intros Hres.
  destruct (LLMRouter_init_outcome cfg w Hres)
    as (sorted & evs & found & w' & Hsort & Hrun & ->). cbn.
  apply sort_by_priority_sorted in Hsort as [Hperm Hsorted].
  assert (∀ kp, kp ∈ sorted →
            ∃ entry, entry ∈ provider_classes ∧
                     initialized_entry cfg entry = Some kp) as Hentries.
  { intros kp Hkp. rewrite Hperm in Hkp. by apply list_elem_of_omap in Hkp. }
  split_and!.
  - eapply (StronglySorted_fmap_Forall entry_le _
              (λ kp, kp.1 = configured_priority cfg kp.2)); [|  |exact Hsorted].
    + intros [k p] [k' p']. cbn. intros -> ->.
      unfold entry_le, priority_le. cbn. by rewrite key_le_true.
    + apply Forall_forall. intros [k p] Hkp.
      destruct (Hentries _ Hkp) as (entry & Hin & Hentry).
      by destruct (initialized_entry_priority _ _ _ _ Hin Hentry) as (_ & -> & _).
  - rewrite Hperm.
    eapply sublist_NoDup; [apply provider_classes_NoDup|].
    rewrite <- list_fmap_compose.
    apply omap_sublist. intros [name c] [k p] Hentry. cbn.
    unfold initialized_entry in Hentry. cbn in Hentry.
    destruct (truthy _); [|done].
    destruct (construct c _) as [e|q] eqn:Hc; [done|].
    injection Hentry as <- <-. by apply construct_cls in Hc.
  - intros p ([k q] & -> & Hkp)%list_elem_of_fmap_1. cbn.
    destruct (Hentries _ Hkp) as ([name c] & Hin & Hentry).
    destruct (initialized_entry_priority _ _ _ _ Hin Hentry) as (Hcls & _ & Hc).
    cbn in Hcls, Hc. apply provider_classes_keys in Hin. subst name c.
    split; [|done].
    unfold initialized_entry in Hentry. cbn in Hentry.
    by destruct (truthy _).
Qed.

(** Which providers the construction of a router probes, and which one it
    selects. *)
Lemma LLMRouter_init_selection cfg (w : W) :
  let o := LLMRouter_init cfg w in
  result o = inr tt →
  (fst <$> probes (emitted o)) `prefix_of` providers (self_after o) ∧
  attempts (emitted o) = [] ∧
  match current_provider (self_after o) with
  | Some p =>
      ∃ pre, probes (emitted o) = pre ++ [(p, inr true)] ∧ Forall unavailable pre
  | None =>
      fst <$> probes (emitted o) = providers (self_after o) ∧
      Forall unavailable (probes (emitted o))
  end.
Proof.
  intros o Hres. subst o.
  destruct (LLMRouter_init_outcome cfg w Hres)
    as (sorted & evs & found & w' & Hsort & Hrun & ->).
  cbn [emitted self_after current_provider providers].
  apply select_run_probes in Hrun as (Hprefix & Hatt & Hfound).
  rewrite !probes_app, !attempts_app, initialized_line_probes,
    initialized_line_attempts, Hatt, !app_nil_l.
  replace (probes match found with
                  | Some _ => []
                  | None => [EvPrint "[ROUTER] ⚠️  没有可用的LLM提供商，将使用fallback模式"]
                  end) with (@nil (Provider * (Exn + bool)))
    by (by destruct found).
  rewrite app_nil_r. split_and!; [done| by destruct found |done].
Qed.

(** The construction of a router raises only when the sort of the
    priorities does; everything [_initialize_providers] prints is printed
    in any case. *)
Lemma LLMRouter_init_raises cfg (w : W) err :
  result (LLMRouter_init cfg w) = inl err → exn_cls err = TypeError.
Proof.
  unfold LLMRouter_init, bind. rewrite initialize_providers_outcome.
  cbv zeta. cbn [router_config current_provider].
  destruct (sort_by_priority _) as [e|sorted] eqn:Hsort.
  - cbn. intros [= <-]. unfold sort_by_priority in Hsort.
    repeat case_match; try done. by injection Hsort as <-.
  - destruct (select_provider_outcome (mkRouter cfg (snd <$> sorted) None) w eq_refl)
      as (evs & found & w' & Hrun & ->). done.
Qed.

Lemma LLMRouter_init_emitted cfg (w : W) :
  ∃ rest, emitted (LLMRouter_init cfg w)
          = (initialized_line cfg <$> provider_classes) ++ rest.
Proof.
  unfold LLMRouter_init, bind. rewrite initialize_providers_outcome.
  cbv zeta. cbn [router_config current_provider].
  destruct (sort_by_priority _) as [e|sorted] eqn:Hsort.
  - exists []. by rewrite app_nil_r.
  - destruct (select_provider_outcome (mkRouter cfg (snd <$> sorted) None) w eq_refl)
      as (evs & found & w' & Hrun & ->). by eexists.
Qed.

Lemma LLMRouter_init_failed_providers cfg (w : W) err :
  result (LLMRouter_init cfg w) = inl err →
  providers (self_after (LLMRouter_init cfg w)) = [].
Proof.
  unfold LLMRouter_init, bind. rewrite initialize_providers_outcome.
  cbv zeta. cbn [router_config current_provider].
  destruct (sort_by_priority _) as [e|sorted] eqn:Hsort; [done|].
  destruct (select_provider_outcome (mkRouter cfg (snd <$> sorted) None) w eq_refl)
    as (evs & found & w' & Hrun & ->). done.
Qed.

(** C3. A freshly built router holds its providers in ascending order of
    configured priority; [is_available] is called on them in that order,
    starting from the first; the first provider that answers true becomes
    [current_provider], and it is the last one probed: no provider after it
    is probed.  When none answers true all were probed and no provider is
    selected. *)
Theorem router_init_selects_first_available
    (cfg : gmap string (gmap string PyVal)) (w : W) :
  let o := LLMRouter_init cfg w in
  result o = inr tt →
  let ps := providers (self_after o) in
  let probed := probes (emitted o) in
  StronglySorted (priority_le cfg) ps ∧
  (fst <$> probed) `prefix_of` ps ∧
  match current_provider (self_after o) with
  | Some p => ∃ pre, probed = pre ++ [(p, inr true)] ∧ Forall unavailable pre
  | None => fst <$> probed = ps ∧ Forall unavailable probed
  end.
Proof.
  intros o Hres ps probed.
  destruct (LLMRouter_init_providers cfg w Hres) as (Hsorted & _ & _).
  destruct (LLMRouter_init_selection cfg w Hres) as (Hprefix & _ & Hsel).
  done.
Qed.

(** What [chat_completion] does when no provider is selected. *)
Lemma chat_completion_unselected (self : LLMRouter) messages kwargs (w : W) :
  current_provider self = None →
  chat_completion messages kwargs self w =
    mkOutcome (inl (mkExn Exception "没有可用的LLM提供商")) self w [].
Proof. intros Hcur. unfold chat_completion. run_M. by rewrite Hcur. Qed.

(** C4, as the code has it.  When no provider answers available during
    the construction of the router, no provider is selected, which
    [get_current_provider_info] shows as the name "None" with [available]
    false; and from then on every call of [chat_completion] raises the
    exception "没有可用的LLM提供商" at once, whatever the state of the world:
    it probes no provider, calls none and leaves the router with no
    provider selected. *)
Theorem router_without_provider_raises_on_use
    (cfg : gmap string (gmap string PyVal)) (w : W) :
  let o := LLMRouter_init cfg w in
  result o = inr tt →
  Forall unavailable (probes (emitted o)) →
  let self := self_after o in
  current_provider self = None ∧
  (∀ w', result (get_current_provider_info self w') =
           inr (<["name" := PStr "None"]> (<["available" := PBool false]> ∅))) ∧
  (∀ messages kwargs w',
     chat_completion messages kwargs self w' =
       mkOutcome (inl (mkExn Exception "没有可用的LLM提供商")) self w' []).
Proof.
  intros o Hres Hun self.
  assert (current_provider self = None) as Hcur.
  { destruct (LLMRouter_init_selection cfg w Hres) as (_ & _ & Hsel).
    fold o self in Hsel. destruct (current_provider self) as [p|]; [|done].
    destruct Hsel as (pre & Hpre & _). fold o in Hpre. rewrite Hpre in Hun.
    apply Forall_app in Hun as [_ Hlast].
    apply Forall_cons in Hlast as [Hlast _]. by cbv in Hlast. }
  split_and!; [done| |].
  - intros w'. unfold get_current_provider_info. run_M. by rewrite Hcur.
  - intros. by apply chat_completion_unselected.
Qed.

(** C9, as the code has it.  A class that is enabled with no usable
    [api_key] makes the constructor of the provider raise [ValueError];
    [_initialize_providers] catches it, prints a line and leaves the
    provider out of [self.providers].  The construction of the router does
    not raise it. *)
Theorem enabled_provider_without_key_is_left_out
    (cfg : gmap string (gmap string PyVal)) (c : ProviderClass) (w : W) :
  c ≠ OllamaProvider → c ≠ OpenAIProvider →
  let config := default ∅ (cfg !! class_key c) in
  truthy (dict_get config "enabled" (PBool false)) = true →
  truthy (dict_get config "api_key" PNone) = false →
  let o := LLMRouter_init cfg w in
  construct c config = inl (mkExn ValueError (missing_key_message c)) ∧
  (∀ err, result o = inl err → exn_cls err ≠ ValueError) ∧
  EvPrint ("[ROUTER] " +:+ class_key c +:+ " 提供商初始化失败: "
             +:+ missing_key_message c) ∈ emitted o ∧
  c ∉ cls <$> providers (self_after o).
Proof.
  intros Hollama Hopenai config Henabled Hkey o.
  assert (construct c config = inl (mkExn ValueError (missing_key_message c)))
    as Hc.
  { destruct c; try done; cbn; unfold provider_init; cbn; by rewrite Hkey. }
  split_and!; [done| | |].
  - intros err Herr%LLMRouter_init_raises. by rewrite Herr.
  - destruct (LLMRouter_init_emitted cfg w) as (rest & Hem).
    subst o. rewrite Hem. apply elem_of_app. left.
    apply list_elem_of_fmap. exists (class_key c, c). split.
    + unfold initialized_line. cbn. fold config. by rewrite Henabled, Hc.
    + destruct c; set_solver.
  - intros (p & Hp & Hin)%list_elem_of_fmap_1.
    destruct (result o) as [err|[]] eqn:Hres.
    + subst o. rewrite (LLMRouter_init_failed_providers _ _ _ Hres) in Hin.
      by apply elem_of_nil in Hin.
    + destruct (LLMRouter_init_providers cfg w Hres) as (_ & _ & Hbuilt).
      destruct (Hbuilt p Hin) as [_ Hcp]. rewrite <- Hp in Hcp.
      fold config in Hcp. congruence.
Qed.

End InitFacts.

(** ** The probes of the providers *)

Section ProbeFacts.

Context {W : Type} `{!Requests W}.

Lemma accepted_status_lenient c status_code :
  c ∈ [SiliconFlowProvider; DeepSeekProvider; ClaudeProvider; GeminiProvider] →
  bool_decide (accepted_status c status_code) = in_200_400 status_code.
Proof.
  intros Hc. unfold in_200_400. apply bool_decide_ext.
  unfold accepted_status. split.
  - intros [->|[-> _]]; repeat constructor.
  - intros [->|[->|[]%elem_of_nil]%elem_of_cons]%elem_of_cons; auto.
Qed.

Lemma accepted_status_strict c status_code :
  c ∈ [OllamaProvider; DashScopeProvider] →
  bool_decide (accepted_status c status_code) = (status_code =? 200)%Z.
Proof.
  intros Hc. destruct (Z.eqb_spec status_code 200) as [->|Hne].
  - apply bool_decide_eq_true_2. by left.
  - apply bool_decide_eq_false_2. intros [?|[_ Hin]]; [done|].
    rewrite !elem_of_cons, elem_of_nil in Hc.
    rewrite !elem_of_cons, elem_of_nil in Hin.
    destruct Hc as [->|[->|[]]]; intuition discriminate.
Qed.

(** C5, as the code has it.  For the six provider classes at hand,
    [is_available()] never raises.  It sends one request and answers true
    exactly when a response comes back with status 200, or with status 400
    for SiliconFlow, DeepSeek, Claude and Gemini; every other status code,
    the other 4xx codes included, and every exception raised by the
    request, makes it answer false. *)
Theorem is_available_by_status_code
    (otherwise : Provider → W → (Exn + bool) * W) (p : Provider) (w : W) :
  cls p ≠ OpenAIProvider →
  provider_is_available otherwise p w =
    (inr (match (requests_send (probe_request p) w).1 with
          | HttpResponse status_code _ =>
              bool_decide (accepted_status (cls p) status_code)
          | HttpRaised _ => false
          end),
     (requests_send (probe_request p) w).2).
Proof.
  intros Hcls. unfold provider_is_available, probe_request.
  destruct (cls p) eqn:Hc; try done;
    unfold SiliconFlowProvider_is_available, DeepSeekProvider_is_available,
      ClaudeProvider_is_available, GeminiProvider_is_available,
      OllamaProvider_is_available, DashScopeProvider_is_available, probe_with;
    destruct (requests_send _ w) as [[e|status_code text] w']; cbn;
    try done; do 2 f_equal;
    first [ rewrite accepted_status_lenient by (repeat constructor); done
          | rewrite accepted_status_strict by (repeat constructor); done ].
Qed.

End ProbeFacts.

(** ** The request of the Claude provider *)

Lemma append_assoc (a b c : string) : (a +:+ b) +:+ c = a +:+ b +:+ c.
Proof.
  induction a as [|x a IH]; [done|].
  change (String x ((a +:+ b) +:+ c) = String x (a +:+ b +:+ c)). by f_equal.
Qed.

Lemma append_empty_r (a : string) : a +:+ "" = a.
Proof.
  induction a as [|x a IH]; [done|].
  change (String x (a +:+ "") = String x a). by f_equal.
Qed.

Lemma system_text_cons msg messages :
  system_text (msg :: messages) =
    if bool_decide (role msg = "system")
    then content msg +:+ newline +:+ system_text messages
    else system_text messages.
Proof.
  unfold system_text. case_bool_decide.
  - by rewrite filter_cons_True.
  - by rewrite filter_cons_False.
Qed.




(** ** Tool calls *)

Section ToolCallFacts.

Context `{!Json}.

(** The arguments of a call are completed without an exception when they
    are a dict. *)
Lemma assist_arguments_dict func_name (args : gmap string PyVal)
    weather_location holiday_info :
  ∃ args', assist_arguments func_name (PDict args) weather_location holiday_info
           = inr (PDict args').
Proof.
  unfold assist_arguments, and_then, py_contains, py_setitem.
  repeat (case_match; simplify_eq/=; eauto).
Qed.

(** C6. An assistant message that carries a tool call in either format,
    with a string of malformed JSON as [arguments], is decoded without an
    exception into the name of the call and an empty argument map, on
    which the completion of the arguments does not raise either. *)
Theorem malformed_arguments_decode_to_empty
    (assistant_message function_call : gmap string PyVal) (s : string) :
  carries_call assistant_message function_call →
  function_call !! "arguments" = Some (PStr s) →
  json_loads s = None →
  detect_tool_call assistant_message =
    inr (mkToolCall (PDict function_call)
           (dict_get function_call "name" PNone) (PDict ∅)) ∧
  ∀ weather_location holiday_info,
    ∃ args,
      assist_arguments (dict_get function_call "name" PNone) (PDict ∅)
        weather_location holiday_info = inr (PDict args).
Proof.
  intros Hcall Hargs Hbad. split; [|intros; apply assist_arguments_dict].
  unfold detect_tool_call, dict_has, dict_get.
  destruct Hcall as [tool_call others Htc Hfn|Hfalsy Hfc].
  - rewrite Htc. rewrite bool_decide_eq_true_2 by eauto. cbn.
    rewrite bool_decide_eq_false_2 by done. cbn.
    unfold dict_get. rewrite Hfn. cbn. unfold dict_get. rewrite Hargs. cbn.
    by rewrite Hbad.
  - unfold dict_get in Hfalsy. rewrite Hfalsy, andb_false_r.
    rewrite Hfc, bool_decide_eq_true_2 by eauto. cbn.
    unfold dict_get. rewrite Hargs. cbn. by rewrite Hbad.
Qed.

(** The result of a call in the format [tool_calls] is appended in that
    format, with the identifier of the call. *)
Lemma tool_calls_result_keeps_id messages
    (assistant_message tool_call : gmap string PyVal) others
    func_name plugin_result :
  assistant_message !! "tool_calls" = Some (PList (PDict tool_call :: others)) →
  append_tool_result messages assistant_message func_name plugin_result =
    inr (messages ++
           [PDict assistant_message;
            PDict (<["role" := PStr "tool"]>
                     (<["tool_call_id" := dict_get tool_call "id" PNone]>
                        (<["name" := func_name]>
                           (<["content" := PStr (json_dumps plugin_result)]> ∅))))]).
Proof.
  intros Htc. unfold append_tool_result, dict_has, dict_get. rewrite Htc.
  rewrite bool_decide_eq_true_2 by eauto. cbn. by rewrite <- app_assoc.
Qed.

(** The result of a call in the format [function_call] is appended in
    that format, which has no identifier, when the assistant message has
    no key [tool_calls]. *)
Lemma function_call_result_has_no_id messages
    (assistant_message : gmap string PyVal) func_name plugin_result :
  assistant_message !! "tool_calls" = None →
  ∃ result_message,
    append_tool_result messages assistant_message func_name plugin_result =
      inr (messages ++ [PDict assistant_message; PDict result_message]) ∧
    result_message !! "role" = Some (PStr "function") ∧
    result_message !! "tool_call_id" = None.
Proof.
  intros Htc. unfold append_tool_result, dict_has. rewrite Htc.
  rewrite bool_decide_eq_false_2 by (by intros [? ?]).
  eexists. split; [by rewrite <- app_assoc|]. by simplify_map_eq.
Qed.

End ToolCallFacts.

(** ** The examples *)

(** The router built from [config_ABC] when the three providers answer
    their probe: A, B and C in the order of their priorities, A selected. *)
Lemma router_ABC_all_up :
  router_ABC (world all_three all_three)
  = mkRouter config_ABC [provider_A; provider_B; provider_C] (Some provider_A).
Proof. vm_compute. reflexivity. Qed.

(** The scenario of the specification: A is not available, B and C are.
    B is selected and C is not probed. *)
Example init_selects_B_and_never_probes_C :
  let o := LLMRouter_init config_ABC
             (world [ClaudeProvider; OllamaProvider] all_three) in
  providers (self_after o) = [provider_A; provider_B; provider_C] ∧
  current_provider (self_after o) = Some provider_B ∧
  probes (emitted o) = [(provider_A, inr false); (provider_B, inr true)].
Proof. vm_compute. done. Qed.

(** Comparisons of values: numbers by value, strings by code points,
    lists by their first items that differ; other pairs raise. *)
Example py_lt_of_values :
  py_lt (PInt 1) (PFloat (Qmake 3 2)) = inr true ∧
  py_lt (PBool true) (PInt 1) = inr false ∧
  py_lt (PStr "10") (PStr "2") = inr true ∧
  py_lt (PList [PInt 1; PStr "a"]) (PList [PFloat (Qmake 1 1); PStr "b"]) = inr true ∧
  py_lt (PList [PInt 1]) (PList [PInt 1; PNone]) = inr true ∧
  py_lt (PList [PNone]) (PList [PNone]) = inr false ∧
  py_lt (PList [PInt 1]) (PList [PStr "a"])
    = inl (mkExn TypeError "'<' not supported between instances of 'int' and 'str'") ∧
  py_lt PNone PNone
    = inl (mkExn TypeError
             "'<' not supported between instances of 'NoneType' and 'NoneType'").
Proof. vm_compute. done. Qed.

(** Priorities that are strings are ordered as strings, "10" before "2":
    Ollama comes first.  A string next to a number cannot be ordered, and
    the constructor raises. *)
Example router_of_string_priorities :
  let o := LLMRouter_init config_strings (world all_three all_three) in
  result o = inr tt ∧
  cls <$> providers (self_after o) = [OllamaProvider; ClaudeProvider] ∧
  cls <$> current_provider (self_after o) = Some OllamaProvider ∧
  result (LLMRouter_init config_mixed (world all_three all_three))
    = inl (mkExn TypeError "'<' not supported between instances").
Proof. vm_compute. done. Qed.

Lemma router_init_selects_first_available_witness :
  let o := LLMRouter_init config_ABC
             (world [ClaudeProvider; OllamaProvider] all_three) in
  result o = inr tt ∧
  StronglySorted (priority_le config_ABC) (providers (self_after o)) ∧
  (fst <$> probes (emitted o)) `prefix_of` providers (self_after o) ∧
  ∃ pre, probes (emitted o) = pre ++ [(provider_B, inr true)] ∧
         Forall unavailable pre.
Proof.
  intros o.
  assert (result o = inr tt) as Hres by (vm_compute; reflexivity).
  assert (current_provider (self_after o) = Some provider_B) as Hcur
    by (vm_compute; reflexivity).
  destruct (router_init_selects_first_available config_ABC
              (world [ClaudeProvider; OllamaProvider] all_three) Hres)
    as (Hsorted & Hprefix & Hsel).
  fold o in Hsel. rewrite Hcur in Hsel.
  exact (conj Hres (conj Hsorted (conj Hprefix Hsel))).
Defined.

(** A fails, B is available but fails too, C answers: the call returns the
    response of C and the router moves to C. *)
Example failover_reaches_C :
  let o := chat_completion [] ∅ (router_ABC (world all_three all_three))
             (world all_three [OllamaProvider]) in
  fst <$> attempts (emitted o) = [provider_A; provider_B; provider_C] ∧
  fst <$> probes (emitted o) = [provider_B; provider_C] ∧
  underlying_errors (emitted o)
    = [mkExn Exception "error of siliconflow"; mkExn Exception "error of claude"] ∧
  current_provider (self_after o) = Some provider_C.
Proof. vm_compute. done. Qed.

Lemma chat_completion_fails_over_witness :
  let self := router_ABC (world all_three all_three) in
  let w := world all_three [OllamaProvider] in
  let o := chat_completion [] ∅ self w in
  NoDup (cls <$> providers self) ∧
  current_provider self = Some provider_A ∧
  provider_chat_completion provider_A [] ∅ w
    = (inl (mkExn Exception "error of siliconflow"), w) ∧
  fst <$> attempts (emitted o)
    = provider_A
      :: (fst <$> filter (λ pr, answered_true pr = true) (probes (emitted o))) ∧
  NoDup (cls <$> (fst <$> attempts (emitted o))).
Proof.
  intros self w o.
  assert (NoDup (cls <$> providers self)) as Hnd.
  { unfold self. rewrite router_ABC_all_up. cbn.
    apply NoDup_ListNoDup. repeat constructor; cbn; intuition congruence. }
  assert (current_provider self = Some provider_A) as Hcur
    by (unfold self; by rewrite router_ABC_all_up).
  assert (provider_chat_completion provider_A [] ∅ w
          = (inl (mkExn Exception "error of siliconflow"), w)) as Hfail
    by (vm_compute; reflexivity).
  destruct (chat_completion_fails_over self provider_A [] ∅ w _ _ Hnd Hcur Hfail)
    as (_ & Htried & _ & _ & Honce).
  exact (conj Hnd (conj Hcur (conj Hfail (conj Htried Honce)))).
Defined.

(** C2 as stated fails: the three providers fail, each with an error of
    its own, and the exception raised carries the text of the first error
    only. *)
Lemma chat_completion_error_is_not_aggregate :
  let o := chat_completion [] ∅ (router_ABC (world all_three all_three))
             (world all_three []) in
  underlying_errors (emitted o)
    = [mkExn Exception "error of siliconflow"; mkExn Exception "error of claude";
       mkExn Exception "error of ollama"] ∧
  result o = inl (mkExn Exception
                    "所有LLM提供商都不可用，最后错误: error of siliconflow") ∧
  ¬ (∀ e, e ∈ underlying_errors (emitted o) →
       ∃ err, result o = inl err ∧
              is_Some (String.index 0 (exn_msg e) (exn_msg err))).
Proof.
  intros o.
  assert (underlying_errors (emitted o)
          = [mkExn Exception "error of siliconflow";
             mkExn Exception "error of claude";
             mkExn Exception "error of ollama"]) as Herrs
    by (vm_compute; reflexivity).
  assert (result o = inl (mkExn Exception
            "所有LLM提供商都不可用，最后错误: error of siliconflow")) as Hres
    by (vm_compute; reflexivity).
  split_and!; [done|done|].
  intros Hall.
  destruct (Hall (mkExn Exception "error of claude")) as (err & Herr & Hin).
  { rewrite Herrs. set_solver. }
  rewrite Hres in Herr. injection Herr as <-.
  vm_compute in Hin. by destruct Hin.
Qed.

Lemma chat_completion_all_failed_witness :
  let self := router_ABC (world all_three all_three) in
  let o := chat_completion [] ∅ self (world all_three []) in
  current_provider self = Some provider_A ∧
  result o = inl (mkExn Exception
                    "所有LLM提供商都不可用，最后错误: error of siliconflow") ∧
  Forall failed (attempts (emitted o)) ∧
  printed (emitted o) = emitted o ≫= log_lines provider_A ∧
  self_after o = self.
Proof.
  intros self o.
  assert (current_provider self = Some provider_A) as Hcur
    by (unfold self; by rewrite router_ABC_all_up).
  assert (result o = inl (mkExn Exception
            "所有LLM提供商都不可用，最后错误: error of siliconflow")) as Hres
    by (vm_compute; reflexivity).
  destruct (chat_completion_all_failed self provider_A [] ∅
              (world all_three []) _ Hcur Hres)
    as (Hfailed & _ & Hlog & Hself).
  exact (conj Hcur (conj Hres (conj Hfailed (conj Hlog Hself)))).
Defined.

(** C4 as stated fails: no provider answers at startup; later B and C
    answer, yet a call still raises and selects nothing. *)
Lemma router_stays_unselected_after_recovery :
  let self := router_ABC (world [] []) in
  let later := world [ClaudeProvider; OllamaProvider] all_three in
  let o := chat_completion [] ∅ self later in
  providers self = [provider_A; provider_B; provider_C] ∧
  current_provider self = None ∧
  (is_available provider_B later).1 = inr true ∧
  result o = inl (mkExn Exception "没有可用的LLM提供商") ∧
  emitted o = [] ∧
  current_provider (self_after o) = None ∧
  current_provider (self_after o) ≠ Some provider_B.
Proof. vm_compute. split_and!; done. Qed.

Lemma router_without_provider_raises_on_use_witness :
  let o := LLMRouter_init config_ABC (world [] []) in
  result o = inr tt ∧
  Forall unavailable (probes (emitted o)) ∧
  current_provider (self_after o) = None ∧
  ∀ messages kwargs w',
    chat_completion messages kwargs (self_after o) w' =
      mkOutcome (inl (mkExn Exception "没有可用的LLM提供商")) (self_after o) w' [].
Proof.
  intros o.
  assert (result o = inr tt) as Hres by (vm_compute; reflexivity).
  assert (Forall unavailable (probes (emitted o))) as Hun.
  { vm_compute. repeat constructor. }
  destruct (router_without_provider_raises_on_use config_ABC (world [] [])
              Hres Hun) as (Hcur & _ & Hcall).
  exact (conj Hres (conj Hun (conj Hcur Hcall))).
Defined.

(** C5 as stated fails: Ollama answers its probe with status 400, and
    Claude answers its probe with status 429 or 404; each response shows
    that the endpoint is reached, and [is_available] is false. *)
Lemma is_available_false_on_4xx :
  (is_available provider_C (world_status 400)).1 = inr false ∧
  (is_available provider_B (world_status 429)).1 = inr false ∧
  (is_available provider_B (world_status 404)).1 = inr false ∧
  (is_available provider_B (world_status 400)).1 = inr true.
Proof. vm_compute. done. Qed.

Lemma is_available_by_status_code_witness :
  cls provider_C ≠ OpenAIProvider ∧
  provider_is_available (fun _ w => (inr false, w)) provider_C (world_status 400)
    = (inr false, world_status 400).
Proof.
  assert (cls provider_C ≠ OpenAIProvider) as Hcls by done.
  split; [exact Hcls|].
  rewrite (is_available_by_status_code _ provider_C (world_status 400) Hcls).
  vm_compute. reflexivity.
Defined.

(** A call whose arguments are not JSON: the name is kept and the
    arguments become the empty map, which the completion fills with the
    default location. *)
Example malformed_weather_call :
  detect_tool_call message_malformed
    = inr (mkToolCall (PDict weather_call_malformed) (PStr "get_weather")
             (PDict ∅)) ∧
  assist_arguments (PStr "get_weather") (PDict ∅) None None
    = inr (PDict (<["location" := PStr "深圳"]> ∅)).
Proof. vm_compute. done. Qed.

Lemma malformed_arguments_decode_to_empty_witness :
  carries_call message_malformed weather_call_malformed ∧
  weather_call_malformed !! "arguments" = Some (PStr "{location: Paris") ∧
  json_loads "{location: Paris" = None ∧
  detect_tool_call message_malformed
    = inr (mkToolCall (PDict weather_call_malformed)
             (dict_get weather_call_malformed "name" PNone) (PDict ∅)).
Proof.
  assert (carries_call message_malformed weather_call_malformed) as Hcall.
  { apply in_function_call; vm_compute; reflexivity. }
  assert (weather_call_malformed !! "arguments" = Some (PStr "{location: Paris"))
    as Hargs by (vm_compute; reflexivity).
  assert (json_loads "{location: Paris" = None) as Hbad
    by (vm_compute; reflexivity).
  destruct (malformed_arguments_decode_to_empty message_malformed
              weather_call_malformed _ Hcall Hargs Hbad) as [Hdecoded _].
  exact (conj Hcall (conj Hargs (conj Hbad Hdecoded))).
Defined.

(** C7.  The call in the format [tool_calls] gets its result in that
    format with its identifier, and the call in the format [function_call]
    gets it in that format, without identifier, when the message has no
    key [tool_calls]. *)
Example tool_result_in_each_format :
  append_tool_result [] message_tool_calls (PStr "get_latest_news") (PDict ∅)
    = inr [PDict message_tool_calls;
           PDict (<["role" := PStr "tool"]>
                    (<["tool_call_id" := PStr "call_1"]>
                       (<["name" := PStr "get_latest_news"]>
                          (<["content" := PStr "{}"]> ∅))))] ∧
  append_tool_result [] message_function_call (PStr "get_latest_news") (PDict ∅)
    = inr [PDict message_function_call;
           PDict (<["role" := PStr "function"]>
                    (<["name" := PStr "get_latest_news"]>
                       (<["content" := PStr "{}"]> ∅)))].
Proof. vm_compute. done. Qed.

(** C7, where the code departs from it.  The assistant message holds its
    call as [function_call] next to a key [tool_calls] with an empty list,
    or with [None].  The call is detected in the format [function_call]
    and the plugin is executed, but the result is appended as for the
    format [tool_calls], because the key is there: the first element of
    the empty list, or of [None], is asked for, and [IndexError], or
    [TypeError], ends the turn in place of the message with role
    "function". *)
Theorem function_call_result_fails_next_to_empty_tool_calls :
  detect_tool_call message_with_both_keys
    = inr (mkToolCall (PDict news_call) (PStr "get_latest_news") (PDict ∅)) ∧
  append_tool_result [] message_with_both_keys (PStr "get_latest_news") (PDict ∅)
    = inl (mkExn IndexError "list index out of range") ∧
  (tool_call_turn [] message_with_both_keys None None
     (world all_three all_three)).1
    = inl (mkExn IndexError "list index out of range") ∧
  detect_tool_call message_with_null_tool_calls
    = inr (mkToolCall (PDict news_call) (PStr "get_latest_news") (PDict ∅)) ∧
  (tool_call_turn [] message_with_null_tool_calls None None
     (world all_three all_three)).1
    = inl (mkExn TypeError "'NoneType' object is not subscriptable").
Proof. vm_compute. done. Qed.

(** The data posted for the conversation of the examples. *)
Example claude_data_of_conversation :
  let data := ClaudeProvider_data provider_B conversation ∅ in
  data !! "system"
    = Some (PStr ("You are kind." +:+ newline +:+ "Answer briefly." +:+ newline
                  +:+ "Stay calm.")) ∧
  data !! "messages"
    = Some (PList (format_messages
                     [mkMessage "user" "Hello"; mkMessage "assistant" "Hi";
                      mkMessage "user" "How are you?"])).
Proof. vm_compute. done. Qed.

(** C9 as stated fails: Claude is enabled with no [api_key], and the
    router is built all the same, without Claude. *)
Lemma router_is_built_without_the_key :
  let o := LLMRouter_init config_missing_key (world all_three all_three) in
  truthy (dict_get (default ∅ (config_missing_key !! "claude")) "enabled"
            (PBool false)) = true ∧
  default ∅ (config_missing_key !! "claude") !! "api_key" = None ∧
  result o = inr tt ∧
  cls <$> providers (self_after o) = [OllamaProvider] ∧
  cls <$> current_provider (self_after o) = Some OllamaProvider.
Proof. vm_compute. done. Qed.

Lemma enabled_provider_without_key_is_left_out_witness :
  let w := world all_three all_three in
  let config := default ∅ (config_missing_key !! class_key ClaudeProvider) in
  ClaudeProvider ≠ OllamaProvider ∧ ClaudeProvider ≠ OpenAIProvider ∧
  truthy (dict_get config "enabled" (PBool false)) = true ∧
  truthy (dict_get config "api_key" PNone) = false ∧
  construct ClaudeProvider config
    = inl (mkExn ValueError "Claude API key is required") ∧
  ClaudeProvider ∉ cls <$> providers (self_after (LLMRouter_init config_missing_key w)).
Proof.
  intros w config.
  assert (ClaudeProvider ≠ OllamaProvider) as H1 by done.
  assert (ClaudeProvider ≠ OpenAIProvider) as H2 by done.
  assert (truthy (dict_get config "enabled" (PBool false)) = true) as H3
    by (vm_compute; reflexivity).
  assert (truthy (dict_get config "api_key" PNone) = false) as H4
    by (vm_compute; reflexivity).
  destruct (enabled_provider_without_key_is_left_out config_missing_key
              ClaudeProvider w H1 H2 H3 H4) as (Hraises & _ & _ & Hout).
  exact (conj H1 (conj H2 (conj H3 (conj H4 (conj Hraises Hout))))).
Defined.

Section RouterMethodFacts.

Context {W : Type} `{!Backend W} `{!Builtins}.

Lemma list_loop_outcome l acc (self : LLMRouter) (w : W) :
  ∃ evs w',
    list_loop l acc self w =
      mkOutcome (inr (acc ++ (reported <$> probes evs))) self w' evs ∧
    fst <$> probes evs = l ∧
    attempts evs = [] ∧ printed evs = [].
Proof.
  revert acc w. induction l as [|p l IH]; intros acc w.
  - exists [], w. cbn. unfold ret. by rewrite app_nil_r.
  - cbn [list_loop]. unfold bind at 1.
    assert (∃ w1 r, is_available p w = (r, w1)) as (w1 & r & Hp).
    { destruct (is_available p w); eauto. }
    destruct (IH (acc ++ [reported (p, r)]) w1) as (evs & w' & Hl & Hpr & Hat & Hpd).
    exists (EvProbe p r :: evs), w'.
    unfold try_except, bind, call_is_available, ret. rewrite Hp.
    destruct r as [e|available]; cbn;
      unfold reported at 1 in Hl; cbn [fst snd] in Hl;
      rewrite Hl; read_log; cbn; rewrite Hpr, Hat, Hpd;
      by rewrite <- app_assoc.
Qed.


Lemma list_available_providers_self (self : LLMRouter) (w : W) :
  self_after (list_available_providers self w) = self.
Proof.
  unfold list_available_providers. run_M.
  by destruct (list_loop_outcome (providers self) [] self w)
    as (evs & w' & -> & _).
Qed.

(** X1. [list_available_providers] never raises and probes every provider
    of [self.providers] exactly once, in the order of the list; its
    result has one entry per provider, in that order, which reports the
    answer of the probe ([available] false and the text of the error when
    the probe raised); no completion is called, nothing is printed, and
    the router, its selection included, is left as it was. *)
Theorem list_available_providers_probes_each_once (self : LLMRouter) (w : W) :
  let o := list_available_providers self w in
  fst <$> probes (emitted o) = providers self ∧
  result o = inr (reported <$> probes (emitted o)) ∧
  attempts (emitted o) = [] ∧
  printed (emitted o) = [] ∧
  self_after o = self.
Proof.
  unfold list_available_providers. run_M.
  destruct (list_loop_outcome (providers self) [] self w)
    as (evs & w' & -> & Hpr & Hat & Hpd).
  done.
Qed.

(** The body of the loop of [switch_provider], by the answer of the probe. *)
Lemma switch_step_outcome provider_name (p : Provider) (self : LLMRouter) (w : W) :
  switch_step provider_name p self w =
    if bool_decide (str_lower (get_provider_name p) = str_lower provider_name)
    then
      match is_available p w with
      | (inr true, w1) =>
          mkOutcome (inr (Some true)) (with_current self (Some p)) w1
            [EvProbe p (inr true);
             EvPrint ("[ROUTER] 手动切换到: " +:+ get_provider_name p)]
      | (inr false, w1) =>
          mkOutcome (inr (Some false)) self w1
            [EvProbe p (inr false);
             EvPrint ("[ROUTER] " +:+ provider_name +:+ " 不可用")]
      | (inl e, w1) =>
          mkOutcome (inr (Some false)) self w1
            [EvProbe p (inl e);
             EvPrint ("[ROUTER] 切换到 " +:+ provider_name +:+ " 失败: "
                        +:+ exn_msg e)]
      end
    else mkOutcome (inr None) self w [].
Proof.
  unfold switch_step. case_bool_decide; [|done].
  run_M. by destruct (is_available p w) as [[e|[|]] w1].
Qed.

(** The loop of [switch_provider] stops at the first provider that
    answers to the name. *)
Lemma switch_loop_outcome provider_name l (self : LLMRouter) (w : W) :
  for_each l (switch_step provider_name) self w =
    match head (named provider_name l) with
    | Some p => switch_step provider_name p self w
    | None => mkOutcome (inr None) self w []
    end.
Proof.
  induction l as [|p l IH]; [done|].
  rewrite for_each_cons. unfold named. rewrite filter_cons.
  case_decide as Hname.
  - cbn [head]. rewrite switch_step_outcome, bool_decide_eq_true_2 by done.
    by destruct (is_available p w) as [[e|[|]] w1].
  - rewrite switch_step_outcome, bool_decide_eq_false_2 by done.
    rewrite IH. fold (named provider_name l).
    destruct (head (named provider_name l)) as [q|]; [|done].
    by destruct (switch_step provider_name q self w).
Qed.


(** What [switch_provider] does, by the first provider of the list that
    answers to the name. *)
Lemma switch_provider_outcome provider_name (self : LLMRouter) (w : W) :
  switch_provider provider_name self w =
    match head (named provider_name (providers self)) with
    | None =>
        mkOutcome (inr false) self w
          [EvPrint ("[ROUTER] 未找到提供商: " +:+ provider_name)]
    | Some p =>
        match is_available p w with
        | (inr true, w1) =>
            mkOutcome (inr true) (with_current self (Some p)) w1
              [EvProbe p (inr true);
               EvPrint ("[ROUTER] 手动切换到: " +:+ get_provider_name p)]
        | (inr false, w1) =>
            mkOutcome (inr false) self w1
              [EvProbe p (inr false);
               EvPrint ("[ROUTER] " +:+ provider_name +:+ " 不可用")]
        | (inl e, w1) =>
            mkOutcome (inr false) self w1
              [EvProbe p (inl e);
               EvPrint ("[ROUTER] 切换到 " +:+ provider_name +:+ " 失败: "
                          +:+ exn_msg e)]
        end
    end.
Proof.
  unfold switch_provider. unfold bind at 1, get_self at 1. unfold bind at 1.
  rewrite switch_loop_outcome.
  destruct (head (named provider_name (providers self))) as [p|] eqn:Hhead;
    [|done].
  assert (p ∈ named provider_name (providers self)) as Hp.
  { destruct (named _ _); [done|]. injection Hhead as ->. left. }
  apply list_elem_of_filter in Hp as [Hname _].
  rewrite switch_step_outcome, bool_decide_eq_true_2 by done.
  by destruct (is_available p w) as [[e|[|]] w1].
Qed.

(** X2. [switch_provider] never raises and never calls a completion.  It
    probes one provider at most: the first of [self.providers] whose name
    is the requested one, case set aside.  It answers true exactly when
    that probe answers true, and the provider is then selected; in every
    other case (no provider of that name, a probe that answers false or
    raises) it answers false and leaves the router as it was. *)
Theorem switch_provider_selects_first_match
    (provider_name : string) (self : LLMRouter) (w : W) :
  let o := switch_provider provider_name self w in
  attempts (emitted o) = [] ∧
  providers (self_after o) = providers self ∧
  (result o = inr true ∨ (result o = inr false ∧ self_after o = self)) ∧
  match head (named provider_name (providers self)) with
  | None => probes (emitted o) = [] ∧ result o = inr false ∧ world_after o = w
  | Some p =>
      probes (emitted o) = [(p, (is_available p w).1)] ∧
      world_after o = (is_available p w).2 ∧
      result o = inr (answered_true (p, (is_available p w).1)) ∧
      (result o = inr true → current_provider (self_after o) = Some p)
  end.
Proof.
  cbn zeta. rewrite switch_provider_outcome.
  destruct (head (named provider_name (providers self))) as [p|].
  - destruct (is_available p w) as [[e|[|]] w1]; cbn; read_log;
      split_and!; auto; done.
  - cbn. read_log. split_and!; auto.
Qed.

(** X3. After a successful [switch_provider], the provider of that name is
    the one that the next [chat_completion] calls first, whatever was
    selected before: also a router that was built when no provider was
    available. *)
Theorem switch_provider_then_chat_completion
    (provider_name : string) (self : LLMRouter) (w : W) :
  let o := switch_provider provider_name self w in
  result o = inr true →
  ∃ p, p ∈ providers self ∧
       str_lower (get_provider_name p) = str_lower provider_name ∧
       (is_available p w).1 = inr true ∧
       current_provider (self_after o) = Some p ∧
       ∀ messages kwargs w2,
         head (emitted (chat_completion messages kwargs (self_after o) w2)) =
           Some (EvCall p messages kwargs
                   (provider_chat_completion p messages kwargs w2).1).
Proof.
  cbn zeta. rewrite switch_provider_outcome.
  destruct (head (named provider_name (providers self))) as [p|] eqn:Hhead;
    [|done].
  assert (p ∈ named provider_name (providers self)) as Hp.
  { destruct (named _ _); [done|]. injection Hhead as ->. left. }
  apply list_elem_of_filter in Hp as [Hname Hin].
  destruct (is_available p w) as [[e|[|]] w1] eqn:Hav; cbn [result self_after];
    try done.
  intros _. exists p. rewrite Hav. split_and!; try done.
  intros messages kwargs w2. by apply chat_completion_starts_at_current.
Qed.

(** The providers that a failover run probes and calls are among those
    left for failover. *)
Lemma failover_run_within current messages kwargs l (w : W) evs res w' :
  failover_run current messages kwargs l w evs res w' →
  Forall (λ pr, pr.1 ∈ remaining current l) (probes evs) ∧
  Forall (λ a, a.1 ∈ remaining current l) (attempts evs) ∧
  Forall (λ args, args = (messages, kwargs)) (call_arguments evs).
Proof.
  induction 1 as [w
                 |p l w evs res w' Hpc _ IH
                 |p l w e w1 evs res w' Hpc Hp _ IH
                 |p l w w1 evs res w' Hpc Hp _ IH
                 |p l w w1 e w2 evs res w' Hpc Hp Hc _ IH
                 |p l w w1 response w2 Hpc Hp Hc]; read_log.
  - done.
  - by rewrite remaining_skip.
  - rewrite remaining_keep by done. destruct IH as (IH1 & IH2 & IH3).
    split_and!; [constructor; [left|] | | done];
      (eapply Forall_impl; [eassumption|]); intros; by right.
  - rewrite remaining_keep by done. destruct IH as (IH1 & IH2 & IH3).
    split_and!; [constructor; [left|] | | done];
      (eapply Forall_impl; [eassumption|]); intros; by right.
  - rewrite remaining_keep by done. destruct IH as (IH1 & IH2 & IH3).
    split_and!; [constructor; [left|] | constructor; [left|] | by constructor];
      (eapply Forall_impl; [eassumption|]); intros; by right.
  - rewrite remaining_keep by done.
    split_and!; repeat constructor.
Qed.


(** X4. [chat_completion] never asks the selected provider whether it is
    available: it calls its completion at once, and calls it once; the
    probes and the later calls go to other providers.  Every call gets the
    messages and the keyword arguments of the caller unchanged.  When the
    selected provider answers, that is all that happens: one call, no
    probe, nothing printed, and the router is left as it was. *)
Theorem chat_completion_trusts_current
    (self : LLMRouter) (current : Provider) (messages : list LLMMessage)
    (kwargs : gmap string PyVal) (w : W) :
  current_provider self = Some current →
  let o := chat_completion messages kwargs self w in
  let first := provider_chat_completion current messages kwargs w in
  Forall (λ pr, cls pr.1 ≠ cls current) (probes (emitted o)) ∧
  (∃ others, attempts (emitted o) = (current, first.1) :: others ∧
             Forall (λ a, cls a.1 ≠ cls current) others) ∧
  Forall (λ args, args = (messages, kwargs)) (call_arguments (emitted o)) ∧
  (∀ response, first.1 = inr response →
     o = mkOutcome (inr response) self first.2
           [EvCall current messages kwargs (inr response)]).
Proof.
  intros Hcur. cbn zeta.
  destruct (provider_chat_completion current messages kwargs w)
    as [[e|response] w1] eqn:Hc.
  - destruct (chat_completion_failover_run self current messages kwargs w e w1)
      as (evs & res & w' & Hrun & ->); [done..|].
    cbn [emitted fst snd]. read_log.
    destruct (failover_run_within _ _ _ _ _ _ _ _ Hrun) as (Hpr & Hat & Hargs).
    assert (∀ p, p ∈ remaining current (providers self) → cls p ≠ cls current)
      as Hrem.
    { intros p. unfold remaining. rewrite list_elem_of_filter. tauto. }
    split_and!.
    + eapply Forall_impl; [exact Hpr|]. intros pr. apply Hrem.
    + eexists. split; [done|].
      eapply Forall_impl; [exact Hat|]. intros a. apply Hrem.
    + by constructor.
    + done.
  - erewrite chat_completion_steady by done.
    cbn [emitted fst snd]. read_log. split_and!.
    + done.
    + by exists [].
    + by repeat constructor.
    + by intros ? [= <-].
Qed.

(** X5. The selection of a router that is one of its providers stays one
    of its providers: no method selects a provider from outside
    [self.providers], and none changes the list. *)
Theorem selection_stays_in_list (self : LLMRouter) :
  selected_from_list self →
  (∀ messages kwargs (w : W),
     let o := chat_completion messages kwargs self w in
     providers (self_after o) = providers self ∧ selected_from_list (self_after o)) ∧
  (∀ provider_name (w : W),
     let o := switch_provider provider_name self w in
     providers (self_after o) = providers self ∧ selected_from_list (self_after o)) ∧
  (∀ w : W, self_after (list_available_providers self w) = self).
Proof.
  intros Hself. split_and!.
  - intros messages kwargs w. cbn zeta.
    split; [apply chat_completion_keeps_providers|].
    destruct (current_provider self) as [current|] eqn:Hcur;
      [|by rewrite chat_completion_unselected].
    destruct (provider_chat_completion current messages kwargs w)
      as [[e|response] w1] eqn:Hc; [|by erewrite chat_completion_steady].
    destruct (chat_completion_failover_run self current messages kwargs w e w1)
      as (evs & res & w' & Hrun & ->); [done..|].
    cbn [self_after]. destruct res as [[p response]|]; [|done].
    apply failover_run_result in Hrun as (pre & _ & _ & Hp).
    unfold remaining in Hp. apply list_elem_of_filter in Hp as [_ Hp].
    by intros q [= <-].
  - intros provider_name w. cbn zeta. rewrite switch_provider_outcome.
    destruct (head (named provider_name (providers self))) as [p|] eqn:Hhead;
      [|done].
    assert (p ∈ named provider_name (providers self)) as Hp.
    { destruct (named _ _); [done|]. injection Hhead as ->. left. }
    apply list_elem_of_filter in Hp as [_ Hin].
    destruct (is_available p w) as [[e|[|]] w1]; cbn [self_after]; try done.
    split; [done|]. by intros q [= <-].
  - intros w. apply list_available_providers_self.
Qed.

End RouterMethodFacts.

(** *** The order of the providers *)

Lemma provider_classes_all c : (class_key c, c) ∈ provider_classes.
Proof. destruct c; apply (bool_decide_unpack _); vm_compute; exact I. Qed.

Lemma provider_classes_positions :
  StronglySorted (λ e1 e2 : string * ProviderClass,
                    table_position e1.2 < table_position e2.2) provider_classes.
Proof.
  unfold provider_classes.
  repeat (constructor; [|repeat (constructor; [vm_compute; lia|]); constructor]).
  constructor.
Qed.

Lemma StronglySorted_omap {A B} (R1 : relation A) (R2 : relation B)
    (f : A → option B) (l : list A) :
  (∀ x y fx fy, f x = Some fx → f y = Some fy → R1 x y → R2 fx fy) →
  StronglySorted R1 l → StronglySorted R2 (omap f l).
Proof.
  intros HR. induction 1 as [|x l Hl IH Hx]; cbn; [constructor|].
  destruct (f x) as [fx|] eqn:Hfx; [|done].
  constructor; [done|].
  apply Forall_forall. intros fy (y & Hy & Hfy)%list_elem_of_omap.
  rewrite Forall_forall in Hx. eauto.
Qed.

Lemma entry_before_of_le x y :
  comparable x.1 y.1 = true → entry_le x y →
  table_position (cls x.2) < table_position (cls y.2) →
  entry_before x y.
Proof.
  unfold entry_le, entry_before. rewrite key_le_true.
  intros [[] Hxy]%comparable_true Hyx Hpos; [by left|right].
  split; [|done]. by apply py_lt_connected.
Qed.

Lemma entry_before_le x y :
  comparable y.1 x.1 = true → entry_before x y → entry_le x y.
Proof.
  unfold entry_le, entry_before. rewrite key_le_true.
  intros [r Hyx]%comparable_true [Hxy|[Heq _]].
  - by apply py_lt_asym.
  - destruct r; [|done]. apply py_lt_not_eq in Hyx.
    by rewrite (py_eq_sym _ _ Heq) in Hyx.
Qed.

Lemma entry_before_insert x l :
  ordered (x :: l) →
  Forall (λ y, table_position (cls x.2) < table_position (cls y.2)) l →
  StronglySorted entry_before l →
  StronglySorted entry_before (insert_by_key x l).
Proof.
  intros Hord Hpos Hsorted.
  induction Hsorted as [|y l Hl IH Hy]; cbn.
  { repeat constructor. }
  apply Forall_cons in Hpos as [Hpy Hpos].
  assert (∀ u v, u ∈ x :: y :: l → v ∈ x :: y :: l → comparable u.1 v.1 = true)
    as Hcmp by (intros; by apply Hord).
  destruct (key_le x.1 y.1) eqn:Hxy.
  - constructor; [by constructor|].
    constructor.
    + apply entry_before_of_le; [|done|done].
      apply Hcmp; [by left|by right; left].
    + rewrite Forall_forall in Hy, Hpos |- *. intros z Hz.
      apply entry_before_of_le; [| |by apply Hpos].
      * apply Hcmp; [by left|by do 2 right].
      * eapply (entry_le_trans x y z); [|exact Hxy|].
        -- apply Hcmp; [by do 2 right|by left].
        -- apply entry_before_le; [|by apply Hy].
           apply Hcmp; [by do 2 right|by right; left].
  - constructor.
    + apply IH; [|done]. intros u v Hu Hv. apply Hcmp.
      * apply elem_of_cons in Hu as [->|Hu]; [by left|by do 2 right].
      * apply elem_of_cons in Hv as [->|Hv]; [by left|by do 2 right].
    + rewrite (insert_by_key_Permutation x l). constructor; [|done].
      left. assert (comparable y.1 x.1 = true) as [r Hyx]%comparable_true
        by (apply Hcmp; [by right; left|by left]).
      destruct r; [done|]. apply key_le_true in Hyx. congruence.
Qed.

Lemma entry_before_foldr l :
  ordered l →
  StronglySorted (λ x y : PyVal * Provider,
                    table_position (cls x.2) < table_position (cls y.2)) l →
  StronglySorted entry_before (foldr insert_by_key [] l).
Proof.
  intros Hord Hpos. induction Hpos as [|x l Hl IH Hx]; cbn; [constructor|].
  apply entry_before_insert; [| |by eapply IH, ordered_cons].
  - eapply ordered_Permutation; [|exact Hord].
    by rewrite foldr_insert_Permutation.
  - by rewrite foldr_insert_Permutation.
Qed.

Lemma sort_by_priority_stable l sorted :
  StronglySorted (λ x y : PyVal * Provider,
                    table_position (cls x.2) < table_position (cls y.2)) l →
  sort_by_priority l = inr sorted →
  StronglySorted entry_before sorted.
Proof.
  intros Hpos [[Hlen ->]|[Hord ->]]%sort_by_priority_inr.
  - destruct l as [|x [|y l]]; cbn in Hlen; [| |lia]; repeat constructor.
  - by apply entry_before_foldr.
Qed.

Section InitMore.

Context {W : Type} `{!Backend W}.

Lemma initialized_entries_positions cfg :
  StronglySorted (λ x y : PyVal * Provider,
                    table_position (cls x.2) < table_position (cls y.2))
    (omap (initialized_entry cfg) provider_classes).
Proof.
  eapply StronglySorted_omap; [|apply provider_classes_positions].
  intros [n1 c1] [n2 c2] [k1 p1] [k2 p2] H1 H2. cbn.
  unfold initialized_entry in H1, H2. cbn in H1, H2.
  destruct (truthy _) in H1; [|done].
  destruct (construct c1 _) as [|q1] eqn:Hc1 in H1; [done|].
  destruct (truthy _) in H2; [|done].
  destruct (construct c2 _) as [|q2] eqn:Hc2 in H2; [done|].
  injection H1 as <- <-. injection H2 as <- <-.
  apply construct_cls in Hc1, Hc2. by rewrite Hc1, Hc2.
Qed.

(** X6. The providers of a freshly built router are in ascending order
    of their configured priority, and providers of equal priority are in
    the order of the table of classes: siliconflow, deepseek, claude,
    gemini, ollama, dashscope, openai. *)
Theorem router_init_orders_equal_priorities_by_table
    (cfg : gmap string (gmap string PyVal)) (w : W) :
  let o := LLMRouter_init cfg w in
  result o = inr tt →
  StronglySorted (comes_before cfg) (providers (self_after o)).
Proof.
  cbn zeta. intros Hres.
  destruct (LLMRouter_init_outcome cfg w Hres)
    as (sorted & evs & found & w' & Hsort & Hrun & ->). cbn [self_after providers].
  pose proof (sort_by_priority_stable _ _ (initialized_entries_positions cfg) Hsort)
    as Hstable.
  apply sort_by_priority_sorted in Hsort as [Hperm _].
  eapply (StronglySorted_fmap_Forall entry_before _
            (λ kp, kp.1 = configured_priority cfg kp.2)); [| |exact Hstable].
  - intros [k p] [k' p']. cbn. intros -> ->. done.
  - apply Forall_forall. intros [k p] Hkp. rewrite Hperm in Hkp.
    apply list_elem_of_omap in Hkp as (entry & Hin & Hentry).
    by destruct (initialized_entry_priority _ _ _ _ Hin Hentry) as (_ & -> & _).
Qed.

Lemma select_run_found l (w : W) evs found w' p :
  select_run l w evs found w' → found = Some p → p ∈ l.
Proof.
  induction 1; intros Hf; try done.
  - injection Hf as ->. left.
  - right. auto.
  - right. auto.
Qed.

(** The classes of the providers of a freshly built router. *)
Lemma LLMRouter_init_classes cfg (w : W) c :
  result (LLMRouter_init cfg w) = inr tt →
  c ∈ cls <$> providers (self_after (LLMRouter_init cfg w)) ↔
  enabled cfg c = true ∧
  ∃ p, construct c (default ∅ (cfg !! class_key c)) = inr p.
Proof.
  intros Hres.
  destruct (LLMRouter_init_providers cfg w Hres) as (_ & Hnodup & Hps).
  split.
  - intros (p & -> & Hp)%list_elem_of_fmap_1.
    destruct (Hps p Hp) as [He Hc]. split; [done|by exists p].
  - intros [He [p Hc]].
    destruct (LLMRouter_init_outcome cfg w Hres)
      as (sorted & evs & found & w' & Hsort & Hrun & ->).
    cbn [self_after providers].
    apply sort_by_priority_sorted in Hsort as [Hperm _].
    rewrite <- list_fmap_compose, Hperm.
    apply list_elem_of_fmap.
    exists (dict_get (default ∅ (cfg !! class_key c)) "priority" (PInt 999), p).
    split; [cbn; symmetry; by eapply construct_cls|].
    apply list_elem_of_omap. exists (class_key c, c).
    split; [apply provider_classes_all|].
    unfold initialized_entry. cbn. unfold enabled in He. by rewrite He, Hc.
Qed.

(** X7. A freshly built router holds exactly the classes that the
    configuration enables and whose constructor returns, each once, every
    provider being the object that the constructor of its class gives;
    and the provider it selects, if any, is one of them. *)
Theorem router_init_holds_enabled_constructible
    (cfg : gmap string (gmap string PyVal)) (w : W) :
  let o := LLMRouter_init cfg w in
  result o = inr tt →
  let ps := providers (self_after o) in
  NoDup (cls <$> ps) ∧
  (∀ c, c ∈ cls <$> ps ↔
        enabled cfg c = true ∧
        ∃ p, construct c (default ∅ (cfg !! class_key c)) = inr p) ∧
  (∀ p, p ∈ ps → construct (cls p) (default ∅ (cfg !! class_key (cls p))) = inr p) ∧
  selected_from_list (self_after o).
Proof.
  cbn zeta. intros Hres.
  destruct (LLMRouter_init_providers cfg w Hres) as (_ & Hnodup & Hps).
  split_and!; [done| |by intros p [_ ?]%Hps|].
  - intros c. by apply LLMRouter_init_classes.
  - destruct (LLMRouter_init_outcome cfg w Hres)
      as (sorted & evs & found & w' & Hsort & Hrun & ->).
    intros p Hp. cbn in Hp |- *. by eapply select_run_found.
Qed.

(** The construction returns when the priorities of the enabled
    providers are numbers. *)
Lemma LLMRouter_init_numeric cfg (w : W) :
  (∀ c, enabled cfg c = true →
        is_Some (num_key (dict_get (default ∅ (cfg !! class_key c))
                            "priority" (PInt 999)))) →
  result (LLMRouter_init cfg w) = inr tt.
Proof.
  intros Hnum. unfold LLMRouter_init, bind.
  rewrite initialize_providers_outcome. cbn [router_config current_provider].
  assert (∃ sorted, sort_by_priority (omap (initialized_entry cfg) provider_classes)
                    = inr sorted) as [sorted ->].
  { rewrite sort_by_priority_ordered; [by eexists|].
    apply numeric_ordered, Forall_forall. intros [k p] Hkp. unfold numeric. cbn.
    apply list_elem_of_omap in Hkp as ([name c] & Hin & Hentry).
    apply provider_classes_keys in Hin as ->.
    unfold initialized_entry in Hentry. cbn in Hentry.
    specialize (Hnum c). unfold enabled in Hnum.
    destruct (truthy _); [|done].
    destruct (construct c _); [done|]. injection Hentry as <- <-. auto. }
  cbn zeta.
  destruct (select_provider_outcome
              (mkRouter cfg (snd <$> sorted) None) w eq_refl)
    as (evs & found & w' & _ & ->).
  done.
Qed.

(** X8. The construction of a router does not fail on account of a
    provider: when the priority of every enabled provider is a number (or
    is left out), [LLMRouter(config)] returns, whatever the constructors
    of the providers raise and whatever the world answers to the probes. *)
Theorem router_init_returns (cfg : gmap string (gmap string PyVal)) (w : W) :
  (∀ c, enabled cfg c = true →
        is_Some (num_key (dict_get (default ∅ (cfg !! class_key c))
                            "priority" (PInt 999)))) →
  result (LLMRouter_init cfg w) = inr tt.
Proof. apply LLMRouter_init_numeric. Qed.

(** The entries that are sorted: the priority and the class of each is
    that of an enabled class. *)
Lemma initialized_entry_enabled cfg kp :
  kp ∈ omap (initialized_entry cfg) provider_classes →
  enabled cfg (cls kp.2) = true ∧
  kp.1 = dict_get (default ∅ (cfg !! class_key (cls kp.2))) "priority" (PInt 999).
Proof.
  intros ([name c] & Hin & Hentry)%list_elem_of_omap.
  apply provider_classes_keys in Hin as ->.
  unfold initialized_entry in Hentry. cbn in Hentry. unfold enabled.
  destruct (truthy _) eqn:He; [|done].
  destruct (construct c _) as [|p] eqn:Hc; [done|]. injection Hentry as <-.
  cbn. by rewrite (construct_cls _ _ _ Hc).
Qed.

(** X26. [LLMRouter(config)] raises nothing but the [TypeError] of the
    sort of the priorities.  It returns when the priorities of the
    enabled providers can all be compared with each other by [<]:
    numbers with numbers, strings with strings.  And when it returns, the
    priorities of any two of the providers it holds can be compared. *)
Theorem router_init_raises_on_unordered_priorities
    (cfg : gmap string (gmap string PyVal)) (w : W) :
  let o := LLMRouter_init cfg w in
  let priority c :=
    dict_get (default ∅ (cfg !! class_key c)) "priority" (PInt 999) in
  ((∀ c c', enabled cfg c = true → enabled cfg c' = true →
            comparable (priority c) (priority c') = true) →
   result o = inr tt) ∧
  (result o = inr tt →
   ∀ p q, p ∈ providers (self_after o) → q ∈ providers (self_after o) →
          cls p ≠ cls q →
          comparable (priority (cls p)) (priority (cls q)) = true) ∧
  (∀ e, result o = inl e → exn_cls e = TypeError).
Proof.
  cbn zeta. split_and!.
  - intros Hcmp. unfold LLMRouter_init, bind.
    rewrite initialize_providers_outcome. cbn [router_config current_provider].
    rewrite sort_by_priority_ordered.
    + cbn zeta.
      destruct (select_provider_outcome
                  (mkRouter cfg
                     (snd <$> (if bool_decide
                                    (length (omap (initialized_entry cfg)
                                               provider_classes) < 2)
                               then omap (initialized_entry cfg) provider_classes
                               else foldr insert_by_key []
                                      (omap (initialized_entry cfg)
                                         provider_classes)))
                     None) w eq_refl)
        as (evs & found & w' & _ & ->).
      done.
    + intros x y [Hx ->]%initialized_entry_enabled [Hy ->]%initialized_entry_enabled.
      by apply Hcmp.
  - intros Hres p q.
    destruct (LLMRouter_init_outcome cfg w Hres)
      as (sorted & evs & found & w' & Hsort & Hrun & ->).
    cbn [self_after providers].
    intros ([kp p'] & -> & Hp)%list_elem_of_fmap_1
           ([kq q'] & -> & Hq)%list_elem_of_fmap_1 Hpq. cbn [snd] in *.
    pose proof (sort_by_priority_sorted _ _ Hsort) as [Hperm _].
    apply sort_by_priority_inr in Hsort as [[Hlen ->]|[Hord _]].
    + destruct (omap _ provider_classes) as [|x [|y l]]; cbn in Hlen; [| |lia].
      * by apply elem_of_nil in Hp.
      * apply elem_of_cons in Hp as [<-|[]%elem_of_nil].
        by apply elem_of_cons in Hq as [[= _ ->]|[]%elem_of_nil].
    + rewrite Hperm in Hp, Hq.
      destruct (initialized_entry_enabled _ _ Hp) as [_ Hkp].
      destruct (initialized_entry_enabled _ _ Hq) as [_ Hkq].
      cbn [fst snd] in Hkp, Hkq. rewrite <- Hkp, <- Hkq.
      by apply (Hord _ _ Hp Hq).
  - intros e. apply LLMRouter_init_raises.
Qed.

End InitMore.

(** *** The configuration of the environment *)

Section EnvironmentFacts.

Context `{!Builtins}.

Lemma provider_entry_returns enabled api_key base_url model temperature
    max_tokens priority entry :
  provider_entry enabled api_key base_url model temperature max_tokens priority
    = inr entry →
  returns (py_float temperature) ∧ returns (py_int max_tokens) ∧
  (∃ n, py_int priority = inr n ∧ entry !! "priority" = Some (PInt n)) ∧
  entry !! "enabled" = Some enabled ∧
  entry !! "api_key" = api_key.
Proof.
  unfold provider_entry, and_then, returns.
  destruct (py_float temperature) as [|t]; [done|].
  destruct (py_int max_tokens) as [|m]; [done|].
  destruct (py_int priority) as [|n]; [done|].
  intros [= <-]. split_and!; eauto.
  - exists n. split; [done|]. by destruct api_key; simplify_map_eq.
  - by destruct api_key; simplify_map_eq.
  - by destruct api_key; simplify_map_eq.
Qed.

Lemma provider_entry_parses enabled api_key base_url model temperature
    max_tokens priority :
  returns (py_float temperature) → returns (py_int max_tokens) →
  returns (py_int priority) →
  returns (provider_entry enabled api_key base_url model temperature
             max_tokens priority).
Proof.
  unfold provider_entry, and_then, returns.
  intros [t ->] [m ->] [n ->]. eauto.
Qed.

(** The entries of the configuration of the environment, class by class. *)
Lemma load_config_entries environ cfg c :
  _load_config_from_env environ = inr cfg →
  ∃ entry n,
    cfg !! class_key c = Some entry ∧
    entry !! "priority" = Some (PInt n) ∧
    entry !! "api_key" = environment_key environ c ∧
    entry !! "enabled" =
      Some (PBool (match environment_key environ c with
                   | Some key => truthy key
                   | None =>
                       bool_decide
                         (str_lower (getenv_default environ "OLLAMA_ENABLED" "true")
                          = "true")
                   end)).
Proof.
  unfold _load_config_from_env.
  repeat match goal with
  | |- and_then ?m _ = _ → _ =>
      let H := fresh "H" in
      destruct m eqn:H; [done|];
      apply provider_entry_returns in H as (_ & _ & [? [_ ?]] & ? & ?);
      cbn [and_then]
  end.
  intros [= <-].
  destruct c; cbn [class_key environment_key];
    rewrite ?lookup_insert_ne by done; rewrite lookup_insert_eq;
    eexists _, _; split_and!; eauto.
Qed.

(** The constructor of a class returns on a configuration that holds a
    key for it, and the constructor of Ollama returns anyway. *)
Lemma provider_init_with_key c (entry : gmap string PyVal) key :
  c ≠ OpenAIProvider →
  entry !! "api_key" = key →
  match key with Some k => truthy k | None => true end = true →
  (key = None → c = OllamaProvider) →
  returns (provider_init c entry).
Proof.
  intros Hc Hkey Htrue Hnone. unfold returns, provider_init. cbn [api_key].
  destruct key as [k|].
  - assert (dict_get entry "api_key" PNone = k) as ->
      by (unfold dict_get; by rewrite Hkey).
    destruct c; rewrite ?Htrue; eauto.
  - rewrite (Hnone eq_refl). eauto.
Qed.

(** X9. In the configuration of the environment, a provider that needs
    a key is enabled exactly when its key is set and not empty (for
    DashScope: [LLM_API_KEY], or else [DASHSCOPE_API_KEY]), and Ollama is
    enabled unless [OLLAMA_ENABLED] is set to something else than "true",
    case set aside.  Hence the constructor of an enabled provider never
    fails for want of a key. *)
Theorem environment_enables_by_key
    (environ : gmap string string) (cfg : gmap string (gmap string PyVal))
    (c : ProviderClass) :
  _load_config_from_env environ = inr cfg →
  let config := default ∅ (cfg !! class_key c) in
  config !! "api_key" = environment_key environ c ∧
  enabled cfg c =
    match environment_key environ c with
    | Some key => truthy key
    | None =>
        bool_decide (str_lower (getenv_default environ "OLLAMA_ENABLED" "true")
                     = "true")
    end ∧
  (c ≠ OpenAIProvider → enabled cfg c = true → returns (provider_init c config)).
Proof.
  intros Hload. cbn zeta.
  destruct (load_config_entries environ cfg c Hload)
    as (entry & n & Hentry & _ & Hkey & Hen).
  unfold enabled. rewrite Hentry. cbn [default id].
  assert (dict_get entry "enabled" (PBool false)
          = PBool (match environment_key environ c with
                   | Some key => truthy key
                   | None =>
                       bool_decide
                         (str_lower (getenv_default environ "OLLAMA_ENABLED" "true")
                          = "true")
                   end)) as -> by (unfold dict_get; by rewrite Hen).
  cbn [truthy]. split_and!; [done..|].
  intros Hc He. apply (provider_init_with_key _ _ (environment_key environ c));
    [done|done|by destruct (environment_key environ c)|by destruct c].
Qed.

(** X10. The configuration of the environment is loaded exactly when
    each of the twenty-one variables that are read as numbers, set or
    left at its default, is the text of a number: one of them that is
    not, be it of a provider that is not enabled, makes the loader
    raise. *)
Theorem environment_numbers_must_parse (environ : gmap string string) :
  returns (_load_config_from_env environ) ↔
  Forall (λ v, returns (py_float (getenv_default environ v.1 v.2))) float_variables ∧
  Forall (λ v, returns (py_int (getenv_default environ v.1 v.2))) int_variables.
Proof.
  split.
  - intros [cfg Hload]. revert Hload. unfold _load_config_from_env.
    repeat match goal with
    | |- and_then ?m _ = _ → _ =>
        let H := fresh "H" in
        destruct m eqn:H; [done|];
        apply provider_entry_returns in H as (? & ? & [? [? _]] & _ & _);
        cbn [and_then]
    end.
    intros _. unfold returns in *. split; repeat constructor; cbn; eauto.
  - intros [Hf Hi].
    repeat (apply Forall_cons in Hf as [? Hf]).
    repeat (apply Forall_cons in Hi as [? Hi]).
    cbn [fst snd] in *. unfold _load_config_from_env.
    repeat match goal with
    | |- returns (and_then (provider_entry ?a ?b ?c ?d ?e ?f ?g) _) =>
        destruct (provider_entry_parses a b c d e f g) as [? ->];
        [assumption..|]; cbn [and_then]
    end.
    by eexists.
Qed.

End EnvironmentFacts.

Section EnvironmentRouter.

Context {W : Type} `{!Backend W} `{!Builtins}.

(** X11. [LLMRouter()] on an environment whose configuration is loaded
    always returns, and the router holds exactly the providers that this
    configuration enables (OpenAI set aside, whose constructor is not at
    hand): none is left out for want of a key. *)
Theorem router_of_environment
    (environ : gmap string string) (cfg : gmap string (gmap string PyVal))
    (w : W) :
  _load_config_from_env environ = inr cfg →
  let o := LLMRouter_default environ w in
  result o = inr tt ∧
  ∀ c, c ≠ OpenAIProvider →
       (c ∈ cls <$> providers (self_after o) ↔ enabled cfg c = true).
Proof.
  intros Hload. cbn zeta. unfold LLMRouter_default. rewrite Hload.
  assert (result (LLMRouter_init cfg w) = inr tt) as Hres.
  { apply LLMRouter_init_numeric. intros c _.
    destruct (load_config_entries environ cfg c Hload)
      as (entry & n & -> & Hn & _). cbn [default id]. unfold dict_get.
    rewrite Hn. by eexists. }
  split; [done|]. intros c Hc.
  rewrite (LLMRouter_init_classes cfg w c Hres).
  split; [tauto|]. intros He. split; [done|].
  destruct (load_config_entries environ cfg c Hload)
    as (entry & n & Hentry & _ & Hkey & Hen).
  unfold enabled in He. rewrite Hentry in He |- *. cbn [default id] in *.
  unfold dict_get in He. rewrite Hen in He. cbn [truthy] in He.
  assert (construct c entry = provider_init c entry) as -> by by destruct c.
  apply (provider_init_with_key _ _ (environment_key environ c));
    [done|done|by destruct (environment_key environ c)|by destruct c].
Qed.

(** When the loader raises, so does [LLMRouter()], before any provider
    is built or probed. *)
Lemma LLMRouter_default_raises (environ : gmap string string) (w : W) e :
  _load_config_from_env environ = inl e →
  LLMRouter_default environ w = mkOutcome (inl e) (mkRouter ∅ [] None) w [].
Proof. intros Hload. unfold LLMRouter_default. by rewrite Hload. Qed.

End EnvironmentRouter.

(** ** The providers: Gemini and Claude *)

Lemma gemini_split_summary messages contents system_instruction :
  gemini_split messages contents system_instruction =
    (contents ++ (gemini_content <$> filter (λ msg, role msg ≠ "system") messages),
     system_instruction +:+ system_text messages).
Proof.
  revert contents system_instruction.
  induction messages as [|msg messages IH]; intros contents system_instruction.
  - cbn. by rewrite app_nil_r, append_empty_r.
  - cbn [gemini_split]. rewrite system_text_cons, filter_cons.
    case_bool_decide as Hrole.
    + rewrite IH. rewrite decide_False by (by intros []).
      by rewrite !append_assoc.
    + rewrite IH. rewrite decide_True by done.
      cbn. by rewrite <- app_assoc.
Qed.

(** X12. The data that [GeminiProvider.chat_completion_sync] posts hold
    under [contents] the messages that are not of role "system", in
    order and one entry each, under the role "user" for the messages of
    the user and under the role "model" for every other one (so no entry
    has the role "assistant" or "system"); the contents of the system
    messages go, joined in order, to [systemInstruction], which is left
    out when that text is blank. *)
Theorem gemini_data_renames_roles
    (self : Provider) (messages : list LLMMessage) (kwargs : gmap string PyVal) :
  let data := GeminiProvider_data self messages kwargs in
  let others := filter (λ msg, role msg ≠ "system") messages in
  data !! "contents" = Some (PList (gemini_content <$> others)) ∧
  (∀ i msg, others !! i = Some msg →
     ∃ d, (gemini_content <$> others) !! i = Some (PDict d) ∧
          d !! "parts" = Some (PList [PDict (<["text" := PStr (content msg)]> ∅)]) ∧
          (role msg = "user" → d !! "role" = Some (PStr "user")) ∧
          (role msg ≠ "user" → d !! "role" = Some (PStr "model"))) ∧
  data !! "systemInstruction" =
    (if bool_decide (strip (system_text messages) = "") then None
     else Some (PDict (<["parts" :=
                           PList [PDict (<["text" :=
                                             PStr (strip (system_text messages))]> ∅)]]>
                         ∅))) ∧
  req_json (GeminiProvider_request self messages kwargs) = Some (PDict data).
Proof.
  cbn zeta. unfold GeminiProvider_request, GeminiProvider_data.
  rewrite gemini_split_summary. cbn [app req_json truthy].
  change ("" +:+ system_text messages) with (system_text messages).
  split_and!.
  - case_bool_decide; cbn [negb]; by simplify_map_eq.
  - intros i msg Hi. rewrite list_lookup_fmap, Hi. cbn.
    eexists. split; [done|]. split_and!.
    + by simplify_map_eq.
    + intros Hu. rewrite bool_decide_eq_true_2 by done. by simplify_map_eq.
    + intros Hu. rewrite bool_decide_eq_false_2 by done. by simplify_map_eq.
  - case_bool_decide; cbn [negb]; by simplify_map_eq.
  - done.
Qed.

Section CompletionFacts.

Context {W : Type} `{!Requests W} `{!ResponseJson} `{!Builtins}.

Lemma concat_empty_cons (x : string) (l : list string) :
  String.concat "" (x :: l) = x +:+ String.concat "" l.
Proof. destruct l; cbn; [by rewrite append_empty_r|done]. Qed.

(** The loop over the blocks of a response joins the texts of its blocks
    of type "text". *)
Lemma claude_text_blocks (blocks : list (gmap string PyVal)) content :
  Forall well_formed_block blocks →
  claude_text (PDict <$> blocks) content
    = inr (content +:+ String.concat "" (block_text <$> blocks)).
Proof.
  revert content. induction blocks as [|b blocks IH]; intros content Hwf.
  - cbn. by rewrite append_empty_r.
  - apply Forall_cons in Hwf as [Hb Hwf].
    rewrite !fmap_cons, concat_empty_cons.
    cbn [claude_text py_get and_then].
    unfold block_text at 1. unfold well_formed_block in Hb.
    destruct (py_is_str (dict_get b "type" PNone) "text").
    + destruct (Hb eq_refl) as [s ->]. rewrite IH by done.
      by rewrite append_assoc.
    + by rewrite IH.
Qed.

(** X13. The response that [ClaudeProvider.chat_completion_sync] makes
    of a decoded body: its content joins, in order, the texts of the
    blocks of type "text" and leaves the other blocks out (a body with no
    [content], or an empty one, gives the empty reply); its model is the
    model of the provider, not the one the body names; its usage counts
    the input and the output tokens and their sum, zero standing for a
    count that the body leaves out; its finish reason is the
    [stop_reason] of the body, or "stop". *)
Theorem claude_parse_joins_text_blocks
    (self : Provider) (result usage : gmap string PyVal)
    (blocks : list (gmap string PyVal)) (total_tokens : PyVal) :
  dict_get result "content" (PList []) = PList (PDict <$> blocks) →
  Forall well_formed_block blocks →
  dict_get result "usage" (PDict ∅) = PDict usage →
  py_add (dict_get usage "input_tokens" (PInt 0))
         (dict_get usage "output_tokens" (PInt 0)) = inr total_tokens →
  claude_parse self (PDict result) =
    inr (mkResponse (String.concat "" (block_text <$> blocks)) (model self)
           (Some (<["prompt_tokens" := dict_get usage "input_tokens" (PInt 0)]>
                   (<["completion_tokens" := dict_get usage "output_tokens" (PInt 0)]>
                     (<["total_tokens" := total_tokens]> ∅))))
           (dict_get result "stop_reason" (PStr "stop"))).
Proof.
  intros Hcontent Hwf Husage Hadd.
  unfold claude_parse. cbn [py_contains and_then py_get].
  rewrite Husage. cbn [py_get and_then]. rewrite Hadd. cbn [and_then].
  assert (∀ content : Exn + string,
            content = inr (String.concat "" (block_text <$> blocks)) →
            and_then content
              (λ content,
                 inr (mkResponse content (model self)
                        (Some (<["prompt_tokens" := dict_get usage "input_tokens" (PInt 0)]>
                                (<["completion_tokens" :=
                                     dict_get usage "output_tokens" (PInt 0)]>
                                  (<["total_tokens" := total_tokens]> ∅))))
                        (dict_get result "stop_reason" (PStr "stop")))) =
            inr (mkResponse (String.concat "" (block_text <$> blocks)) (model self)
                   (Some (<["prompt_tokens" := dict_get usage "input_tokens" (PInt 0)]>
                           (<["completion_tokens" :=
                                dict_get usage "output_tokens" (PInt 0)]>
                             (<["total_tokens" := total_tokens]> ∅))))
                   (dict_get result "stop_reason" (PStr "stop")))) as Hthen
    by (by intros ? ->).
  unfold dict_has, dict_get in *.
  destruct (result !! "content") as [v|] eqn:Hv.
  - rewrite bool_decide_eq_true_2 by eauto. cbn [py_getitem].
    rewrite Hv. cbn [and_then andb]. subst v.
    destruct blocks as [|b blocks].
    + done.
    + cbn [truthy fmap list_fmap length]. rewrite bool_decide_eq_false_2 by done.
      cbn [negb py_iter and_then]. apply Hthen.
      by rewrite (claude_text_blocks (b :: blocks)).
  - rewrite bool_decide_eq_false_2 by (by intros [? ?]). cbn [and_then andb].
    destruct blocks; [done|]. discriminate.
Qed.

(** X14. [ClaudeProvider.chat_completion_sync] sends one request and
    returns a response only when the status of the answer is 200 and its
    body is decoded; the model of the response is then the model of the
    provider.  An answer with another status raises
    [Exception("Claude API错误: <status> - <body>")]; a request that
    raises a [RequestException] raises
    [Exception("Claude连接失败: <error>")]; and no [RequestException]
    leaves the method, whatever the world answers. *)
Theorem claude_completion_failures
    (self : Provider) (messages : list LLMMessage) (kwargs : gmap string PyVal)
    (w : W) :
  let o := ClaudeProvider_chat_completion_sync self messages kwargs w in
  let sent := requests_send (ClaudeProvider_request self messages kwargs) w in
  completion_world o = sent.2 ∧
  (∀ response, completed o = inr response →
     resp_model response = model self ∧
     ∃ text result, sent.1 = HttpResponse 200 text ∧
                    response_json text = inr result ∧
                    claude_parse self result = inr response) ∧
  (∀ status_code text, sent.1 = HttpResponse status_code text →
     status_code ≠ 200%Z →
     completed o =
       inl (mkExn Exception
              ("Claude API错误: " +:+ pretty status_code +:+ " - " +:+ text))) ∧
  (∀ e, sent.1 = HttpRaised e →
     completed o =
       inl (if bool_decide (exn_cls e = RequestException)
            then mkExn Exception ("Claude连接失败: " +:+ exn_msg e)
            else e)) ∧
  (∀ e, completed o = inl e → exn_cls e ≠ RequestException).
Proof.
  cbn zeta. unfold ClaudeProvider_chat_completion_sync.
  destruct (requests_send (ClaudeProvider_request self messages kwargs) w)
    as [[e|status_code text] w'].
  - cbn [fst snd]. case_bool_decide as He; cbn [completed completion_world];
      split_and!; intros; simplify_eq; try done.
    + by rewrite bool_decide_eq_true_2.
    + by rewrite bool_decide_eq_false_2.
  - cbn [fst snd]. destruct (status_code =? 200)%Z eqn:Hs; cbn [negb].
    + apply Z.eqb_eq in Hs as ->.
      destruct (response_json text) as [e|result] eqn:Hjson; cbn [and_then].
      { case_bool_decide as He; cbn [completed completion_world];
          split_and!; intros; by simplify_eq. }
      destruct (claude_parse self result) as [e|response] eqn:Hparse.
      { case_bool_decide as He; cbn [completed completion_world];
          split_and!; intros; by simplify_eq. }
      cbn [completed completion_world].
      split_and!; intros; simplify_eq; try done.
      split; [|by eauto].
      revert Hparse. unfold claude_parse, and_then.
      repeat match goal with
      | |- match ?m with _ => _ end = _ → _ => destruct m; try done
      end.
      by intros [= <-].
    + apply Z.eqb_neq in Hs.
      rewrite bool_decide_eq_false_2 by done.
      cbn [completed completion_world].
      split_and!; intros; by simplify_eq.
Qed.

(** X20. Of the choices of a response, [SiliconFlowProvider]
    reads the first one only: its content, whatever value it is, becomes
    the content of the reply, and its [finish_reason] the finish reason.
    A body with no [choices] at all gives the empty reply, but a body
    whose [choices] is the empty list raises [IndexError]. *)
Theorem siliconflow_parse_reads_first_choice
    (self : Provider) (result usage : gmap string PyVal) :
  dict_get result "usage" (PDict ∅) = PDict usage →
  match result !! "choices" with
  | None =>
      siliconflow_parse self (PDict result) =
        inr (mkReply (PStr "") (model self) (siliconflow_usage usage) (PStr "stop"))
  | Some (PList []) =>
      siliconflow_parse self (PDict result) =
        inl (mkExn IndexError "list index out of range")
  | Some (PList (PDict choice :: others)) =>
      ∀ message,
        dict_get choice "message" (PDict ∅) = PDict message →
        siliconflow_parse self (PDict result) =
          inr (mkReply (dict_get message "content" (PStr "")) (model self)
                 (siliconflow_usage usage)
                 (dict_get choice "finish_reason" (PStr "stop")))
  | Some _ => True
  end.
Proof.
  intros Husage. unfold siliconflow_parse. cbn [py_get and_then].
  rewrite Husage. cbn [py_get and_then].
  destruct (result !! "choices") as [[| | | | |[|[| | | | | |choice] others]|]|]
    eqn:Hchoices; try exact I; try intros message Hmessage;
    unfold dict_get at 1; rewrite Hchoices; cbn [py_first and_then py_get].
  - done.
  - rewrite Hmessage. done.
  - done.
Qed.

(** An empty list of choices has no first item. *)
Lemma siliconflow_parse_empty_choices (self : Provider) (result : gmap string PyVal) :
  result !! "choices" = Some (PList []) →
  siliconflow_parse self (PDict result) =
    inl (mkExn IndexError "list index out of range").
Proof.
  intros Hchoices. unfold siliconflow_parse. cbn [py_get and_then].
  unfold dict_get at 1. by rewrite Hchoices.
Qed.

(** X21. [SiliconFlowProvider.chat_completion_sync] returns a reply only
    when the status of the answer is 200 and its body is decoded; an
    answer with another status raises
    [Exception("SiliconFlow API错误: <status> - <body>")], a request
    that raises a [RequestException] raises
    [Exception("SiliconFlow连接失败: <error>")], and no [RequestException]
    leaves the method.  An answer of status 200 whose [choices] is the
    empty list leaves it with the bare [IndexError]. *)
Theorem siliconflow_completion_failures
    (self : Provider) (messages : list LLMMessage) (kwargs : gmap string PyVal)
    (w : W) :
  let o := SiliconFlowProvider_chat_completion_sync self messages kwargs w in
  let sent := requests_send (SiliconFlowProvider_request self messages kwargs) w in
  completion_world o = sent.2 ∧
  (∀ reply, completed o = inr reply →
     ∃ text result, sent.1 = HttpResponse 200 text ∧
                    response_json text = inr result ∧
                    siliconflow_parse self result = inr reply) ∧
  (∀ status_code text, sent.1 = HttpResponse status_code text →
     status_code ≠ 200%Z →
     completed o =
       inl (mkExn Exception
              ("SiliconFlow API错误: " +:+ pretty status_code +:+ " - " +:+ text))) ∧
  (∀ e, sent.1 = HttpRaised e →
     completed o =
       inl (if bool_decide (exn_cls e = RequestException)
            then mkExn Exception ("SiliconFlow连接失败: " +:+ exn_msg e)
            else e)) ∧
  (∀ text (result : gmap string PyVal),
     sent.1 = HttpResponse 200 text →
     response_json text = inr (PDict result) →
     result !! "choices" = Some (PList []) →
     completed o = inl (mkExn IndexError "list index out of range")) ∧
  (∀ e, completed o = inl e → exn_cls e ≠ RequestException).
Proof.
  cbn zeta. unfold SiliconFlowProvider_chat_completion_sync.
  destruct (requests_send (SiliconFlowProvider_request self messages kwargs) w)
    as [[e|status_code text] w']; cbn [fst snd].
  - case_bool_decide as He; cbn [completed completion_world].
    + split_and!; try done.
      * intros e' [= <-]. by rewrite bool_decide_eq_true_2.
      * by intros e' [= <-].
    + split_and!; try done.
      * intros e' [= <-]. by rewrite bool_decide_eq_false_2.
      * by intros e' [= <-].
  - destruct (status_code =? 200)%Z eqn:Hs; cbn [negb].
    + apply Z.eqb_eq in Hs as ->.
      destruct (response_json text) as [e|result] eqn:Hjson; cbn [and_then].
      { case_bool_decide as He; cbn [completed completion_world].
        - split_and!; try done.
          + by intros status_code text' [= <- <-].
          + intros text' result [= <-]. by rewrite Hjson.
          + by intros e' [= <-].
        - split_and!; try done.
          + by intros status_code text' [= <- <-].
          + intros text' result [= <-]. by rewrite Hjson.
          + by intros e' [= <-]. }
      destruct (siliconflow_parse self result) as [e|reply] eqn:Hparse.
      * assert (∀ choices : gmap string PyVal,
                  result = PDict choices →
                  choices !! "choices" = Some (PList []) →
                  e = mkExn IndexError "list index out of range") as Hempty.
        { intros choices -> Hchoices. revert Hparse.
          rewrite (siliconflow_parse_empty_choices _ _ Hchoices). congruence. }
        case_bool_decide as He; cbn [completed completion_world].
        -- split_and!; try done.
           ++ by intros status_code text' [= <- <-].
           ++ intros text' choices [= <-]. rewrite Hjson. intros [= ->] Hchoices.
              rewrite (Hempty _ eq_refl Hchoices) in He. done.
           ++ by intros e' [= <-].
        -- split_and!; try done.
           ++ by intros status_code text' [= <- <-].
           ++ intros text' choices [= <-]. rewrite Hjson. intros [= ->] Hchoices.
              by rewrite (Hempty _ eq_refl Hchoices).
           ++ by intros e' [= <-].
      * cbn [completed completion_world]. split_and!; try done.
        -- intros reply' [= <-]. by eauto.
        -- by intros status_code text' [= <- <-].
        -- intros text' choices [= <-]. rewrite Hjson. intros [= ->] Hchoices.
           rewrite (siliconflow_parse_empty_choices _ _ Hchoices) in Hparse. done.
    + apply Z.eqb_neq in Hs.
      rewrite bool_decide_eq_false_2 by done.
      cbn [completed completion_world]. split_and!; try done.
      * by intros status_code' text' [= <- <-].
      * intros text' result [= -> <-]. done.
      * by intros e' [= <-].
Qed.

(** The loop of [get_embedding] gives one embedding per item. *)
Lemma embeddings_of_items (items : list (gmap string PyVal)) embeddings :
  embeddings_of (PDict <$> items) embeddings
    = inr (embeddings ++ ((λ item, dict_get item "embedding" (PList [])) <$> items)).
Proof.
  revert embeddings. induction items as [|item items IH]; intros embeddings.
  - cbn. by rewrite app_nil_r.
  - rewrite !fmap_cons. cbn [embeddings_of py_get and_then].
    rewrite IH. by rewrite <- app_assoc.
Qed.

(** X22. [SiliconFlowProvider.get_embedding] returns one vector per item
    that the body holds under [data], in the order of the body: the
    [embedding] of the item, or the empty list for an item that has
    none.  The texts that were sent have no part in it: the vectors are
    not counted against them. *)
Theorem get_embedding_one_vector_per_item
    (self : Provider) (texts : list string) (model : option string) (w : W)
    (text : string) (result : gmap string PyVal)
    (items : list (gmap string PyVal)) :
  let o := SiliconFlowProvider_get_embedding self texts model w in
  let request :=
    mkRequest POST [FVal (base_url self); FLit "/embeddings"]
      (bearer_headers self)
      (Some (PDict (<["model" := PStr (default "BAAI/bge-m3" model)]>
                     (<["input" := PList (PStr <$> texts)]>
                        (<["encoding_format" := PStr "float"]> ∅)))))
      (timeout self) in
  (requests_send request w).1 = HttpResponse 200 text →
  response_json text = inr (PDict result) →
  dict_get result "data" (PList []) = PList (PDict <$> items) →
  completed o =
    inr ((λ item, dict_get item "embedding" (PList [])) <$> items).
Proof.
  cbn zeta. intros Hsent Hjson Hdata. unfold SiliconFlowProvider_get_embedding.
  destruct (requests_send _ w) as [sent w'] eqn:Hsend.
  cbn [fst] in Hsent. subst sent. cbn [Z.eqb Pos.eqb negb].
  rewrite Hjson. cbn [and_then py_get]. rewrite Hdata. cbn [py_iter and_then].
  by rewrite embeddings_of_items.
Qed.

(** The names of a list of models, when each of them has one. *)
Lemma names_of_models (models : list (gmap string PyVal)) :
  if forallb (λ model, dict_has model "name") models
  then names_of (PDict <$> models)
         = inr ((λ model, dict_get model "name" PNone) <$> models)
  else ∃ e, names_of (PDict <$> models) = inl e.
Proof.
  induction models as [|model models IH]; [done|].
  rewrite !fmap_cons. cbn [names_of py_getitem forallb].
  unfold dict_has at 1, dict_get at 1.
  destruct (model !! "name") as [name|] eqn:Hname.
  - rewrite bool_decide_eq_true_2 by eauto. cbn [andb and_then].
    destruct (forallb _ models).
    + by rewrite IH.
    + destruct IH as [e ->]. by eauto.
  - rewrite bool_decide_eq_false_2 by (by intros [? ?]). cbn [andb and_then].
    by eauto.
Qed.

(** X23. [OllamaProvider.list_models] gives all the names or none: on
    an answer of status 200 whose body lists the models, the result is
    the list of their names, in order, when every model has a name, and
    the empty list as soon as one of them has none; every other answer
    and every exception of the request give the empty list as well. *)
Theorem ollama_list_models_all_or_nothing (self : Provider) (w : W) :
  let request :=
    mkRequest GET [FVal (base_url self); FLit "/api/tags"] [] None (PInt 10) in
  let names := (OllamaProvider_list_models self w).1 in
  (OllamaProvider_list_models self w).2 = (requests_send request w).2 ∧
  match (requests_send request w).1 with
  | HttpRaised _ => names = []
  | HttpResponse status_code text =>
      (status_code ≠ 200%Z → names = []) ∧
      (∀ e, response_json text = inl e → names = []) ∧
      (∀ (data : gmap string PyVal) (models : list (gmap string PyVal)),
         status_code = 200%Z →
         response_json text = inr (PDict data) →
         dict_get data "models" (PList []) = PList (PDict <$> models) →
         names =
           if forallb (λ model, dict_has model "name") models
           then (λ model, dict_get model "name" PNone) <$> models
           else [])
  end.
Proof.
  cbn zeta. unfold OllamaProvider_list_models.
  destruct (requests_send _ w) as [[e|status_code text] w'];
    cbn [fst snd]; [done|].
  destruct (status_code =? 200)%Z eqn:Hs.
  - apply Z.eqb_eq in Hs as ->.
    destruct (response_json text) as [e|result] eqn:Hjson; cbn [and_then].
    { split; [done|]. split_and!; intros; by simplify_eq. }
    split.
    { by destruct (and_then _ _). }
    split_and!; [done|done|].
    intros data models _ [= ->] Hmodels. cbn [py_get and_then].
    rewrite Hmodels. cbn [py_iter and_then].
    pose proof (names_of_models models) as Hnames.
    destruct (forallb _ models).
    + by rewrite Hnames.
    + destruct Hnames as [e ->]. done.
  - apply Z.eqb_neq in Hs. split; [done|].
    split_and!; intros; by simplify_eq.
Qed.

End CompletionFacts.

(** ** The plugin engine: more on tool calls *)

Section ToolCallMore.

Context `{!Json}.

(** X15. Of the tool calls of an assistant message only the first one is
    read: the calls that follow it in [tool_calls] have no part in what
    is detected, and neither has a [function_call] next to them. *)
Theorem detect_tool_call_reads_first_tool_call
    (assistant_message : gmap string PyVal) (first : PyVal) (others : list PyVal) :
  detect_tool_call (<["tool_calls" := PList (first :: others)]> assistant_message)
  = detect_tool_call
      (<["tool_calls" := PList [first]]> (delete "function_call" assistant_message)).
Proof.
  unfold detect_tool_call, dict_has, dict_get. by simplify_map_eq.
Qed.

(** The first stage of [assist_arguments]: the location of a call of
    [get_weather]. *)
Lemma assist_location func_name (args : gmap string PyVal) weather_location :
  (if py_is_str func_name "get_weather" then
     let* has_location := py_contains "location" (PDict args) in
     if negb has_location then
       let location := default PNone (PStr <$> weather_location) in
       if truthy location && negb (py_is_str location "当前城市") then
         py_setitem (PDict args) "location" location
       else if py_is_str location "当前城市" || negb (truthy location) then
         py_setitem (PDict args) "location" (PStr "深圳")
       else inr (PDict args)
     else inr (PDict args)
   else inr (PDict args))
  = inr (PDict (if py_is_str func_name "get_weather" && negb (dict_has args "location")
                then <["location" := PStr (effective_location weather_location)]> args
                else args)).
Proof.
  destruct (py_is_str func_name "get_weather"); [|done].
  cbn [py_contains and_then andb]. destruct (dict_has args "location"); [done|].
  cbn [negb]. unfold effective_location.
  destruct weather_location as [city|]; [|done].
  cbn [default fmap option_fmap option_map id truthy py_is_str].
  destruct (decide (city = "")) as [->|H1]; [done|].
  destruct (decide (city = "当前城市")) as [->|H2]; [done|].
  rewrite (bool_decide_eq_false_2 (city = "")),
    (bool_decide_eq_false_2 (city = "当前城市")),
    (bool_decide_eq_false_2 (_ ∨ _)) by tauto.
  done.
Qed.

Lemma py_is_str_true v k : py_is_str v k = true ↔ v = PStr k.
Proof.
  destruct v; cbn; try (split; [done|by intros [=]]).
  rewrite bool_decide_eq_true. split; [by intros ->|by intros [= ->]].
Qed.

(** X16. On the arguments that the model gave as a JSON object,
    [assist_arguments] never raises, and it only adds: every argument of
    the model is kept with its value, and the only keys that can come on
    top are [location], [date] and [year].  After it a call of
    [get_weather] always has a [location]: the one of the model, or else
    the city detected in the input of the user, or else "深圳".  The
    arguments of a call of another tool than [get_weather] and
    [get_holiday_info] are left as they are. *)
Theorem assist_arguments_only_adds
    (func_name : PyVal) (args : gmap string PyVal)
    (weather_location : option string)
    (holiday_info : option (gmap string PyVal)) :
  ∃ args',
    assist_arguments func_name (PDict args) weather_location holiday_info
      = inr (PDict args') ∧
    args ⊆ args' ∧
    (∀ k, is_Some (args' !! k) → is_Some (args !! k) ∨ k ∈ assisted_keys) ∧
    (func_name = PStr "get_weather" →
       args' !! "location" =
         Some (default (PStr (effective_location weather_location))
                 (args !! "location"))) ∧
    (func_name ≠ PStr "get_weather" → func_name ≠ PStr "get_holiday_info" →
       args' = args).
Proof.
  unfold assist_arguments. rewrite assist_location. cbn [and_then].
  assert (∀ k v, args !! k = None →
            args ⊆ <[k := v]> args ∧
            ∀ k', is_Some (<[k := v]> args !! k') → is_Some (args !! k') ∨ k' = k)
    as Hadd.
  { intros k v Hk. split; [by apply insert_subseteq|].
    intros k'. destruct (decide (k' = k)) as [->|]; [by right|].
    rewrite lookup_insert_ne by done. by left. }
  unfold assisted_keys.
  destruct (py_is_str func_name "get_weather") eqn:Hw.
  - apply py_is_str_true in Hw as ->. cbn [py_is_str andb].
    rewrite (bool_decide_eq_false_2 ("get_weather" = "get_holiday_info")) by done.
    unfold dict_has. destruct (args !! "location") as [v|] eqn:Hl.
    + rewrite bool_decide_eq_true_2 by eauto. cbn [negb].
      exists args. split_and!; try done. by left.
    + rewrite bool_decide_eq_false_2 by (by intros [? ?]). cbn [negb].
      eexists. split; [done|]. pose proof (Hadd "location" (PStr (effective_location weather_location)) Hl) as [Hsub Hkeys].
      split_and!; try done.
      * intros k [?| ->]%Hkeys; [by left|right; by apply (bool_decide_unpack _)].
      * intros _. by rewrite lookup_insert.
  - cbn [andb].
    assert (func_name ≠ PStr "get_weather") as Hnw.
    { intros Heq%py_is_str_true. congruence. }
    destruct (py_is_str func_name "get_holiday_info") eqn:Hh.
    2:{ exists args. split_and!; try done. by left. }
    apply py_is_str_true in Hh as ->.
    destruct holiday_info as [info|].
    2:{ exists args. split_and!; try done. by left. }
    destruct (truthy (PDict info)).
    2:{ exists args. split_and!; try done. by left. }
    cbn [py_contains and_then]. unfold dict_has.
    assert (∀ k v, ∃ args',
              py_setitem (PDict args) k v = inr (PDict args') ∧
              args' = <[k := v]> args) as Hset by (by eexists).
    destruct (truthy (dict_get info "date" PNone)).
    + cbn [and_then]. destruct (args !! "date") as [v|] eqn:Hd.
      * rewrite bool_decide_eq_true_2 by eauto. cbn [negb].
        destruct (truthy (dict_get info "year" PNone)).
        -- cbn [and_then]. destruct (args !! "year") as [y|] eqn:Hy.
           ++ rewrite bool_decide_eq_true_2 by eauto. cbn [negb].
              exists args. split_and!; try done. by left.
           ++ rewrite bool_decide_eq_false_2 by (by intros [? ?]). cbn [negb].
              eexists. split; [done|].
              pose proof (Hadd "year" (dict_get info "year" PNone) Hy) as [Hsub Hkeys].
              split_and!; try done.
              intros k [?| ->]%Hkeys; [by left|right; by apply (bool_decide_unpack _)].
        -- cbn [and_then]. exists args. split_and!; try done. by left.
      * rewrite bool_decide_eq_false_2 by (by intros [? ?]). cbn [negb].
        eexists. split; [done|].
        pose proof (Hadd "date" (dict_get info "date" PNone) Hd) as [Hsub Hkeys].
        split_and!; try done.
        intros k [?| ->]%Hkeys; [by left|right; by apply (bool_decide_unpack _)].
    + cbn [and_then].
      destruct (truthy (dict_get info "year" PNone)).
      * cbn [and_then]. destruct (args !! "year") as [y|] eqn:Hy.
        -- rewrite bool_decide_eq_true_2 by eauto. cbn [negb].
           exists args. split_and!; try done. by left.
        -- rewrite bool_decide_eq_false_2 by (by intros [? ?]). cbn [negb].
           eexists. split; [done|].
           pose proof (Hadd "year" (dict_get info "year" PNone) Hy) as [Hsub Hkeys].
           split_and!; try done.
           intros k [?| ->]%Hkeys; [by left|right; by apply (bool_decide_unpack _)].
      * cbn [and_then]. exists args. split_and!; try done. by left.
Qed.

End ToolCallMore.

Section ToolTurnMore.

Context {W : Type} `{!Json} `{!Plugins W}.

(** X17. An assistant message that calls no tool (no [function_call],
    and no [tool_calls] or an empty or null one) ends the handling at
    once: no plugin is executed, nothing is appended, and the world is
    left as it was. *)
Theorem tool_call_turn_without_call
    (messages : list PyVal) (assistant_message : gmap string PyVal)
    (weather_location : option string)
    (holiday_info : option (gmap string PyVal)) (w : W) :
  truthy (dict_get assistant_message "tool_calls" PNone) = false →
  assistant_message !! "function_call" = None →
  tool_call_turn messages assistant_message weather_location holiday_info w
    = (inr None, w).
Proof.
  intros Htc Hfc. unfold tool_call_turn, detect_tool_call, dict_has.
  rewrite Htc, andb_false_r, Hfc.
  by rewrite bool_decide_eq_false_2 by (by intros [? ?]).
Qed.

(** X18. When the handling of a tool call yields, it has executed one
    plugin, the one that the detected call names, on arguments that are a
    dict; it reports that name and the result of that plugin; and it has
    appended two messages to the conversation, whose earlier messages are
    kept: the assistant message, then a message of role "tool" or
    "function" that carries the name of the call and, as its content,
    the JSON text of the result. *)
Theorem tool_call_turn_appends_call_and_result
    (messages : list PyVal) (assistant_message : gmap string PyVal)
    (weather_location : option string)
    (holiday_info : option (gmap string PyVal)) (w w' : W) (t : ToolTurn) :
  tool_call_turn messages assistant_message weather_location holiday_info w
    = (inr (Some t), w') →
  ∃ call kwargs result_message,
    detect_tool_call assistant_message = inr call ∧
    truthy (func_name call) = true ∧
    assist_arguments (func_name call) (func_args call)
      weather_location holiday_info = inr (PDict kwargs) ∧
    execute_plugin (func_name call) kwargs w = (inr (plugin_result t), w') ∧
    plugin_used t = func_name call ∧
    turn_messages t =
      messages ++ [PDict (with_arguments assistant_message (PDict kwargs));
                   PDict result_message] ∧
    result_message !! "name" = Some (func_name call) ∧
    result_message !! "content" = Some (PStr (json_dumps (plugin_result t))) ∧
    (result_message !! "role" = Some (PStr "tool") ∨
     result_message !! "role" = Some (PStr "function")).
Proof.
  unfold tool_call_turn.
  destruct (detect_tool_call assistant_message) as [|call] eqn:Hcall; [done|].
  destruct (truthy (func_name call)) eqn:Hname; [|done].
  destruct (assist_arguments _ _ _ _) as [|[| | | | | |kwargs]] eqn:Hassist;
    try done.
  destruct (execute_plugin (func_name call) kwargs w) as [[|result] w1] eqn:Hex;
    [done|].
  destruct (_format_plugin_result (func_name call) result) as [|text]; [done|].
  destruct (append_tool_result _ _ _ _) as [|messages'] eqn:Happ; [done|].
  intros [= <- <-]. cbn [plugin_result plugin_used turn_messages].
  revert Happ. unfold append_tool_result.
  destruct (dict_has _ "tool_calls").
  - unfold and_then.
    destruct (py_first _) as [|tool_call]; [done|].
    destruct (py_get tool_call "id" PNone) as [|id]; [done|].
    intros [= <-]. eexists call, kwargs, _. rewrite <- app_assoc.
    split_and!; try done; [by simplify_map_eq..|]. left. by simplify_map_eq.
  - intros [= <-]. eexists call, kwargs, _. rewrite <- app_assoc.
    split_and!; try done; [by simplify_map_eq..|]. right. by simplify_map_eq.
Qed.

End ToolTurnMore.

(** *** The location of a call of get_weather *)

Lemma find_head_filter {A} (f : A → bool) (l : list A) :
  find f l = head (filter (λ x, f x = true) l).
Proof.
  induction l as [|x l IH]; [done|]. cbn [find]. rewrite filter_cons.
  destruct (f x) eqn:Hx.
  - by rewrite decide_True.
  - by rewrite decide_False.
Qed.

Lemma existsb_false_Forall {A} (f : A → bool) (l : list A) :
  Forall (λ x, f x = false) l → existsb f l = false.
Proof. induction 1 as [|x l Hx _ IH]; [done|]. cbn. by rewrite Hx, IH. Qed.

Lemma location_keywords_effective city :
  city ∈ location_keywords → effective_location (Some city) = city.
Proof.
  unfold location_keywords. rewrite !elem_of_cons, elem_of_nil.
  intros H. repeat (destruct H as [->|H]; [by vm_compute|]). done.
Qed.

Section IntentFacts.

Context `{!Regex}.

(** X19. The location that a call of [get_weather] gets when the model
    names none comes from the input of the user.  When the input holds no
    word of the weather, the location is "深圳", whatever city the input
    names.  When it holds one and names cities of the list of known
    cities, the location is the first of them in the order of that list,
    not in the order of the input. *)
Theorem weather_call_location
    (user_input : string) (args : gmap string PyVal)
    (holiday_info : option (gmap string PyVal)) :
  args !! "location" = None →
  ∃ city,
    assist_arguments (PStr "get_weather") (PDict args)
      (_detect_weather_intent user_input) holiday_info
      = inr (PDict (<["location" := PStr city]> args)) ∧
    (Forall (λ keyword, str_contains keyword user_input = false) weather_keywords →
       city = "深圳") ∧
    (∀ known,
       Exists (λ keyword, str_contains keyword user_input = true) weather_keywords →
       head (filter (λ c, str_contains c user_input = true) location_keywords)
         = Some known →
       city = known).
Proof.
  intros Hloc.
  exists (effective_location (_detect_weather_intent user_input)).
  split_and!.
  - unfold assist_arguments. rewrite assist_location. cbn [and_then py_is_str].
    rewrite (bool_decide_eq_true_2 ("get_weather" = "get_weather")) by done.
    rewrite (bool_decide_eq_false_2 ("get_weather" = "get_holiday_info")) by done.
    unfold dict_has. rewrite Hloc.
    by rewrite bool_decide_eq_false_2 by (by intros [? ?]).
  - intros Hnone. unfold _detect_weather_intent.
    by rewrite existsb_false_Forall.
  - intros known Hkey Hhead. unfold _detect_weather_intent.
    assert (existsb (λ keyword, str_contains keyword user_input) weather_keywords
            = true) as ->.
    { apply existsb_exists. apply Exists_exists in Hkey as (k & Hk & Hc).
      exists k. split; [by apply list_elem_of_In|done]. }
    cbn [negb]. rewrite find_head_filter, Hhead.
    apply location_keywords_effective.
    assert (known ∈ filter (λ c, str_contains c user_input = true) location_keywords)
      as Hin.
    { destruct (filter _ location_keywords); [done|].
      injection Hhead as ->. left. }
    by apply list_elem_of_filter in Hin as [_ ?].
Qed.

End IntentFacts.

(** ** The plugin engine: the emotion of a message *)

Lemma table_get_app {A} (before after : list (string * A)) k v :
  k ∉ before.*1 → table_get (before ++ (k, v) :: after) k = Some v.
Proof.
  induction before as [|[k' v'] before IH]; cbn; intros Hk.
  - by rewrite bool_decide_eq_true_2.
  - apply not_elem_of_cons in Hk as [Hk Hbefore].
    rewrite bool_decide_eq_false_2 by done. by apply IH.
Qed.

Lemma keyword_score_nonneg m keywords : (0 ≤ keyword_score m keywords)%Z.
Proof. unfold keyword_score. lia. Qed.

(** The entries of [emotion_scores]: the emotions before the first one
    of a positive score have none. *)
Lemma score_entries_first table m :
  (score_entries table m = [] ∧
   Forall (λ entry, keyword_score m entry.2 = 0%Z) table) ∨
  (∃ zeros emotion keywords rest,
     table = zeros ++ (emotion, keywords) :: rest ∧
     Forall (λ entry, keyword_score m entry.2 = 0%Z) zeros ∧
     (0 < keyword_score m keywords)%Z ∧
     score_entries table m
       = (emotion, keyword_score m keywords) :: score_entries rest m).
Proof.
  induction table as [|[emotion keywords] table IH]; cbn [score_entries].
  { left. by split. }
  destruct (0 <? keyword_score m keywords)%Z eqn:Hs.
  - right. exists [], emotion, keywords, table. apply Z.ltb_lt in Hs.
    split_and!; [done|constructor|done|done].
  - apply Z.ltb_ge in Hs. pose proof (keyword_score_nonneg m keywords) as Hs'.
    destruct IH as [[-> Hz]|(zeros & e & kws & rest & -> & Hz & Hpos & ->)].
    + left. split; [done|]. constructor; [cbn; lia|done].
    + right. exists ((emotion, keywords) :: zeros), e, kws, rest.
      split_and!; [done| |done|done]. constructor; [cbn; lia|done].
Qed.

(** The maximum of [emotion_scores]: the first entry of the table that
    exceeds [best], all the entries before it and none after it, if
    there is one. *)
Lemma first_max_entries table m best :
  (0 ≤ best.2)%Z →
  (first_max best (score_entries table m) = best ∧
   Forall (λ entry, (keyword_score m entry.2 ≤ best.2)%Z) table) ∨
  (∃ before emotion keywords after,
     table = before ++ (emotion, keywords) :: after ∧
     first_max best (score_entries table m)
       = (emotion, keyword_score m keywords) ∧
     (best.2 < keyword_score m keywords)%Z ∧
     Forall (λ entry, (keyword_score m entry.2 < keyword_score m keywords)%Z)
       before ∧
     Forall (λ entry, (keyword_score m entry.2 ≤ keyword_score m keywords)%Z)
       after).
Proof.
  revert best.
  induction table as [|[emotion keywords] table IH]; intros best Hbest;
    cbn [score_entries].
  { left. by split. }
  pose proof (keyword_score_nonneg m keywords) as Hs'.
  destruct (0 <? keyword_score m keywords)%Z eqn:Hs; cbn [first_max snd].
  - destruct (best.2 <? keyword_score m keywords)%Z eqn:Hlt.
    + apply Z.ltb_lt in Hlt.
      destruct (IH (emotion, keyword_score m keywords) Hs')
        as [[-> Hall]|(before & e & kws & after & -> & -> & Hgt & Hb & Ha)];
        right.
      * exists [], emotion, keywords, table. by split_and!.
      * cbn [snd] in Hgt.
        exists ((emotion, keywords) :: before), e, kws, after.
        split_and!; try done; [lia|]. constructor; [cbn; lia|done].
    + apply Z.ltb_ge in Hlt.
      destruct (IH best Hbest)
        as [[-> Hall]|(before & e & kws & after & -> & -> & Hgt & Hb & Ha)].
      * left. split; [done|]. constructor; [done|done].
      * right. exists ((emotion, keywords) :: before), e, kws, after.
        split_and!; try done. constructor; [cbn; lia|done].
  - apply Z.ltb_ge in Hs.
    destruct (IH best Hbest)
      as [[-> Hall]|(before & e & kws & after & -> & -> & Hgt & Hb & Ha)].
    + left. split; [done|]. constructor; [cbn; lia|done].
    + right. exists ((emotion, keywords) :: before), e, kws, after.
      split_and!; try done. constructor; [cbn; lia|done].
Qed.

Lemma emotion_keywords_NoDup : NoDup emotion_keywords.*1.
Proof. apply (bool_decide_unpack _). vm_compute. exact I. Qed.

Lemma get_emotion_suggestions_first emotion :
  ∃ others, _get_emotion_suggestions emotion = first_suggestion emotion :: others.
Proof.
  destruct (decide (emotion = "happy")) as [->|Hhappy]; [by eexists|].
  destruct (decide (emotion = "sad")) as [->|Hsad]; [by eexists|].
  destruct (decide (emotion = "anxious")) as [->|Hanxious]; [by eexists|].
  unfold _get_emotion_suggestions, first_suggestion, suggestions_map.
  cbn [table_get].
  rewrite !(bool_decide_eq_false_2 (emotion = _)) by done.
  rewrite !(bool_decide_eq_false_2 (_ = emotion)) by done.
  case_bool_decide; by eexists.
Qed.

Section EmotionFacts.

Context `{!Builtins}.

(** The dominant emotion: "neutral" when no keyword occurs, and else the
    first emotion of the table whose score is the greatest. *)
Lemma dominant_emotion_first_max message :
  let score := keyword_score (str_lower message) in
  (Forall (λ entry, score entry.2 = 0%Z) emotion_keywords ∧
   dominant_emotion message = ("neutral", 5%Z)) ∨
  (∃ before emotion keywords after,
     emotion_keywords = before ++ (emotion, keywords) :: after ∧
     (0 < score keywords)%Z ∧
     Forall (λ entry, (score entry.2 < score keywords)%Z) before ∧
     Forall (λ entry, (score entry.2 ≤ score keywords)%Z) after ∧
     dominant_emotion message = (emotion, Z.min (score keywords * 2) 10)).
Proof.
  cbn zeta. unfold dominant_emotion.
  destruct (score_entries_first emotion_keywords (str_lower message))
    as [[-> Hz]|(zeros & e0 & k0 & rest & Htable & Hz & Hpos & ->)].
  { by left. }
  right.
  destruct (first_max_entries rest (str_lower message)
              (e0, keyword_score (str_lower message) k0))
    as [[-> Hall]|(before & e & kws & after & -> & -> & Hgt & Hb & Ha)];
    [cbn; lia| |].
  - exists zeros, e0, k0, rest. cbn [fst snd]. split_and!; try done.
    eapply Forall_impl; [exact Hz|]. intros entry Hentry. cbn beta in *. lia.
  - cbn [snd] in Hgt.
    exists (zeros ++ (e0, k0) :: before), e, kws, after. cbn [fst snd].
    split_and!; try done.
    + by rewrite Htable, <- app_assoc.
    + lia.
    + apply Forall_app. split.
      * eapply Forall_impl; [exact Hz|]. intros entry Hentry. cbn beta in *. lia.
      * constructor; [cbn; lia|done].
Qed.

(** X24. [_analyze_emotion_simple] counts, for each emotion of the
    table, those of its keywords that occur in the message in lower case.
    When none occurs the emotion is "neutral" with intensity 5 and no
    keywords.  Otherwise the emotion is the first one of the table whose
    count is the greatest: every emotion before it has a smaller count,
    and none after it a greater one; the keywords are those of this
    emotion and the intensity is twice the count, 10 at most. *)
Theorem analyze_emotion_first_greatest (message : string) :
  let score := keyword_score (str_lower message) in
  let data := _analyze_emotion_simple message in
  (Forall (λ entry, score entry.2 = 0%Z) emotion_keywords ∧
   data !! "emotion" = Some (PStr "neutral") ∧
   data !! "intensity" = Some (PInt 5) ∧
   data !! "keywords" = Some (PList []) ∧
   data !! "suggestions" = Some (PList (PStr <$> neutral_suggestions))) ∨
  (∃ before emotion keywords after,
     emotion_keywords = before ++ (emotion, keywords) :: after ∧
     (0 < score keywords)%Z ∧
     Forall (λ entry, (score entry.2 < score keywords)%Z) before ∧
     Forall (λ entry, (score entry.2 ≤ score keywords)%Z) after ∧
     data !! "emotion" = Some (PStr emotion) ∧
     data !! "intensity" = Some (PInt (Z.min (score keywords * 2) 10)) ∧
     data !! "keywords" = Some (PList (PStr <$> keywords)) ∧
     data !! "suggestions"
       = Some (PList (PStr <$> _get_emotion_suggestions emotion))).
Proof.
  cbn zeta. unfold _analyze_emotion_simple.
  destruct (dominant_emotion_first_max message)
    as [[Hz ->]|(before & emotion & keywords & after & Htable & Hpos & Hb & Ha & ->)].
  - left. split_and!; done.
  - right. exists before, emotion, keywords, after.
    assert (table_get emotion_keywords emotion = Some keywords) as ->.
    { rewrite Htable. apply table_get_app.
      pose proof emotion_keywords_NoDup as Hnd.
      rewrite Htable, fmap_app, fmap_cons in Hnd.
      apply NoDup_app in Hnd as (_ & Hnd & _). intros Hin.
      apply (Hnd _ Hin). left. }
    split_and!; done.
Qed.

(** X25. [_get_fallback_response] always answers with the first
    suggestion for the dominant emotion of the input, which is the one of
    "neutral" for every emotion but "happy", "sad" and "anxious"; the
    sentence it keeps for an empty list of suggestions is never its
    answer. *)
Theorem fallback_response_is_first_suggestion (user_input : string) :
  _get_fallback_response user_input
    = inr (PStr (first_suggestion (dominant_emotion user_input).1)) ∧
  _analyze_emotion_simple user_input !! "emotion"
    = Some (PStr (dominant_emotion user_input).1) ∧
  _get_fallback_response user_input ≠ inr (PStr "我在这里倾听你的心声。").
Proof.
  assert (_get_fallback_response user_input
          = inr (PStr (first_suggestion (dominant_emotion user_input).1))) as Hr.
  { unfold _get_fallback_response, _analyze_emotion_simple.
    destruct (dominant_emotion user_input) as [emotion intensity]. cbn [fst].
    destruct (get_emotion_suggestions_first emotion) as [others ->].
    done. }
  split_and!; [done| |].
  - unfold _analyze_emotion_simple.
    by destruct (dominant_emotion user_input) as [emotion intensity].
  - rewrite Hr. unfold first_suggestion.
    repeat case_bool_decide; by intros [=].
Qed.

End EmotionFacts.

(** ** The examples of the other methods *)

(** The router with the three providers up: a switch to a provider that
    is down fails and keeps the selection, a switch by a name in another
    case succeeds, and an unknown name probes nothing. *)
Example switch_provider_by_name :
  let self := router_ABC (world all_three all_three) in
  let down := switch_provider "ollama" self (world [SiliconFlowProvider] []) in
  let up := switch_provider "OLLAMA" self (world all_three all_three) in
  let unknown := switch_provider "mistral" self (world all_three all_three) in
  result down = inr false ∧ self_after down = self ∧
  result up = inr true ∧ current_provider (self_after up) = Some provider_C ∧
  result unknown = inr false ∧ probes (emitted unknown) = [] ∧
  printed (emitted unknown) = ["[ROUTER] 未找到提供商: mistral"].
Proof. vm_compute. done. Qed.

Lemma switch_provider_then_chat_completion_witness :
  let self := router_ABC (world [] []) in
  let o := switch_provider "CLAUDE" self (world [ClaudeProvider] all_three) in
  current_provider self = None ∧
  result o = inr true ∧
  ∃ p, p ∈ providers self ∧
       str_lower (get_provider_name p) = str_lower "CLAUDE" ∧
       (is_available p (world [ClaudeProvider] all_three)).1 = inr true ∧
       current_provider (self_after o) = Some p ∧
       ∀ messages kwargs w2,
         head (emitted (chat_completion messages kwargs (self_after o) w2)) =
           Some (EvCall p messages kwargs
                   (provider_chat_completion p messages kwargs w2).1).
Proof.
  intros self o.
  assert (current_provider self = None) as Hcur by (vm_compute; reflexivity).
  assert (result o = inr true) as Hres by (vm_compute; reflexivity).
  exact (conj Hcur (conj Hres
           (switch_provider_then_chat_completion "CLAUDE" self
              (world [ClaudeProvider] all_three) Hres))).
Defined.

Lemma chat_completion_trusts_current_witness :
  let self := router_ABC (world all_three all_three) in
  let o := chat_completion [] ∅ self (world all_three [OllamaProvider]) in
  current_provider self = Some provider_A ∧
  Forall (λ pr, cls pr.1 ≠ cls provider_A) (probes (emitted o)) ∧
  Forall (λ args, args = ([], ∅)) (call_arguments (emitted o)).
Proof.
  intros self o.
  assert (current_provider self = Some provider_A) as Hcur
    by (unfold self; by rewrite router_ABC_all_up).
  destruct (chat_completion_trusts_current self provider_A [] ∅
              (world all_three [OllamaProvider]) Hcur)
    as (Hprobes & _ & Hargs & _).
  exact (conj Hcur (conj Hprobes Hargs)).
Defined.

Lemma selection_stays_in_list_witness :
  let self := router_ABC (world all_three all_three) in
  selected_from_list self ∧
  ∀ provider_name (w : Scenario),
    selected_from_list (self_after (switch_provider provider_name self w)).
Proof.
  intros self.
  assert (selected_from_list self) as Hself.
  { unfold self. rewrite router_ABC_all_up. intros p [= <-]. left. }
  destruct (selection_stays_in_list self Hself) as (_ & Hswitch & _).
  exact (conj Hself (λ provider_name w, proj2 (Hswitch provider_name w))).
Defined.

(** Three providers of the same priority come in the order of the table,
    whatever the order of the configuration. *)
Example providers_of_equal_priority :
  cls <$> providers (self_after (LLMRouter_init config_tie (world [] [])))
  = [SiliconFlowProvider; ClaudeProvider; OllamaProvider].
Proof. vm_compute. done. Qed.

Lemma router_init_orders_equal_priorities_by_table_witness :
  let o := LLMRouter_init config_tie (world [] []) in
  result o = inr tt ∧
  StronglySorted (comes_before config_tie) (providers (self_after o)).
Proof.
  intros o.
  assert (result o = inr tt) as Hres by (vm_compute; reflexivity).
  exact (conj Hres
           (router_init_orders_equal_priorities_by_table config_tie (world [] [])
              Hres)).
Defined.

Lemma router_init_holds_enabled_constructible_witness :
  let o := LLMRouter_init config_missing_key (world all_three all_three) in
  result o = inr tt ∧
  NoDup (cls <$> providers (self_after o)) ∧
  (ClaudeProvider ∈ cls <$> providers (self_after o) ↔
   enabled config_missing_key ClaudeProvider = true ∧
   ∃ p, construct ClaudeProvider
          (default ∅ (config_missing_key !! class_key ClaudeProvider)) = inr p) ∧
  selected_from_list (self_after o).
Proof.
  intros o.
  assert (result o = inr tt) as Hres by (vm_compute; reflexivity).
  destruct (router_init_holds_enabled_constructible config_missing_key
              (world all_three all_three) Hres) as (Hnd & Hclasses & _ & Hsel).
  exact (conj Hres (conj Hnd (conj (Hclasses ClaudeProvider) Hsel))).
Defined.

Lemma router_init_returns_witness :
  (∀ c, enabled config_ABC c = true →
        is_Some (num_key (dict_get (default ∅ (config_ABC !! class_key c))
                            "priority" (PInt 999)))) ∧
  result (LLMRouter_init config_ABC (world [] [])) = inr tt.
Proof.
  assert (∀ c, enabled config_ABC c = true →
               is_Some (num_key (dict_get (default ∅ (config_ABC !! class_key c))
                                   "priority" (PInt 999)))) as Hnum.
  { intros c. destruct c; vm_compute; intros; by eauto. }
  exact (conj Hnum (router_init_returns config_ABC (world [] []) Hnum)).
Defined.

(** *** The environment *)

(** The loader returns on the environment with a key for Claude only. *)
Lemma load_environ_claude :
  _load_config_from_env environ_claude = inr (loaded environ_claude).
Proof.
  vm_cast_no_check (@eq_refl _ (@inr Exn _ (loaded environ_claude))).
Qed.

(** An environment with a key for Claude only, and Ollama switched off:
    Claude is enabled, and its constructor returns. *)
Lemma environment_enables_by_key_witness :
  _load_config_from_env environ_claude = inr (loaded environ_claude) ∧
  enabled (loaded environ_claude) ClaudeProvider = true ∧
  returns (provider_init ClaudeProvider
             (default ∅ (loaded environ_claude !! class_key ClaudeProvider))).
Proof.
  destruct (environment_enables_by_key environ_claude (loaded environ_claude)
              ClaudeProvider load_environ_claude) as (_ & Hen & Hinit).
  assert (environment_key environ_claude ClaudeProvider = Some (PStr "key-b")) as Hk
    by (vm_compute; reflexivity).
  rewrite Hk in Hen.
  assert (truthy (PStr "key-b") = true) as Ht by (vm_compute; reflexivity).
  rewrite Ht in Hen.
  exact (conj load_environ_claude (conj Hen (Hinit ltac:(discriminate) Hen))).
Defined.

Lemma router_of_environment_witness :
  let o := LLMRouter_default environ_claude (world all_three all_three) in
  _load_config_from_env environ_claude = inr (loaded environ_claude) ∧
  result o = inr tt ∧
  (ClaudeProvider ∈ cls <$> providers (self_after o)
   ↔ enabled (loaded environ_claude) ClaudeProvider = true).
Proof.
  intros o.
  destruct (router_of_environment environ_claude (loaded environ_claude)
              (world all_three all_three) load_environ_claude)
    as [Hres Hclasses].
  exact (conj load_environ_claude
           (conj Hres (Hclasses ClaudeProvider ltac:(discriminate)))).
Defined.

Example router_of_environ_claude :
  let o := LLMRouter_default environ_claude (world all_three all_three) in
  cls <$> providers (self_after o) = [ClaudeProvider] ∧
  cls <$> current_provider (self_after o) = Some ClaudeProvider.
Proof. vm_compute. done. Qed.

(** A priority that is no number, of a provider that has no key, makes
    the loader and the constructor of the router raise. *)
Example environment_with_malformed_priority :
  _load_config_from_env environ_malformed
    = inl (mkExn ValueError "invalid literal for int() with base 10: 'high'") ∧
  LLMRouter_default environ_malformed (world all_three all_three)
    = mkOutcome
        (inl (mkExn ValueError "invalid literal for int() with base 10: 'high'"))
        (mkRouter ∅ [] None) (world all_three all_three) [].
Proof. vm_compute. done. Qed.

(** *** Claude *)

Lemma claude_parse_joins_text_blocks_witness :
  dict_get claude_reply "content" (PList []) = PList (PDict <$> claude_blocks) ∧
  Forall well_formed_block claude_blocks ∧
  dict_get claude_reply "usage" (PDict ∅) = PDict claude_usage ∧
  claude_parse provider_B (PDict claude_reply) =
    inr (mkResponse "Hello there" (PStr "claude-3-haiku-20240307")
           (Some (<["prompt_tokens" := PInt 12]>
                   (<["completion_tokens" := PInt 5]>
                     (<["total_tokens" := PInt 17]> ∅))))
           (PStr "end_turn")).
Proof.
  assert (dict_get claude_reply "content" (PList [])
          = PList (PDict <$> claude_blocks)) as Hcontent by (vm_compute; reflexivity).
  assert (Forall well_formed_block claude_blocks) as Hwf.
  { repeat constructor; intros Htext; vm_compute in Htext |- *;
      by first [discriminate Htext | eexists]. }
  assert (dict_get claude_reply "usage" (PDict ∅) = PDict claude_usage) as Husage
    by (vm_compute; reflexivity).
  exact (conj Hcontent (conj Hwf (conj Husage
           (claude_parse_joins_text_blocks provider_B claude_reply claude_usage
              claude_blocks (PInt 17) Hcontent Hwf Husage eq_refl)))).
Defined.

(** The three ways out of [chat_completion_sync]: a response of status
    200 whose body is the empty object gives the empty reply, a response
    of another status and a request that cannot be sent give an
    exception. *)
Example claude_completion_outcomes :
  completed (ClaudeProvider_chat_completion_sync provider_B conversation ∅
               (world_status 200))
    = inr (mkResponse "" (PStr "claude-3-haiku-20240307")
             (Some (<["prompt_tokens" := PInt 0]>
                     (<["completion_tokens" := PInt 0]>
                       (<["total_tokens" := PInt 0]> ∅))))
             (PStr "stop")) ∧
  completed (ClaudeProvider_chat_completion_sync provider_B conversation ∅
               (world_status 503))
    = inl (mkExn Exception "Claude API错误: 503 - {}") ∧
  completed (ClaudeProvider_chat_completion_sync provider_B conversation ∅
               (world [] []))
    = inl (mkExn Exception "Claude连接失败: connection refused: claude").
Proof. vm_compute. done. Qed.

(** *** SiliconFlow and Ollama *)

Lemma siliconflow_parse_reads_first_choice_witness :
  dict_get siliconflow_reply "usage" (PDict ∅)
    = PDict (<["total_tokens" := PInt 9]> ∅) ∧
  siliconflow_parse provider_A (PDict siliconflow_reply) =
    inr (mkReply (PStr "first") (PStr "Qwen/Qwen2.5-7B-Instruct")
           (<["prompt_tokens" := PInt 0]>
              (<["completion_tokens" := PInt 0]>
                 (<["total_tokens" := PInt 9]> ∅)))
           (PStr "length")).
Proof.
  assert (dict_get siliconflow_reply "usage" (PDict ∅)
          = PDict (<["total_tokens" := PInt 9]> ∅)) as Husage
    by (vm_compute; reflexivity).
  split; [exact Husage|].
  exact (siliconflow_parse_reads_first_choice provider_A siliconflow_reply _ Husage
           (<["role" := PStr "assistant"]> (<["content" := PStr "first"]> ∅))
           eq_refl).
Defined.

(** The ways out of [chat_completion_sync] of SiliconFlow: the reply of
    the first choice, the [IndexError] of an empty list of choices, the
    exception of another status and that of a request that cannot be
    sent. *)
Example siliconflow_completion_outcomes :
  completed (SiliconFlowProvider_chat_completion_sync provider_A conversation ∅
               (world_body (PDict siliconflow_reply)))
    = inr (mkReply (PStr "first") (PStr "Qwen/Qwen2.5-7B-Instruct")
             (<["prompt_tokens" := PInt 0]>
                (<["completion_tokens" := PInt 0]>
                   (<["total_tokens" := PInt 9]> ∅)))
             (PStr "length")) ∧
  completed (SiliconFlowProvider_chat_completion_sync provider_A conversation ∅
               (world_body (PDict siliconflow_no_choice)))
    = inl (mkExn IndexError "list index out of range") ∧
  completed (SiliconFlowProvider_chat_completion_sync provider_A conversation ∅
               (world_status 503))
    = inl (mkExn Exception "SiliconFlow API错误: 503 - {}") ∧
  completed (SiliconFlowProvider_chat_completion_sync provider_A conversation ∅
               (world [] []))
    = inl (mkExn Exception "SiliconFlow连接失败: connection refused: siliconflow").
Proof. vm_compute. done. Qed.

Lemma get_embedding_one_vector_per_item_witness :
  response_json (write_json 64 (PDict embedding_reply))
    = inr (PDict embedding_reply) ∧
  dict_get embedding_reply "data" (PList []) = PList (PDict <$> embedding_items) ∧
  completed (SiliconFlowProvider_get_embedding provider_A ["a"; "b"; "c"] None
               (world_body (PDict embedding_reply)))
    = inr [PList [PInt 1; PInt 2]; PList []].
Proof.
  assert (response_json (write_json 64 (PDict embedding_reply))
          = inr (PDict embedding_reply)) as Hjson by (vm_compute; reflexivity).
  assert (dict_get embedding_reply "data" (PList [])
          = PList (PDict <$> embedding_items)) as Hdata by (vm_compute; reflexivity).
  exact (conj Hjson (conj Hdata
           (get_embedding_one_vector_per_item provider_A ["a"; "b"; "c"] None
              (world_body (PDict embedding_reply)) _ embedding_reply
              embedding_items eq_refl Hjson Hdata))).
Defined.

(** The names of the models when each has one, and the empty list when
    one has none, when the status is not 200 and when Ollama cannot be
    reached. *)
Example ollama_list_models_outcomes :
  (OllamaProvider_list_models provider_C
     (world_body (PDict (<["models" := PList (PDict <$> ollama_named)]> ∅)))).1
    = [PStr "qwen2.5:8b"; PStr "llama3"] ∧
  (OllamaProvider_list_models provider_C
     (world_body (PDict (<["models" := PList (PDict <$> ollama_models)]> ∅)))).1
    = [] ∧
  (OllamaProvider_list_models provider_C (world_status 404)).1 = [] ∧
  (OllamaProvider_list_models provider_C (world [] [])).1 = [].
Proof. vm_compute. done. Qed.

(** *** Tool calls *)

Lemma tool_call_turn_without_call_witness :
  truthy (dict_get message_plain "tool_calls" PNone) = false ∧
  message_plain !! "function_call" = None ∧
  tool_call_turn [] message_plain None None (world all_three all_three)
    = (inr None, world all_three all_three).
Proof.
  exact (conj eq_refl (conj eq_refl
           (tool_call_turn_without_call [] message_plain None None
              (world all_three all_three) eq_refl eq_refl))).
Defined.

Lemma tool_call_turn_appends_call_and_result_witness :
  ∃ t w',
    tool_call_turn [PStr "earlier"] message_tool_calls None None
      (world all_three all_three) = (inr (Some t), w') ∧
    ∃ call kwargs result_message,
      detect_tool_call message_tool_calls = inr call ∧
      execute_plugin (func_name call) kwargs (world all_three all_three)
        = (inr (plugin_result t), w') ∧
      plugin_used t = func_name call ∧
      turn_messages t =
        [PStr "earlier"] ++
          [PDict (with_arguments message_tool_calls (PDict kwargs));
           PDict result_message] ∧
      result_message !! "name" = Some (func_name call).
Proof.
  destruct (tool_call_turn [PStr "earlier"] message_tool_calls None None
              (world all_three all_three)) as [[e|[t|]] w'] eqn:Hturn;
    [by vm_compute in Hturn| |by vm_compute in Hturn].
  exists t, w'. split; [done|].
  destruct (tool_call_turn_appends_call_and_result _ _ _ _ _ _ _ Hturn)
    as (call & kwargs & result_message & Hcall & _ & _ & Hex & Hused
        & Hmessages & Hname & _).
  exists call, kwargs, result_message.
  exact (conj Hcall (conj Hex (conj Hused (conj Hmessages Hname)))).
Defined.

(** A call in the format [tool_calls]: the plugin is executed once and
    the conversation grows by the assistant message and the result. *)
Example tool_call_turn_of_news_call :
  (tool_call_turn [PStr "earlier"] message_tool_calls None None
     (world all_three all_three)).1
  = inr (Some (mkToolTurn
                 [PStr "earlier"; PDict message_tool_calls;
                  PDict (<["role" := PStr "tool"]>
                           (<["tool_call_id" := PStr "call_1"]>
                              (<["name" := PStr "get_latest_news"]>
                                 (<["content" := PStr "{}"]> ∅))))]
                 (PStr "get_latest_news") (PDict ∅) "{}")).
Proof. vm_compute. done. Qed.

(** The input names Shanghai before Beijing: the location is Beijing,
    the first of the two in the list of known cities.  The input that
    names Beijing with no word of the weather gives the default city. *)
Example weather_location_of_input :
  _detect_weather_intent "上海和北京的天气" = Some "北京" ∧
  _detect_weather_intent "北京怎么样" = None ∧
  assist_arguments (PStr "get_weather") (PDict ∅)
    (_detect_weather_intent "北京怎么样") None
    = inr (PDict (<["location" := PStr "深圳"]> ∅)).
Proof. vm_compute. done. Qed.

Lemma weather_call_location_witness :
  (∅ : gmap string PyVal) !! "location" = None ∧
  Exists (λ keyword, str_contains keyword "上海和北京的天气" = true) weather_keywords ∧
  head (filter (λ c, str_contains c "上海和北京的天气" = true) location_keywords)
    = Some "北京" ∧
  assist_arguments (PStr "get_weather") (PDict ∅)
    (_detect_weather_intent "上海和北京的天气") None
    = inr (PDict (<["location" := PStr "北京"]> ∅)).
Proof.
  assert (Exists (λ keyword, str_contains keyword "上海和北京的天气" = true)
            weather_keywords) as Hkey by (left; vm_compute; reflexivity).
  assert (head (filter (λ c, str_contains c "上海和北京的天气" = true)
                  location_keywords) = Some "北京") as Hcity
    by (vm_compute; reflexivity).
  assert ((∅ : gmap string PyVal) !! "location" = None) as Hloc by done.
  destruct (weather_call_location "上海和北京的天气" ∅ None Hloc)
    as (city & Hassist & _ & Hknown).
  rewrite (Hknown "北京" Hkey Hcity) in Hassist.
  exact (conj Hloc (conj Hkey (conj Hcity Hassist))).
Defined.

(** *** The emotion of a message *)

(** The keyword "兴奋" is one of "happy" and of "excited": alone it gives
    "happy", the first of the two in the table, and "excited" needs one
    more of its keywords.  A message with no keyword is "neutral", and the
    fallback response to an angry message is the neutral suggestion. *)
Example emotion_of_messages :
  dominant_emotion "我很兴奋" = ("happy", 2%Z) ∧
  dominant_emotion "很兴奋也很激动" = ("excited", 4%Z) ∧
  dominant_emotion "你好" = ("neutral", 5%Z) ∧
  _analyze_emotion_simple "我很沮丧" !! "emotion" = Some (PStr "sad") ∧
  _get_fallback_response "我很生气" = inr (PStr "今天感觉怎么样？") ∧
  _get_fallback_response "我很难过" = inr (PStr "我理解你现在的心情。").
Proof. vm_compute. done. Qed.
